(** * RTE Zones: delivery-zone containment and city enrichment

    A shallow embedding of [rte_zones.py] (class [RTEZoneChecker]; the class
    [GeoZoneChecker] of [geo_zones_checker.py] has the same [load_data],
    [point_in_zones], [add_city_column] and [save_data], line for line).

    The tabular reader and writer (pandas), the geometry engine (shapely) and
    the HTTP client (requests) are collaborators of the program, not part of
    it.  They appear here as follows:
    - a table is a list of rows under a list of column names; a cell is a
      [value]; a cell that pandas reports as missing (NaN / None) is [VNaN];
      a column read without a text in it is a column of numbers, into which
      pandas (version 3) does not write a text;
    - a missing cell used as a key of a dict is a float NaN, found by the
      object it is and not by its value ([dict_key]);
    - the WKT parser [shapely.wkt.loads] is a parameter [loads];
    - a geometry is any type with a [contains] predicate (class [Geometry]);
      the instance [Polygon] gives the predicate its documented meaning for a
      point: the point lies in the interior of the polygon;
    - one HTTP exchange is a value of type [http_result]; the exchanges of
      an enrichment pass ([requests_get]) and the centroid of a geometry
      ([centroid]) are parameters of the pass;
    - what a pass does to the outside world is the list of its [event]s.

    Floating-point coordinates are exact rationals here, cell numbers are
    integers, and the pauses of [time.sleep] are left out. *)

From Stdlib Require Import ZArith QArith Lia.
From stdpp Require Import base list gmap strings sorting.

Open Scope string_scope.
Open Scope list_scope.

Set Warnings "-register-all".

(** ** Python outcomes *)

Inductive error :=
  | ValueError (msg : string)
  | AttributeError
  | KeyError
  | TypeError
  | ZeroDivisionError
  | RequestException
  | JSONDecodeError.

Inductive outcome (A : Type) :=
  | Returns (a : A)
  | Raises (e : error).
Arguments Returns {A} a.
Arguments Raises {A} e.

(** [s.endswith(suffix)] *)
Definition endswith (s suffix : string) : bool :=
  let n := String.length s in
  let k := String.length suffix in
  (k <=? n)%nat && String.eqb (String.substring (n - k) k s) suffix.

(** Truthiness of an [Optional[str]] argument: [None] and [''] are false. *)
Definition truthy (s : option string) : bool :=
  match s with
  | Some (String _ _) => true
  | _ => false
  end.

(** ** Tables *)

Inductive value :=
  | VNaN
  | VStr (s : string)
  | VNum (z : Z).

#[global] Instance value_eq_dec : EqDecision value.
Proof. solve_decision. Defined.

(** [pd.notna(v)] *)
Definition notna (v : value) : bool :=
  match v with VNaN => false | _ => true end.

Record DataFrame := {
  df_columns : list string;
  df_rows : list (gmap string value)   (* row label = position (RangeIndex) *)
}.

(** [row[col]]: a key that a row does not carry is a missing cell. *)
Definition cell (row : gmap string value) (col : string) : value :=
  default VNaN (row !! col).

(** A column of the table read is a column of numbers: none of its cells
    is a text, so that pandas made it a column of floats (of integers, when
    no cell is missing) and not one of objects. *)
Definition numeric_column (table : DataFrame) (col : string) : bool :=
  bool_decide (col ∈ df_columns table)
  && forallb (λ row, match cell row col with VStr _ => false | _ => true end)
             (df_rows table).

(** ** Column summaries *)

(** Distinct elements, each at its first occurrence. *)
Fixpoint distinct {A} `{EqDecision A} (l : list A) : list A :=
  match l with
  | [] => []
  | x :: l' => x :: filter (λ y, y ≠ x) (distinct l')
  end.

Definition occurrences {A} `{EqDecision A} (v : A) (l : list A) : nat :=
  length (filter (λ y, y = v) l).

(** [Series.nunique()]: missing values are not counted. *)
Definition nunique (l : list value) : nat :=
  length (distinct (filter (λ v, notna v = true) l)).

Definition more_frequent (a b : value * nat) : Prop := (b.2 ≤ a.2)%nat.

#[global] Instance more_frequent_dec a b : Decision (more_frequent a b).
Proof. unfold more_frequent. apply _. Defined.

(** [Series.value_counts()]: the distinct non-missing values with their
    number of occurrences, most frequent first.  The order pandas gives to
    values of equal frequency is not modelled further: it is that of a sort
    of the first-occurrence order. *)
Definition value_counts (l : list value) : list (value * nat) :=
  let present := filter (λ v, notna v = true) l in
  merge_sort more_frequent ((λ v, (v, occurrences v present)) <$> distinct present).

(** ** Geometry *)

Definition point : Type := Q * Q.      (* (x, y) = (longitude, latitude) *)

Class Geometry (G : Type) := {
  contains : G → point → bool
}.

(** ** Reverse geocoding: from the HTTP exchange to a city *)

Inductive json :=
  | JNull
  | JBool (b : bool)
  | JNum (z : Z)
  | JStr (s : string)
  | JArr (items : list json)
  | JObj (members : list (string * json)).

(** Python truth value of a decoded JSON value. *)
Definition json_truthy (j : json) : bool :=
  match j with
  | JNull => false
  | JBool b => b
  | JNum z => negb (z =? 0)%Z
  | JStr s => negb (String.eqb s "")
  | JArr items => match items with [] => false | _ => true end
  | JObj members => match members with [] => false | _ => true end
  end.

(** [a or b] *)
Definition py_or (a b : json) : json := if json_truthy a then a else b.

(** Lookup in a decoded JSON object; of two members with one name the
    decoder keeps the later. *)
Fixpoint members_get (key : string) (members : list (string * json)) : option json :=
  match members with
  | [] => None
  | (k, v) :: rest =>
      match members_get key rest with
      | Some v' => Some v'
      | None => if String.eqb k key then Some v else None
      end
  end.

(** [d.get(key)] and [d.get(key, default)], which exist on dicts only. *)
Definition json_get (d : json) (key : string) (dflt : json) : outcome json :=
  match d with
  | JObj members => Returns (default dflt (members_get key members))
  | _ => Raises AttributeError
  end.

(** [address.get(key)] *)
Definition address_get (members : list (string * json)) (key : string) : json :=
  default JNull (members_get key members).

(** What [requests.get(...)] did: it raised, or it returned a response with
    a status code and a body that [response.json()] decodes or rejects. *)
Inductive http_result :=
  | TransportFailure
  | Response (status_code : Z) (body : option json).

(** The [try] block of [get_city_from_coordinates]. *)
Definition request_city (response : http_result) : outcome json :=
  match response with
  | TransportFailure => Raises RequestException
  | Response status_code body =>
      if (status_code =? 200)%Z then
        match body with
        | None => Raises JSONDecodeError
        | Some data =>
            match json_get data "address" (JObj []) with
            | Raises e => Raises e
            | Returns address =>
                match address with
                | JObj members =>
                    Returns (py_or (address_get members "city")
                            (py_or (address_get members "town")
                            (py_or (address_get members "village")
                            (py_or (address_get members "municipality")
                                   (address_get members "county")))))
                | _ => Raises AttributeError
                end
            end
        end
      else Returns JNull
  end.

(** [get_city_from_coordinates(lat, lon)]; [requests_get lat lon] is the
    exchange with the service for these coordinates.  [JNull] is [None]. *)
Definition get_city_from_coordinates (requests_get : Q → Q → http_result)
    (lat lon : Q) : outcome json :=
  match request_city (requests_get lat lon) with
  | Returns city => Returns city
  | Raises _ => Returns JNull        (* except Exception: return None *)
  end.

(** "The first present of the address fields city, town, village,
    municipality, county": the value of the first of these names that the
    address has. *)
Definition first_present (members : list (string * json)) : json :=
  match list_find (λ key, is_Some (members_get key members))
                  ["city"; "town"; "village"; "municipality"; "county"] with
  | Some (_, key) => address_get members key
  | None => JNull
  end.

(** The value of the first of city, town, village, municipality that the
    address has with a true (non-empty) value; without any, whatever stands
    under county. *)
Definition first_nonempty (members : list (string * json)) : json :=
  match list_find (λ key, json_truthy (address_get members key) = true)
                  ["city"; "town"; "village"; "municipality"] with
  | Some (_, key) => address_get members key
  | None => address_get members "county"
  end.

(** ** Keys of a dict *)

(** Python finds a key in a dict when it is the same object as a key of the
    dict, or equal to one.  A text or a number is found by its value.  A
    missing cell is a float NaN, which is equal to nothing, itself included:
    as a key it is found only where the very same object is a key.
    [KeyNaN obj] is the NaN object named [obj]. *)
Inductive dict_key :=
  | KeyValue (v : value)
  | KeyNaN (obj : nat).

#[global] Instance dict_key_eq_dec : EqDecision dict_key.
Proof. solve_decision. Defined.

(** The value that a key is. *)
Definition key_value (k : dict_key) : value :=
  match k with
  | KeyValue v => v
  | KeyNaN _ => VNaN
  end.

(** ** The checker *)

Section Checker.
Context {G : Type} `{Geometry G}.

(** [shapely.wkt.loads] on a string; [None] stands for the exception it
    raises on text that is not well-formed WKT. *)
Variable loads : string → option G.

Record zone := {
  z_index : nat;                     (* the row's label in [self.gdf] *)
  z_geometry : G;
  z_attrs : gmap string value
}.

Record GeoDataFrame := {
  gdf_columns : list string;
  gdf_rows : list zone
}.

Record RTEZoneChecker := {
  polygons_file : string;
  df : option DataFrame;
  gdf : option GeoDataFrame
}.

(** The loop of [load_data] over [enumerate(self.df['WKT'])]: the pairs
    [(idx, geom)] appended to [valid_indices] and [geometries]. *)
Fixpoint parse_wkt (idx : nat) (wkt_column : list value) : list (nat * G) :=
  match wkt_column with
  | [] => []
  | wkt_string :: rest =>
      if notna wkt_string then
        match wkt_string with
        | VStr s =>
            match loads s with
            | Some geom => (idx, geom) :: parse_wkt (S idx) rest
            | None => parse_wkt (S idx) rest        (* except Exception *)
            end
        | _ => parse_wkt (S idx) rest               (* loads rejects non-text *)
        end
      else parse_wkt (S idx) rest                   (* empty WKT *)
  end.

(** The text of a WKT cell that [load_data] turns into a geometry. *)
Definition parses (wkt : value) (geom : G) : Prop :=
  ∃ s, wkt = VStr s ∧ loads s = Some geom.

(** [gpd.GeoDataFrame(self.df.iloc[valid_indices].copy(), geometry=geometries)] *)
Definition make_gdf (table : DataFrame) (valid : list (nat * G)) : GeoDataFrame :=
  {| gdf_columns :=
       if decide ("geometry" ∈ df_columns table) then df_columns table
       else df_columns table ++ ["geometry"];
     gdf_rows :=
       omap (λ '(idx, geom),
               attrs ← df_rows table !! idx;
               Some {| z_index := idx; z_geometry := geom; z_attrs := attrs |})
            valid |}.

(** [RTEZoneChecker(polygons_file)], i.e. [__init__] followed by
    [load_data]; [table] is what [pd.read_excel] / [pd.read_csv] returns
    for the file. *)
Definition load_data (polygons_file : string) (table : DataFrame)
    : outcome RTEZoneChecker :=
  if endswith polygons_file ".xlsx" || endswith polygons_file ".csv" then
    if decide ("WKT" ∈ df_columns table) then
      let valid := parse_wkt 0 ((λ row, cell row "WKT") <$> df_rows table) in
      Returns {| polygons_file := polygons_file;
                 df := Some table;
                 gdf := Some (make_gdf table valid) |}
    else Raises (ValueError "В файле не найдена колонка 'WKT'")
  else Raises (ValueError "Поддерживаются только файлы .xlsx и .csv").

(** One entry of the list returned by [point_in_zones]: a dict with the
    key ['geometry'] and, under every other key, a cell value. *)
Record result := {
  res_geometry : G;
  res_fields : gmap string value
}.

Definition make_result (columns : list string) (row : zone) : result :=
  {| res_geometry := z_geometry row;
     res_fields :=
       foldl (λ fields col,
                if decide (col = "geometry") then fields
                else <[col := cell (z_attrs row) col]> fields)
             {[ "index" := VNum (Z.of_nat (z_index row)) ]}
             columns |}.

Definition point_in_zones (self : RTEZoneChecker) (lat lon : Q)
    : outcome (list result) :=
  match gdf self with
  | None => Raises (ValueError "Данные не загружены")
  | Some g =>
      let pt : point := (lon, lat) in
      let intersecting :=
        filter (λ row, contains (z_geometry row) pt = true) (gdf_rows g) in
      Returns (make_result (gdf_columns g) <$> intersecting)
  end.

Definition is_point_in_any_zone (self : RTEZoneChecker) (lat lon : Q)
    : outcome bool :=
  match point_in_zones self lat lon with
  | Returns results => Returns (0 <? length results)%nat
  | Raises e => Raises e
  end.

(** *** Restaurants delivering to a point *)

Record zone_entry := {
  ze_name : value;
  ze_internal_id : value;
  ze_index : value
}.

Record restaurant := {
  restaurant_id : value;
  partner : value;
  zones : list zone_entry
}.

(** [zone.get(key, default)] on an entry of [point_in_zones]. *)
Definition zone_get (zone : result) (key : string) (dflt : value) : value :=
  default dflt (res_fields zone !! key).

(** [zone.get('ID реста', 'unknown')], as a key of the dict [restaurants];
    [obj] names the object that the entry holds when the identifier is
    missing. *)
Definition restaurant_key (obj : nat) (zone : result) : dict_key :=
  match zone_get zone "ID реста" (VStr "unknown") with
  | VNaN => KeyNaN obj
  | v => KeyValue v
  end.

Definition entry_of (zone : result) : zone_entry :=
  {| ze_name := zone_get zone "name" (VStr "Неизвестная зона");
     ze_internal_id := zone_get zone "ID внутренний" (VStr "");
     ze_index := cell (res_fields zone) "index" |}.

(** [restaurants[k]['zones'].append(e)] on the dict [restaurants], kept as
    the list of its items in insertion order. *)
Definition append_zone (k : dict_key) (e : zone_entry)
    (restaurants : list (dict_key * restaurant)) : list (dict_key * restaurant) :=
  (λ item, if decide (item.1 = k)
           then (item.1, {| restaurant_id := restaurant_id item.2;
                            partner := partner item.2;
                            zones := zones item.2 ++ [e] |})
           else item) <$> restaurants.

(** One turn of the loop [for zone in zones] of [get_restaurants_for_point].
    A zone comes with the name of the object that stands for its identifier
    when that is missing.  The subscript [zone['index']] raises [KeyError]
    on an entry without that key. *)
Definition add_zone (restaurants : list (dict_key * restaurant))
    (zone : nat * result) : outcome (list (dict_key * restaurant)) :=
  let restaurant_id := restaurant_key zone.1 zone.2 in
  let partner := zone_get zone.2 "Партнер" (VStr "Неизвестно") in
  let restaurants :=
    if decide (restaurant_id ∈ restaurants.*1) then restaurants
    else restaurants ++ [(restaurant_id,
                          {| restaurant_id := key_value restaurant_id;
                             partner := partner;
                             zones := [] |})] in
  match res_fields zone.2 !! "index" with
  | Some _ => Returns (append_zone restaurant_id (entry_of zone.2) restaurants)
  | None => Raises KeyError
  end.

(** The loop, from the dict [restaurants] on. *)
Fixpoint group_loop (restaurants : list (dict_key * restaurant))
    (zones : list (nat * result)) : outcome (list (dict_key * restaurant)) :=
  match zones with
  | [] => Returns restaurants
  | zone :: rest =>
      match add_zone restaurants zone with
      | Returns restaurants => group_loop restaurants rest
      | Raises e => Raises e
      end
  end.

(** The grouping of [get_restaurants_for_point], from [restaurants = {}] to
    [list(restaurants.values())]. *)
Definition group_zones (zones : list (nat * result)) : outcome (list restaurant) :=
  match group_loop [] zones with
  | Returns restaurants => Returns restaurants.*2
  | Raises e => Raises e
  end.

(** The float object that stands for a missing identifier in the [i]-th
    entry that [point_in_zones] returns.  [iterrows] puts every cell of a
    column of numbers into a float object of its own, so that no two entries
    share one.  Whether the rows of a column with text in it share the
    object of their missing cells is for pandas to decide: [nan_object]. *)
Variable nan_object : nat → nat.

Definition identifier_object (self : RTEZoneChecker) (i : nat) : nat :=
  match df self with
  | Some table => if numeric_column table "ID реста" then i else nan_object i
  | None => nan_object i
  end.

Definition get_restaurants_for_point (self : RTEZoneChecker) (lat lon : Q)
    : outcome (list restaurant) :=
  match point_in_zones self lat lon with
  | Returns zones =>
      group_zones (imap (λ i zone, (identifier_object self i, zone)) zones)
  | Raises e => Raises e
  end.

(** *** Grouping, in words *)

(** The partner of a zone, and its entry {zone_name, internal_id, zone_id}.
    The specification leaves open what stands for a partner, a name or an
    internal id that a zone lacks: the texts are those of the code. *)
Definition partner_of (zone : result) : value :=
  default (VStr "Неизвестно") (res_fields zone !! "Партнер").

Definition entry_spec (zone : result) : zone_entry :=
  {| ze_name := default (VStr "Неизвестная зона") (res_fields zone !! "name");
     ze_internal_id := default (VStr "") (res_fields zone !! "ID внутренний");
     ze_index := default VNaN (res_fields zone !! "index") |}.

(** One group for every key, in the order in which the keys are first seen;
    the partner of a group is that of the first zone with the key; its zone
    list has one entry for every zone with the key, in input order.  [key]
    gives the key of a zone, [shown] the identifier that a group shows for
    its key, [dict] the entry of the zone. *)
Definition group_of {A K} `{EqDecision K} (key : A → K) (shown : K → value)
    (dict : A → result) (zones : list A) (k : K) : restaurant :=
  let members := filter (λ zone, key zone = k) zones in
  {| restaurant_id := shown k;
     partner := from_option (λ zone, partner_of (dict zone)) VNaN (head members);
     zones := (λ zone, entry_spec (dict zone)) <$> members |}.

Definition grouped {A K} `{EqDecision K} (key : A → K) (shown : K → value)
    (dict : A → result) (zones : list A) : list restaurant :=
  group_of key shown dict zones <$> distinct (key <$> zones).

(** The key of a zone in the words of the specification: its restaurant
    identifier, and the fixed text "unknown" when the identifier is absent,
    that is, when the zone has no such attribute or the attribute has no
    value. *)
Definition identifier_or_unknown (zone : result) : value :=
  match res_fields zone !! "ID реста" with
  | Some (VStr s) => VStr s
  | Some (VNum z) => VNum z
  | Some VNaN => VStr "unknown"
  | None => VStr "unknown"
  end.

Definition groupByRestaurant_spec (zones : list result) : list restaurant :=
  grouped identifier_or_unknown (λ identifier, identifier) (λ zone, zone) zones.

(** The key of a zone as the dict has it: "unknown" stands in only where
    the entry has no identifier at all; an identifier without a value is a
    key by itself, a NaN that is found by the object it is. *)
Definition identifier_key (zone : nat * result) : dict_key :=
  match res_fields zone.2 !! "ID реста" with
  | Some VNaN => KeyNaN zone.1
  | Some v => KeyValue v
  | None => KeyValue (VStr "unknown")
  end.

Definition groups_by_key (zones : list (nat * result)) : list restaurant :=
  grouped identifier_key key_value snd zones.

(** *** Saving *)

(** [save_df.at[idx, col] = v]; the column is created when it is new. *)
Definition set_cell (save_df : DataFrame) (idx : nat) (col : string) (v : value)
    : DataFrame :=
  {| df_columns :=
       if decide (col ∈ df_columns save_df) then df_columns save_df
       else df_columns save_df ++ [col];
     df_rows := alter (<[col := v]>) idx (df_rows save_df) |}.

(** The body of [for col in self.gdf.columns] in [save_data]. *)
Definition overlay_column (g : GeoDataFrame) (save_df : DataFrame) (col : string)
    : DataFrame :=
  if decide (col ∈ df_columns save_df) then save_df
  else if decide (col = "geometry") then save_df
  else
    foldl (λ sdf idx,
             match list_find (λ row, z_index row = idx) (gdf_rows g) with
             | Some (_, row) => set_cell sdf idx col (cell (z_attrs row) col)
             | None => sdf
             end)
          save_df (seq 0 (length (df_rows save_df))).

(** [save_data(filename)]: the table handed to [to_excel] / [to_csv]. *)
Definition save_data (self : RTEZoneChecker) (filename : string)
    : outcome DataFrame :=
  match gdf self with
  | None => Raises (ValueError "Нет данных для сохранения")
  | Some g =>
      match df self with
      | None => Raises AttributeError
      | Some table =>
          let save_df := foldl (overlay_column g) table (gdf_columns g) in
          if endswith filename ".xlsx" || endswith filename ".csv"
          then Returns save_df
          else Raises (ValueError "Поддерживаются только форматы .xlsx и .csv")
      end
  end.

(** *** City enrichment *)

(** What an enrichment pass does to the outside world, in order. *)
Inductive event :=
  | EvLookup (idx : nat) (city : option string)   (* get_city_from_geometry *)
  | EvSave (filename : string) (table : DataFrame). (* save_data wrote a file *)

(** A lookup was attempted; a lookup returned a city. *)
Definition attempted (e : event) : bool :=
  match e with EvLookup _ _ => true | EvSave _ _ => false end.

Definition succeeded (e : event) : bool :=
  match e with EvLookup _ (Some _) => true | _ => false end.

Definition saved_to (filename : string) (e : event) : Prop :=
  match e with EvSave f _ => f = filename | EvLookup _ _ => True end.

(** "A checkpoint is triggered exactly after every N counted records": in
    [events], a save follows a lookup if and only if the lookup counts and
    brings the count (which starts from [k]) to a multiple of [N], and no
    save stands anywhere else. *)
Fixpoint checkpoints_after (counts : event → bool) (N : Z) (k : nat)
    (events : list event) : bool :=
  match events with
  | [] => true
  | EvSave _ _ :: _ => false
  | (EvLookup _ _ as e) :: rest =>
      let k' := if counts e then S k else k in
      let due := counts e && (Z.of_nat k' mod N =? 0)%Z in
      match rest with
      | EvSave _ _ :: rest' => due && checkpoints_after counts N k' rest'
      | _ => negb due && checkpoints_after counts N k' rest
      end
  end.

(** An event without the data it carries. *)
Inductive step := Looked (city : option string) | Saved.

Definition step_of (e : event) : step :=
  match e with EvLookup _ city => Looked city | EvSave _ _ => Saved end.

(** [geometry.centroid]; [None] stands for an exception. *)
Variable centroid : G → option point.

(** [requests_get n] is the exchange with the geocoding service during the
    n-th call (n = 0, 1, ...) of [get_city_from_geometry] of a pass. *)
Variable requests_get : nat → Q → Q → http_result.

(** [get_city_from_geometry(geometry)], at its declared type
    [Optional[str]]: the city is text, and anything else counts as none.
    A service that puts a number, a list or an object where the city should
    be is outside this model (the code would store that value): see
    [answers_text]. *)
Definition get_city_from_geometry (n : nat) (geometry : G) : option string :=
  match centroid geometry with
  | None => None                       (* except Exception: return None *)
  | Some c =>
      match get_city_from_coordinates (requests_get n) c.2 c.1 with
      | Returns (JStr city) => Some city
      | _ => None
      end
  end.

(** The service answers with a text or not at all: whatever the exchange,
    the city made of it is a string or [None], never a number, a list or
    an object. *)
Definition answers_text : Prop :=
  ∀ n lat lon,
    get_city_from_coordinates (requests_get n) lat lon = Returns JNull
    ∨ ∃ city, get_city_from_coordinates (requests_get n) lat lon
              = Returns (JStr city).

(** [pd.isna(row['city']) or row['city'] == ''] *)
Definition pending (row : zone) : bool :=
  match cell (z_attrs row) "city" with
  | VNaN => true
  | VStr "" => true
  | _ => false
  end.

(** [self.gdf.at[idx, 'city'] = city] *)
Definition set_city (row : zone) (city : option string) : zone :=
  {| z_index := z_index row;
     z_geometry := z_geometry row;
     z_attrs := <["city" := from_option VStr VNaN city]> (z_attrs row) |}.

(** The city column of [self.gdf] is a column of numbers: it was read from
    the file, where none of its cells is a text, so that pandas made it a
    column of floats.  A column that a pass has created, and a column read
    with a text in it, are columns of objects. *)
Definition numeric_city (self : RTEZoneChecker) : bool :=
  match gdf self, df self with
  | Some g, Some table =>
      bool_decide ("city" ∈ gdf_columns g) && numeric_column table "city"
  | _, _ => false
  end.

(** The write [self.gdf.at[idx, 'city'] = city] is refused: pandas does not
    put a text into a column of floats, it raises [TypeError] (pandas 3;
    earlier versions warned and made the column one of objects).  [None] is
    written as NaN. *)
Definition refused (self : RTEZoneChecker) (city : option string) : bool :=
  match city with
  | Some _ => numeric_city self
  | None => false
  end.

(** [if 'city' not in self.gdf.columns: self.gdf['city'] = None] *)
Definition ensure_city (g : GeoDataFrame) : GeoDataFrame :=
  if decide ("city" ∈ gdf_columns g) then g
  else {| gdf_columns := gdf_columns g ++ ["city"];
          gdf_rows := (λ row, set_city row None) <$> gdf_rows g |}.

Definition with_rows (self : RTEZoneChecker) (columns : list string)
    (rows : list zone) : RTEZoneChecker :=
  {| polygons_file := polygons_file self;
     df := df self;
     gdf := Some {| gdf_columns := columns; gdf_rows := rows |} |}.

(** The loop [for idx, row in self.gdf.iterrows()] of [add_city_column].
    [self] is the checker as the call found it, [done] are the rows already
    visited (as they now stand in [self.gdf]), [todo] those still to visit.
    Returns the rows of [self.gdf] when the loop ends or is left by an
    exception, the events in order, and the exception, if any. *)
Fixpoint add_city_loop (self : RTEZoneChecker) (columns : list string)
    (save_file : option string) (batch_size : Z)
    (done todo : list zone) (processed : nat)
    : list zone * list event * option error :=
  match todo with
  | [] => (done, [], None)
  | row :: rest =>
      if pending row then
        let city := get_city_from_geometry processed (z_geometry row) in
        let looked := EvLookup (z_index row) city in
        if refused self city then (done ++ row :: rest, [looked], Some TypeError)
        else
        let row' := set_city row city in
        let processed := S processed in
        if (batch_size =? 0)%Z then
          (done ++ row' :: rest, [looked], Some ZeroDivisionError)
        else if (Z.of_nat processed mod batch_size =? 0)%Z && truthy save_file then
          let filename := default "" save_file in
          match save_data (with_rows self columns (done ++ row' :: rest)) filename with
          | Raises e => (done ++ row' :: rest, [looked], Some e)
          | Returns table =>
              let '(rows, events, exn) :=
                add_city_loop self columns save_file batch_size
                              (done ++ [row']) rest processed in
              (rows, looked :: EvSave filename table :: events, exn)
          end
        else
          let '(rows, events, exn) :=
            add_city_loop self columns save_file batch_size
                          (done ++ [row']) rest processed in
          (rows, looked :: events, exn)
      else
        add_city_loop self columns save_file batch_size
                      (done ++ [row]) rest processed
  end.

(** [add_city_column(save_file, batch_size)]: the checker afterwards, the
    events in order, and the exception that ended the call, if any. *)
Definition add_city_column (self : RTEZoneChecker)
    (save_file : option string) (batch_size : Z)
    : RTEZoneChecker * list event * option error :=
  match gdf self with
  | None => (self, [], Some (ValueError "Данные не загружены"))
  | Some g =>
      let g := ensure_city g in
      let '(rows, events, exn) :=
        add_city_loop self (gdf_columns g) save_file batch_size
                      [] (gdf_rows g) 0 in
      let self := with_rows self (gdf_columns g) rows in
      match exn with
      | Some e => (self, events, Some e)
      | None =>
          if truthy save_file then
            let filename := default "" save_file in
            match save_data self filename with
            | Raises e => (self, events, Some e)
            | Returns table => (self, events ++ [EvSave filename table], None)
            end
          else (self, events, None)
      end
  end.

(** The rows after a pass that meets no exception, and the lookups it
    makes: a pending row gets the answer of the next call, any other row is
    left as it is. *)
Fixpoint enriched (n : nat) (rows : list zone) : list zone :=
  match rows with
  | [] => []
  | row :: rest =>
      if pending row
      then set_city row (get_city_from_geometry n (z_geometry row))
             :: enriched (S n) rest
      else row :: enriched n rest
  end.

Fixpoint lookups (n : nat) (rows : list zone) : list event :=
  match rows with
  | [] => []
  | row :: rest =>
      if pending row
      then EvLookup (z_index row) (get_city_from_geometry n (z_geometry row))
             :: lookups (S n) rest
      else lookups n rest
  end.

(** The record has a city: the column exists and the cell is filled. *)
Definition has_city (g : GeoDataFrame) (row : zone) : Prop :=
  "city" ∈ gdf_columns g ∧ pending row = false.

(** *** Statistics *)

(** [self.gdf[col]] *)
Definition column (g : GeoDataFrame) (col : string) : list value :=
  (λ row, cell (z_attrs row) col) <$> gdf_rows g.

Record stats := {
  total_zones : nat;
  partners : nat;
  restaurants : nat;
  partner_distribution : option (list (value * nat));
  cities : option nat;
  city_distribution : option (list (value * nat))
}.

(** [get_stats()]; [None] is the empty dict returned when nothing is loaded,
    a field [None] a key the dict does not have. *)
Definition get_stats (self : RTEZoneChecker) : option stats :=
  match gdf self with
  | None => None
  | Some g =>
      let has col := bool_decide (col ∈ gdf_columns g) in
      Some {| total_zones := length (gdf_rows g);
              partners :=
                if has "Партнер" then nunique (column g "Партнер") else 0%nat;
              restaurants :=
                if has "ID реста" then nunique (column g "ID реста") else 0%nat;
              partner_distribution :=
                if has "Партнер" then Some (value_counts (column g "Партнер"))
                else None;
              cities :=
                if has "city" then Some (nunique (column g "city")) else None;
              city_distribution :=
                if has "city" then Some (take 10 (value_counts (column g "city")))
                else None |}
  end.

(** *** Module-level functions *)

(** [check_point_simple(lat, lon, polygons_file)]: a checker is built from
    the file, then asked. *)
Definition check_point_simple (lat lon : Q) (polygons_file : string)
    (table : DataFrame) : outcome bool :=
  match load_data polygons_file table with
  | Returns checker => is_point_in_any_zone checker lat lon
  | Raises e => Raises e
  end.

(** [get_delivery_restaurants(lat, lon, polygons_file)] *)
Definition get_delivery_restaurants (lat lon : Q) (polygons_file : string)
    (table : DataFrame) : outcome (list restaurant) :=
  match load_data polygons_file table with
  | Returns checker => get_restaurants_for_point checker lat lon
  | Raises e => Raises e
  end.

(** *** Notions used to state what the methods keep *)

(** A record before and after a pass over the cities: nothing but its city
    may differ. *)
Definition same_but_city (old new : zone) : Prop :=
  z_index new = z_index old
  ∧ z_geometry new = z_geometry old
  ∧ ∀ key, key ≠ "city" → z_attrs new !! key = z_attrs old !! key.

(** The indices of the records looked up, in order. *)
Definition looked_up (events : list event) : list nat :=
  omap (λ e, match e with EvLookup idx _ => Some idx | EvSave _ _ => None end)
       events.

(** Row [i] of the table once [save_data] has brought over a column [col]:
    the cell of the store's record with index [i], if there is one. *)
Definition overlay_row (g : GeoDataFrame) (col : string) (i : nat)
    (row : gmap string value) : gmap string value :=
  match list_find (λ record, z_index record = i) (gdf_rows g) with
  | Some (_, record) => <[col := cell (z_attrs record) col]> row
  | None => row
  end.

(** The cell that [save_data] leaves in row [i] under a column [col] it
    adds: that of the store's record with index [i], if there is one. *)
Definition overlaid (g : GeoDataFrame) (col : string) (i : nat)
    (row : gmap string value) : option value :=
  match list_find (λ record, z_index record = i) (gdf_rows g) with
  | Some (_, record) => Some (cell (z_attrs record) col)
  | None => row !! col
  end.

End Checker.

(** An address whose city is empty and whose town is not. *)
Definition springfield : http_result :=
  Response 200 (Some (JObj [("address", JObj [("city", JStr "");
                                              ("town", JStr "Springfield")])])).

(** ** Polygons

    [contains] on a polygon and a point is true when the point lies in the
    interior of the polygon; a point of a ring (shell or hole) is on the
    boundary.  Coordinates are exact rationals. *)

Definition ring := list point.

Record Polygon := {
  shell : ring;
  holes : list ring
}.

Definition Qlt_bool (a b : Q) : bool := negb (Qle_bool b a).

Definition between (a b x : Q) : bool :=
  (Qle_bool a x && Qle_bool x b) || (Qle_bool b x && Qle_bool x a).

(** [p] lies on the closed segment from [a] to [b]. *)
Definition on_segment (p a b : point) : bool :=
  Qeq_bool ((b.1 - a.1) * (p.2 - a.2) - (b.2 - a.2) * (p.1 - a.1))%Q 0
  && between a.1 b.1 p.1 && between a.2 b.2 p.2.

(** The ray from [p] towards increasing x crosses the segment from [a] to [b]. *)
Definition crosses (p a b : point) : bool :=
  xorb (Qlt_bool p.2 a.2) (Qlt_bool p.2 b.2)
  && Qlt_bool p.1 (a.1 + (p.2 - a.2) * (b.1 - a.1) / (b.2 - a.2))%Q.

Definition segments (r : ring) : list (point * point) := zip r (tail r).

Definition on_ring (p : point) (r : ring) : bool :=
  existsb (λ s, on_segment p s.1 s.2) (segments r).

Inductive location := Interior | Boundary | Exterior.

Definition locate_in_ring (p : point) (r : ring) : location :=
  if on_ring p r then Boundary
  else if Nat.odd (length (filter (λ s, crosses p s.1 s.2 = true) (segments r)))
       then Interior
       else Exterior.

Definition in_hole (p : point) (r : ring) : bool :=
  match locate_in_ring p r with Interior => true | _ => false end.

Definition locate (poly : Polygon) (p : point) : location :=
  match locate_in_ring p (shell poly) with
  | Interior =>
      if existsb (on_ring p) (holes poly) then Boundary
      else if existsb (in_hole p) (holes poly) then Exterior
      else Interior
  | loc => loc
  end.

#[global] Instance polygon_geometry : Geometry Polygon := {|
  contains poly p := match locate poly p with Interior => true | _ => false end
|}.

(** [p] lies on an edge of the polygon. *)
Definition on_edge (poly : Polygon) (p : point) : bool :=
  on_ring p (shell poly) || existsb (on_ring p) (holes poly).

(** ** Sample data *)

(** POLYGON((0 0,0 2,2 2,2 0,0 0)) *)
Definition square : Polygon :=
  {| shell := [(0, 0); (0, 2); (2, 2); (2, 0); (0, 0)]%Q; holes := [] |}.

(** A WKT reader that knows one text. *)
Definition sample_loads (s : string) : option Polygon :=
  if String.eqb s "POLYGON((0 0,0 2,2 2,2 0,0 0))" then Some square else None.

Definition sample_row (wkt partner : value) (id : Z) : gmap string value :=
  {[ "WKT" := wkt; "partner" := partner; "id" := VNum id ]}.

Definition square_wkt : value := VStr "POLYGON((0 0,0 2,2 2,2 0,0 0))".

(** The two rows of the example: a square, and a row without WKT. *)
Definition sample_table : DataFrame :=
  {| df_columns := ["WKT"; "partner"; "id"];
     df_rows := [ sample_row square_wkt (VStr "A") 1;
                  sample_row VNaN (VStr "B") 2 ] |}.

Definition sample_gdf : GeoDataFrame :=
  {| gdf_columns := ["WKT"; "partner"; "id"; "geometry"];
     gdf_rows := [ {| z_index := 0;
                      z_geometry := square;
                      z_attrs := sample_row square_wkt (VStr "A") 1 |} ] |}.

Definition sample_checker : RTEZoneChecker :=
  {| polygons_file := "polygons.csv";
     df := Some sample_table;
     gdf := Some sample_gdf |}.

(** Three zones waiting for a city, and a service that answers the first
    call and the third. *)
Definition waiting_gdf : GeoDataFrame :=
  {| gdf_columns := ["WKT"; "partner"; "id"; "geometry"];
     gdf_rows := (λ i, {| z_index := i; z_geometry := square;
                          z_attrs := sample_row square_wkt (VStr "A") 1 |})
                 <$> [0; 1; 2]%nat |}.

Definition waiting_checker : RTEZoneChecker :=
  {| polygons_file := "polygons.csv";
     df := Some {| df_columns := ["WKT"; "partner"; "id"];
                   df_rows := replicate 3 (sample_row square_wkt (VStr "A") 1) |};
     gdf := Some waiting_gdf |}.

Definition sample_centroid (geometry : Polygon) : option point := Some (1, 1)%Q.

Definition sample_service (n : nat) (lat lon : Q) : http_result :=
  match n with
  | 0%nat => Response 200 (Some (JObj [("address", JObj [("city", JStr "Moscow")])]))
  | 1%nat => Response 500 None
  | _ => Response 200 (Some (JObj [("address", JObj [("town", JStr "Tver")])]))
  end.

(** The same zones after a pass in which every lookup found a city. *)
Definition filled_gdf : GeoDataFrame :=
  {| gdf_columns := ["WKT"; "partner"; "id"; "geometry"; "city"];
     gdf_rows := (λ i, {| z_index := i; z_geometry := square;
                          z_attrs := <["city" := VStr "Moscow"]>
                                       (sample_row square_wkt (VStr "A") 1) |})
                 <$> [0; 1; 2]%nat |}.

Definition filled_checker : RTEZoneChecker :=
  {| polygons_file := "polygons.csv";
     df := df waiting_checker;
     gdf := Some filled_gdf |}.

(** Entries of two zones of restaurant 7 and, between them, one of
    restaurant 8. *)
Definition sample_zone (index restaurant : Z) (name : string) : @result Polygon :=
  {| res_geometry := square;
     res_fields := {[ "index" := VNum index; "ID реста" := VNum restaurant;
                      "Партнер" := VStr "A"; "name" := VStr name ]} |}.

Definition sample_zones : list (nat * @result Polygon) :=
  [ (0%nat, sample_zone 0 7 "north"); (1%nat, sample_zone 1 8 "east");
    (2%nat, sample_zone 2 7 "south") ].

(** Entries of two zones whose restaurant identifier is missing, each with
    a NaN object of its own, and the same entries sharing one object. *)
Definition orphan_zone (index : Z) (name : string) : @result Polygon :=
  {| res_geometry := square;
     res_fields := {[ "index" := VNum index; "ID реста" := VNaN;
                      "Партнер" := VStr "A"; "name" := VStr name ]} |}.

Definition orphan_zones : list (nat * @result Polygon) :=
  [ (0%nat, orphan_zone 0 "north"); (1%nat, orphan_zone 1 "south") ].

Definition orphan_zones_shared : list (nat * @result Polygon) :=
  [ (0%nat, orphan_zone 0 "north"); (0%nat, orphan_zone 1 "south") ].

(** Twelve zones in twelve cities. *)
Definition twelve_gdf : GeoDataFrame :=
  {| gdf_columns := ["WKT"; "geometry"; "city"];
     gdf_rows := (λ i, {| z_index := i; z_geometry := square;
                          z_attrs := {[ "WKT" := square_wkt;
                                        "city" := VNum (Z.of_nat i) ]} |})
                 <$> seq 0 12 |}.

Definition twelve_cities : RTEZoneChecker :=
  {| polygons_file := "polygons.csv";
     df := Some {| df_columns := ["WKT"];
                   df_rows := replicate 12 {[ "WKT" := square_wkt ]} |};
     gdf := Some twelve_gdf |}.

(** A file whose only row has no WKT, and the store it loads to. *)
Definition blank_table : DataFrame :=
  {| df_columns := ["WKT"; "partner"; "id"];
     df_rows := [ sample_row VNaN (VStr "B") 2 ] |}.

Definition blank_checker : RTEZoneChecker (G := Polygon) :=
  {| polygons_file := "polygons.csv";
     df := Some blank_table;
     gdf := Some {| gdf_columns := ["WKT"; "partner"; "id"; "geometry"];
                    gdf_rows := [] |} |}.

(** The table behind the three waiting zones, one of the zones, and a
    service for a second pass. *)
Definition waiting_table : DataFrame :=
  {| df_columns := ["WKT"; "partner"; "id"];
     df_rows := replicate 3 (sample_row square_wkt (VStr "A") 1) |}.

Definition waiting_row (i : nat) : @zone Polygon :=
  {| z_index := i; z_geometry := square;
     z_attrs := sample_row square_wkt (VStr "A") 1 |}.

Definition sample_service_again (n : nat) (lat lon : Q) : http_result :=
  Response 200 (Some (JObj [("address", JObj [("county", JStr "Klin")])])).

(** Three zones of two partners. *)
Definition partners_gdf : @GeoDataFrame Polygon :=
  {| gdf_columns := ["WKT"; "Партнер"; "geometry"];
     gdf_rows := (λ '(i, p), {| z_index := i; z_geometry := square;
                                z_attrs := {[ "WKT" := square_wkt;
                                              "Партнер" := VStr p ]} |})
                 <$> [(0%nat, "B"); (1%nat, "A"); (2%nat, "A")] |}.

Definition partners_checker : RTEZoneChecker :=
  {| polygons_file := "polygons.csv"; df := None; gdf := Some partners_gdf |}.

(** The events of a pass over the three waiting zones with batch size 2,
    and the table of its first save. *)
Definition waiting_events : list event :=
  (add_city_column sample_centroid sample_service waiting_checker
                   (Some "out.csv") 2).1.2.

Definition first_checkpoint : DataFrame :=
  match waiting_events with
  | _ :: _ :: EvSave _ table :: _ => table
  | _ => waiting_table
  end.

(** A file whose city column is empty, and the store it loads to. *)
Definition empty_city_table : DataFrame :=
  {| df_columns := ["WKT"; "city"];
     df_rows := replicate 2 {[ "WKT" := square_wkt; "city" := VNaN ]} |}.

Definition empty_city_gdf : @GeoDataFrame Polygon :=
  {| gdf_columns := ["WKT"; "city"; "geometry"];
     gdf_rows := (λ i, {| z_index := i; z_geometry := square;
                          z_attrs := {[ "WKT" := square_wkt; "city" := VNaN ]} |})
                 <$> [0; 1]%nat |}.

Definition empty_city_checker : RTEZoneChecker :=
  {| polygons_file := "polygons.csv";
     df := Some empty_city_table;
     gdf := Some empty_city_gdf |}.

(** A file with restaurant numbers, two of them missing, and its store. *)
Definition numbered_row (id : value) : gmap string value :=
  {[ "WKT" := square_wkt; "ID реста" := id; "Партнер" := VStr "A" ]}.

Definition numbered_table : DataFrame :=
  {| df_columns := ["WKT"; "ID реста"; "Партнер"];
     df_rows := numbered_row <$> [VNaN; VNum 7; VNaN] |}.

Definition numbered_gdf : @GeoDataFrame Polygon :=
  {| gdf_columns := ["WKT"; "ID реста"; "Партнер"; "geometry"];
     gdf_rows := imap (λ i id, {| z_index := i; z_geometry := square;
                                  z_attrs := numbered_row id |})
                      [VNaN; VNum 7; VNaN] |}.

Definition numbered_checker : RTEZoneChecker :=
  {| polygons_file := "polygons.csv";
     df := Some numbered_table;
     gdf := Some numbered_gdf |}.

(** * Properties *)

(** ** Loading *)

Section LoadFacts.
Context {G : Type} `{Geometry G}.
Variable loads : string → option G.

Lemma parse_wkt_elem wkt_column : ∀ idx i geom,
  (i, geom) ∈ parse_wkt loads idx wkt_column ↔
  ∃ k wkt, i = (idx + k)%nat ∧ wkt_column !! k = Some wkt ∧ parses loads wkt geom.
Proof.
  induction wkt_column as [|w rest IH]; intros idx i geom; simpl.
  - split; [by intros ?%elem_of_nil | by intros (k & wkt & _ & ? & _)].
  - assert (Hrest : (i, geom) ∈ parse_wkt loads (S idx) rest ↔
                    ∃ k wkt, i = (idx + S k)%nat ∧ rest !! k = Some wkt
                             ∧ parses loads wkt geom).
    { rewrite IH. split; intros (k & wkt & -> & ? & ?); exists k, wkt;
        (split; [lia | done]). }
    assert (Hskip : (∀ g, ¬ parses loads w g) →
              ((i, geom) ∈ parse_wkt loads (S idx) rest ↔
               ∃ k wkt, i = (idx + k)%nat ∧ (w :: rest) !! k = Some wkt
                        ∧ parses loads wkt geom)).
    { intros Hno. rewrite Hrest. split.
      - intros (k & wkt & -> & ? & ?). by exists (S k), wkt.
      - intros ([|k] & wkt & -> & Hk & Hp); simpl in Hk.
        + injection Hk as ->. by destruct (Hno geom).
        + by exists k, wkt. }
    destruct w as [|s|z]; simpl.
    + apply Hskip. intros g (s & ? & _). done.
    + destruct (loads s) as [g0|] eqn:Hs.
      * rewrite elem_of_cons, Hrest. split.
        -- intros [Heq | (k & wkt & -> & ? & ?)].
           ++ injection Heq as -> ->. exists 0%nat, (VStr s).
              split; [lia | split; [done | by exists s]].
           ++ by exists (S k), wkt.
        -- intros ([|k] & wkt & -> & Hk & Hp); simpl in Hk.
           ++ injection Hk as <-. destruct Hp as (s' & [= <-] & Hs').
              left. f_equal; [lia | congruence].
           ++ right. by exists k, wkt.
      * apply Hskip. intros g (s' & [= <-] & ?). congruence.
    + apply Hskip. intros g (s & ? & _). done.
Qed.

Lemma parse_wkt_ascending wkt_column : ∀ idx,
  StronglySorted lt (parse_wkt loads idx wkt_column).*1.
Proof.
  induction wkt_column as [|w rest IH]; intros idx; simpl; [constructor|].
  destruct (notna w); [|apply IH].
  destruct w as [|s|z]; try apply IH.
  destruct (loads s) as [g0|]; [|apply IH].
  simpl. constructor; [apply IH|].
  apply Forall_forall. intros i Hi.
  apply list_elem_of_fmap in Hi as ([i' g'] & -> & Hi).
  apply parse_wkt_elem in Hi as (k & _ & -> & _). simpl. lia.
Qed.

Lemma make_gdf_rows table (valid : list (nat * G)) :
  (∀ i g, (i, g) ∈ valid → is_Some (df_rows table !! i)) →
  z_index <$> gdf_rows (make_gdf table valid) = valid.*1.
Proof.
  induction valid as [|[i g] valid IH]; intros Hin; simpl; [done|].
  destruct (Hin i g) as [attrs Hattrs]; [left|].
  rewrite Hattrs. simpl. f_equal. apply IH.
  intros i' g' ?. apply (Hin i' g'). by right.
Qed.

Lemma make_gdf_elem table (valid : list (nat * G)) z :
  z ∈ gdf_rows (make_gdf table valid) ↔
  (z_index z, z_geometry z) ∈ valid ∧ df_rows table !! z_index z = Some (z_attrs z).
Proof.
  unfold make_gdf; simpl. rewrite list_elem_of_omap. split.
  - intros ([i g] & Hin & Hz). destruct (df_rows table !! i) eqn:Hi; [|done].
    simpl in Hz. injection Hz as <-. simpl. done.
  - intros [Hin Hattrs]. exists (z_index z, z_geometry z). split; [done|].
    rewrite Hattrs. simpl. by destruct z.
Qed.

Lemma load_data_returns polygons_file table :
  endswith polygons_file ".xlsx" || endswith polygons_file ".csv" = true →
  "WKT" ∈ df_columns table →
  load_data loads polygons_file table =
    Returns {| polygons_file := polygons_file;
               df := Some table;
               gdf := Some (make_gdf table
                 (parse_wkt loads 0 ((λ row, cell row "WKT") <$> df_rows table))) |}.
Proof.
  intros Hext Hcol. unfold load_data. rewrite Hext.
  destruct (decide _); [done | contradiction].
Qed.

Lemma load_data_inv polygons_file table self :
  load_data loads polygons_file table = Returns self →
  endswith polygons_file ".xlsx" || endswith polygons_file ".csv" = true
  ∧ "WKT" ∈ df_columns table.
Proof.
  unfold load_data. destruct (_ || _); [|done].
  destruct (decide _); [done | done].
Qed.

(** The zones of a store built by [load_data]. *)
Lemma loaded_rows_elem polygons_file table self g z :
  load_data loads polygons_file table = Returns self →
  gdf self = Some g →
  z ∈ gdf_rows g ↔
  df_rows table !! z_index z = Some (z_attrs z)
  ∧ parses loads (cell (z_attrs z) "WKT") (z_geometry z).
Proof.
  intros Hload Hg.
  destruct (load_data_inv _ _ _ Hload) as [Hext Hcol].
  rewrite (load_data_returns _ _ Hext Hcol) in Hload.
  injection Hload as <-. simpl in Hg. injection Hg as <-.
  rewrite make_gdf_elem, parse_wkt_elem. split.
  - intros [(k & wkt & Hk & Hwkt & Hp) Hattrs]. simpl in Hk. subst k.
    split; [done|]. rewrite list_lookup_fmap, Hattrs in Hwkt.
    simpl in Hwkt. by injection Hwkt as <-.
  - intros [Hattrs Hp]. split; [|done].
    exists (z_index z), (cell (z_attrs z) "WKT"). split; [done|].
    split; [|done]. by rewrite list_lookup_fmap, Hattrs.
Qed.

Lemma loaded_rows_ascending polygons_file table self g :
  load_data loads polygons_file table = Returns self →
  gdf self = Some g →
  StronglySorted lt (z_index <$> gdf_rows g).
Proof.
  intros Hload Hg.
  destruct (load_data_inv _ _ _ Hload) as [Hext Hcol].
  rewrite (load_data_returns _ _ Hext Hcol) in Hload.
  injection Hload as <-. simpl in Hg. injection Hg as <-.
  rewrite make_gdf_rows; [apply parse_wkt_ascending|].
  intros i geom (k & wkt & -> & Hk & _)%parse_wkt_elem.
  rewrite list_lookup_fmap in Hk. simpl.
  destruct (df_rows table !! k); [by eexists | done].
Qed.

End LoadFacts.

(** ** Containment queries *)

Section QueryFacts.
Context {G : Type} `{Geometry G}.
Variable loads : string → option G.

Lemma filter_ascending (P : @zone G → Prop) `{∀ z, Decision (P z)}
    (rows : list (@zone G)) :
  StronglySorted lt (z_index <$> rows) →
  StronglySorted lt (z_index <$> filter P rows).
Proof.
  induction rows as [|z rows IH]; simpl; [done|].
  rewrite StronglySorted_cons. intros [Hz Hrows].
  rewrite filter_cons. destruct (decide (P z)); [|by apply IH].
  simpl. rewrite StronglySorted_cons. split; [|by apply IH].
  rewrite Forall_forall in Hz |- *. intros i Hi. apply Hz.
  apply list_elem_of_fmap in Hi as (z' & -> & Hz').
  apply list_elem_of_filter in Hz' as [_ Hz'].
  apply list_elem_of_fmap. by exists z'.
Qed.

Lemma make_result_fields_index (columns : list string) (row : @zone G) :
  "index" ∉ columns →
  res_fields (make_result columns row) !! "index"
  = Some (VNum (Z.of_nat (z_index row))).
Proof.
  unfold make_result; simpl.
  assert (Hgen : ∀ fields : gmap string value,
            fields !! "index" = Some (VNum (Z.of_nat (z_index row))) →
            "index" ∉ columns →
            foldl (λ fields col,
                     if decide (col = "geometry") then fields
                     else <[col := cell (z_attrs row) col]> fields)
                  fields columns !! "index"
            = Some (VNum (Z.of_nat (z_index row)))).
  { induction columns as [|col columns IH]; intros fields Hf Hnot; simpl; [done|].
    apply not_elem_of_cons in Hnot as [Hne Hnot].
    apply IH; [|done]. destruct (decide (col = "geometry")); [done|].
    by rewrite lookup_insert_ne. }
  apply Hgen. by rewrite lookup_singleton_eq.
Qed.

(** C2 (as the code has it): [point_in_zones] raises on a checker whose
    data was never loaded ([self.gdf is None]); on a loaded store without
    any zone it returns the empty list. *)
Theorem point_in_zones_unloaded_or_empty
    (file : string) (table : option DataFrame) (columns : list string)
    (lat lon : Q) :
  point_in_zones {| polygons_file := file; df := table; gdf := None |} lat lon
    = Raises (ValueError "Данные не загружены")
  ∧ point_in_zones
      {| polygons_file := file; df := table;
         gdf := Some {| gdf_columns := columns; gdf_rows := [] |} |} lat lon
    = Returns [].
Proof. split; reflexivity. Qed.

(** C5: on a store built by [load_data], [point_in_zones] returns one entry
    for every zone whose geometry contains the point and for no other, in
    the order of the rows, which is that of ascending index; the entry's
    ['index'] is the row's index (as long as the file has no column of that
    name, which would overwrite it). *)
Theorem point_in_zones_all_ascending polygons_file table self (lat lon : Q) :
  load_data loads polygons_file table = Returns self →
  ∃ g zs,
    gdf self = Some g
    ∧ point_in_zones self lat lon = Returns (make_result (gdf_columns g) <$> zs)
    ∧ (∀ z, z ∈ zs ↔ z ∈ gdf_rows g ∧ contains (z_geometry z) (lon, lat) = true)
    ∧ zs `sublist_of` gdf_rows g
    ∧ StronglySorted lt (z_index <$> zs)
    ∧ ("index" ∉ df_columns table →
       ∀ z, z ∈ zs →
         res_fields (make_result (gdf_columns g) z) !! "index"
         = Some (VNum (Z.of_nat (z_index z)))).
Proof.
  intros Hload.
  destruct (load_data_inv loads _ _ _ Hload) as [Hext Hcol].
  pose proof Hload as Hself.
  rewrite (load_data_returns loads _ _ Hext Hcol) in Hself.
  injection Hself as <-.
  pose proof (loaded_rows_ascending loads _ _ _ _ Hload eq_refl) as Hasc.
  eexists _, _. split; [reflexivity|]. split; [reflexivity|].
  split; [|split; [|split]].
  - intros z. rewrite list_elem_of_filter. tauto.
  - apply sublist_filter.
  - apply filter_ascending. by apply Hasc.
  - intros Hidx z _. apply make_result_fields_index. simpl.
    destruct (decide _); [done|].
    rewrite elem_of_app, list_elem_of_singleton.
    intros [? | ?]; [done | discriminate].
Qed.

(** C7: [load_data] succeeds on a supported file with a WKT column, whatever
    the cells hold.  The store then has exactly one zone for every row whose
    WKT text parses: its index is the row's position in the file, its
    attributes are the row's cells, its geometry is the parsed text.  A row
    whose WKT cell is missing or does not parse has no zone in the store, and
    every query answers with zones of the store only. *)
Theorem load_data_store polygons_file table :
  endswith polygons_file ".xlsx" || endswith polygons_file ".csv" = true →
  "WKT" ∈ df_columns table →
  ∃ self g,
    load_data loads polygons_file table = Returns self
    ∧ gdf self = Some g
    ∧ (∀ z, z ∈ gdf_rows g ↔
            df_rows table !! z_index z = Some (z_attrs z)
            ∧ parses loads (cell (z_attrs z) "WKT") (z_geometry z))
    ∧ NoDup (z_index <$> gdf_rows g)
    ∧ (∀ i row, df_rows table !! i = Some row →
                (∀ geom, ¬ parses loads (cell row "WKT") geom) →
                i ∉ z_index <$> gdf_rows g)
    ∧ (∀ lat lon, ∃ zs,
         point_in_zones self lat lon = Returns (make_result (gdf_columns g) <$> zs)
         ∧ zs ⊆ gdf_rows g).
Proof.
  intros Hext Hcol.
  pose proof (load_data_returns loads _ _ Hext Hcol) as Hload.
  eexists _, _. split; [exact Hload|]. split; [reflexivity|].
  assert (Hrows := λ z, loaded_rows_elem loads _ _ _ _ z Hload eq_refl).
  split; [exact Hrows|]. split; [|split].
  - assert (Hasc := loaded_rows_ascending loads _ _ _ _ Hload eq_refl).
    revert Hasc. generalize (z_index <$> gdf_rows (make_gdf table
      (parse_wkt loads 0 ((λ row, cell row "WKT") <$> df_rows table)))).
    intros l Hl. induction Hl as [|i l _ IH Hi]; constructor; [|done].
    intros Hin. rewrite Forall_forall in Hi. specialize (Hi _ Hin). lia.
  - intros i row Hi Hno (z & -> & Hz)%list_elem_of_fmap.
    apply Hrows in Hz as [Hattrs Hp].
    rewrite Hi in Hattrs. injection Hattrs as ->. by apply (Hno (z_geometry z)).
  - intros lat lon. eexists. split; [reflexivity|].
    intros z. rewrite list_elem_of_filter. tauto.
Qed.

End QueryFacts.

(** ** Points on an edge *)

Lemma on_ring_not_interior p r :
  on_ring p r = true → locate_in_ring p r = Boundary.
Proof. unfold locate_in_ring. by intros ->. Qed.

Lemma on_edge_not_contained poly p :
  on_edge poly p = true → contains poly p = false.
Proof.
  unfold on_edge, contains; simpl. unfold locate. intros Hedge.
  destruct (on_ring p (shell poly)) eqn:Hshell.
  - by rewrite (on_ring_not_interior _ _ Hshell).
  - simpl in Hedge. rewrite Hedge.
    by destruct (locate_in_ring p (shell poly)).
Qed.

(** C1 (as the code has it): the test is [contains], which holds for the
    points of a polygon's interior only.  A zone is never returned for a
    point lying on one of its polygon's edges: no zone of the store with the
    point on an edge is among the zones answered, and no entry of the answer
    carries a geometry with the point on an edge. *)
Theorem point_in_zones_excludes_edges
    (self : RTEZoneChecker) (g : GeoDataFrame (G := Polygon)) (lat lon : Q) :
  gdf self = Some g →
  ∃ zs,
    point_in_zones self lat lon = Returns (make_result (gdf_columns g) <$> zs)
    ∧ (∀ z, z ∈ gdf_rows g → on_edge (z_geometry z) (lon, lat) = true → z ∉ zs)
    ∧ Forall (λ r, on_edge (res_geometry r) (lon, lat) = false)
             (make_result (gdf_columns g) <$> zs).
Proof.
  intros Hg. unfold point_in_zones. rewrite Hg.
  eexists. split; [reflexivity|]. split.
  - intros z _ Hedge [Hc _]%list_elem_of_filter.
    rewrite (on_edge_not_contained _ _ Hedge) in Hc. done.
  - rewrite Forall_fmap, Forall_forall. intros z [Hc _]%list_elem_of_filter.
    simpl. destruct (on_edge (z_geometry z) (lon, lat)) eqn:Hedge; [|done].
    rewrite (on_edge_not_contained _ _ Hedge) in Hc. done.
Qed.

(** The store of the example, a point of the square's left edge and the
    answer of [point_in_zones] there: the square's zone is not in it. *)
Lemma edge_point_not_returned :
  load_data sample_loads "polygons.csv" sample_table = Returns sample_checker
  ∧ on_edge square (0, 1)%Q = true
  ∧ point_in_zones sample_checker 1 0 = Returns [].
Proof. split; [|split]; vm_compute; reflexivity. Qed.

Lemma point_in_zones_excludes_edges_witness :
  gdf sample_checker = Some sample_gdf
  ∧ ∃ zs,
      point_in_zones sample_checker 1 1
        = Returns (make_result (gdf_columns sample_gdf) <$> zs)
      ∧ (∀ z, z ∈ gdf_rows sample_gdf →
              on_edge (z_geometry z) (1, 1)%Q = true → z ∉ zs)
      ∧ Forall (λ r, on_edge (res_geometry r) (1, 1)%Q = false)
               (make_result (gdf_columns sample_gdf) <$> zs).
Proof.
  split; [reflexivity|].
  apply (point_in_zones_excludes_edges sample_checker sample_gdf 1 1).
  reflexivity.
Defined.

(** The example of the specification: the point (1, 1) is in the square,
    the point (5, 5) is not. *)
Example point_in_zones_sample :
  point_in_zones sample_checker 1 1
    = Returns [ {| res_geometry := square;
                   res_fields := <["index" := VNum 0]>
                                   (sample_row square_wkt (VStr "A") 1) |} ]
  ∧ point_in_zones sample_checker 5 5 = Returns []
  ∧ is_point_in_any_zone sample_checker 1 1 = Returns true.
Proof. split; [|split]; vm_compute; reflexivity. Qed.

(** A loaded store without zones answers with the empty list; it does not
    raise. *)
Lemma empty_store_returns_empty :
  load_data sample_loads "polygons.csv" blank_table = Returns blank_checker
  ∧ point_in_zones blank_checker 1 1 = Returns []
  ∧ ¬ ∃ e, point_in_zones blank_checker 1 1 = Raises e.
Proof.
  split; [vm_compute; reflexivity|]. split; [reflexivity|].
  intros [e He]. discriminate He.
Qed.

Lemma point_in_zones_all_ascending_witness :
  load_data sample_loads "polygons.csv" sample_table = Returns sample_checker
  ∧ ∃ g zs,
      gdf sample_checker = Some g
      ∧ point_in_zones sample_checker 1 1
        = Returns (make_result (gdf_columns g) <$> zs)
      ∧ (∀ z, z ∈ zs ↔ z ∈ gdf_rows g ∧ contains (z_geometry z) (1, 1)%Q = true)
      ∧ zs `sublist_of` gdf_rows g
      ∧ StronglySorted lt (z_index <$> zs)
      ∧ ("index" ∉ df_columns sample_table →
         ∀ z, z ∈ zs →
           res_fields (make_result (gdf_columns g) z) !! "index"
           = Some (VNum (Z.of_nat (z_index z)))).
Proof.
  assert (Hload : load_data sample_loads "polygons.csv" sample_table
                  = Returns sample_checker) by (vm_compute; reflexivity).
  split; [exact Hload|].
  exact (point_in_zones_all_ascending sample_loads _ _ _ 1 1 Hload).
Defined.

Lemma load_data_store_witness :
  endswith "polygons.csv" ".xlsx" || endswith "polygons.csv" ".csv" = true
  ∧ "WKT" ∈ df_columns sample_table
  ∧ ∃ self g,
      load_data sample_loads "polygons.csv" sample_table = Returns self
      ∧ gdf self = Some g
      ∧ (∀ z, z ∈ gdf_rows g ↔
              df_rows sample_table !! z_index z = Some (z_attrs z)
              ∧ parses sample_loads (cell (z_attrs z) "WKT") (z_geometry z))
      ∧ NoDup (z_index <$> gdf_rows g)
      ∧ (∀ i row, df_rows sample_table !! i = Some row →
                  (∀ geom, ¬ parses sample_loads (cell row "WKT") geom) →
                  i ∉ z_index <$> gdf_rows g)
      ∧ (∀ lat lon, ∃ zs,
           point_in_zones self lat lon
             = Returns (make_result (gdf_columns g) <$> zs)
           ∧ zs ⊆ gdf_rows g).
Proof.
  assert (Hext : endswith "polygons.csv" ".xlsx" || endswith "polygons.csv" ".csv"
                 = true) by reflexivity.
  assert (Hcol : "WKT" ∈ df_columns sample_table) by (simpl; left).
  split; [exact Hext|]. split; [exact Hcol|].
  exact (load_data_store sample_loads "polygons.csv" sample_table Hext Hcol).
Defined.

(** ** Grouping by restaurant *)

Lemma fmap_fst_pair {A B} (f : A → B) (l : list A) :
  ((λ x, (x, f x)) <$> l).*1 = l.
Proof.
  induction l as [|x l IH]; [done|]. rewrite !fmap_cons. simpl. by f_equal.
Qed.

Lemma distinct_elem {A} `{EqDecision A} (l : list A) x : x ∈ distinct l ↔ x ∈ l.
Proof.
  induction l as [|y l IH]; simpl; [done|].
  rewrite !elem_of_cons, list_elem_of_filter, IH.
  destruct (decide (x = y)); tauto.
Qed.

Lemma distinct_snoc {A} `{EqDecision A} (l : list A) x :
  distinct (l ++ [x]) = if decide (x ∈ l) then distinct l else distinct l ++ [x].
Proof.
  induction l as [|y l IH]; simpl.
  - destruct (decide (x ∈ [])) as [Hin|_]; [by apply elem_of_nil in Hin | done].
  - rewrite IH. destruct (decide (x ∈ l)) as [Hin|Hnin].
    + destruct (decide (x ∈ y :: l)) as [_|Hn]; [done|].
      destruct Hn. by right.
    + rewrite filter_app, filter_cons, filter_nil.
      destruct (decide (x ≠ y)) as [Hne|Heq].
      * destruct (decide (x ∈ y :: l)) as [Hin|_]; [|done].
        apply elem_of_cons in Hin as [? | ?]; done.
      * apply dec_stable in Heq as ->.
        destruct (decide (y ∈ y :: l)) as [_|Hn]; [by rewrite app_nil_r|].
        destruct Hn. by left.
Qed.

Lemma distinct_NoDup {A} `{EqDecision A} (l : list A) : NoDup (distinct l).
Proof.
  induction l as [|y l IH]; simpl; constructor.
  - rewrite list_elem_of_filter. by intros [Hne _].
  - by apply NoDup_filter.
Qed.

Lemma distinct_fmap {A B} `{EqDecision A} `{EqDecision B} (f : A → B) (l : list A) :
  Inj (=) (=) f → distinct (f <$> l) = f <$> distinct l.
Proof.
  intros Hinj. induction l as [|x l IH]; [done|].
  rewrite fmap_cons. cbn [distinct]. rewrite fmap_cons, IH. f_equal.
  generalize (distinct l). intros D. induction D as [|y D IHD]; [done|].
  rewrite fmap_cons, !filter_cons.
  destruct (decide (f y ≠ f x)) as [Hne|Heq].
  - rewrite decide_True by (by intros ->). by rewrite fmap_cons, IHD.
  - apply dec_stable in Heq. apply Hinj in Heq as ->.
    by rewrite decide_False by (by intros Hne).
Qed.

Section GroupFacts.
Context {G : Type}.

Lemma restaurant_key_identifier (zone : nat * @result G) :
  restaurant_key zone.1 zone.2 = identifier_key zone.
Proof.
  unfold restaurant_key, identifier_key, zone_get.
  by destruct (res_fields zone.2 !! "ID реста") as [[]|].
Qed.

Lemma group_loop_app restaurants (zones more : list (nat * @result G)) :
  group_loop restaurants (zones ++ more)
  = match group_loop restaurants zones with
    | Returns restaurants => group_loop restaurants more
    | Raises e => Raises e
    end.
Proof.
  revert restaurants. induction zones as [|z zones IH]; intros restaurants; [done|].
  cbn [app group_loop]. destruct (add_zone restaurants z); [apply IH | done].
Qed.

#[local] Abbreviation keyed zones := (group_of identifier_key key_value snd zones).

(** The dict [restaurants] after the loop has seen [zones]. *)
Lemma group_loop_grouped (zones : list (nat * @result G)) :
  Forall (λ zone, is_Some (res_fields zone.2 !! "index")) zones →
  group_loop [] zones
  = Returns ((λ k, (k, keyed zones k)) <$> distinct (identifier_key <$> zones)).
Proof.
  induction zones as [|z zones IH] using rev_ind; [done|].
  intros [Hzones [Hz _]%Forall_cons]%Forall_app.
  rewrite group_loop_app, (IH Hzones). cbn [group_loop]. unfold add_zone.
  destruct Hz as [index Hindex]. rewrite Hindex, restaurant_key_identifier.
  f_equal. rewrite fmap_fst_pair, fmap_app.
  change (identifier_key <$> [z]) with [identifier_key z].
  rewrite distinct_snoc.
  set (k := identifier_key z).
  assert (Hother : ∀ k', k' ≠ k → keyed (zones ++ [z]) k' = keyed zones k').
  { intros k' Hne. unfold group_of. rewrite filter_app, filter_cons, filter_nil.
    destruct (decide (identifier_key z = k')); [by destruct Hne|].
    by rewrite app_nil_r. }
  assert (Hmembers : filter (λ zone, identifier_key zone = k) (zones ++ [z])
                     = filter (λ zone, identifier_key zone = k) zones ++ [z]).
  { rewrite filter_app, filter_cons, filter_nil. by destruct (decide _). }
  destruct (decide (k ∈ distinct (identifier_key <$> zones))) as [Hin|Hnin].
  - rewrite decide_True by (by apply distinct_elem).
    unfold append_zone. rewrite <- list_fmap_compose.
    apply Forall_fmap_ext, Forall_forall. intros k' _. simpl.
    destruct (decide (k' = k)) as [->|Hne]; [|by rewrite Hother].
    f_equal. unfold group_of. rewrite Hmembers, fmap_app. simpl.
    f_equal. apply distinct_elem, list_elem_of_fmap in Hin as (z' & Hk & Hz').
    assert (Hz : z' ∈ filter (λ zone, identifier_key zone = k) zones)
      by (by apply list_elem_of_filter).
    by destruct (filter _ zones); [apply elem_of_nil in Hz|].
  - rewrite decide_False by (by rewrite <- distinct_elem).
    unfold append_zone. rewrite !fmap_app, <- list_fmap_compose. simpl.
    rewrite decide_True by done. f_equal.
    + apply Forall_fmap_ext, Forall_forall. intros k' Hk'. simpl.
      destruct (decide (k' = k)) as [->|Hne]; [done | by rewrite Hother].
    + do 2 f_equal. unfold group_of. rewrite Hmembers.
      assert (Hnone : filter (λ zone, identifier_key zone = k) zones = []).
      { destruct (filter _ zones) as [|z' rest] eqn:Hf; [done|].
        assert (Hz' : z' ∈ filter (λ zone, identifier_key zone = k) zones)
          by (rewrite Hf; left).
        apply list_elem_of_filter in Hz' as [Hk Hz']. destruct Hnin.
        apply distinct_elem, list_elem_of_fmap. by exists z'. }
      by rewrite Hnone.
Qed.

(** The loop returns the groups of the zones by their keys. *)
Lemma group_zones_groups (zones : list (nat * @result G)) :
  Forall (λ zone, is_Some (res_fields zone.2 !! "index")) zones →
  group_zones zones = Returns (groups_by_key zones).
Proof.
  intros Hindex. unfold group_zones, groups_by_key, grouped.
  rewrite (group_loop_grouped _ Hindex), <- list_fmap_compose. done.
Qed.

(** Zones whose identifiers all have a value: their keys are those of the
    specification. *)
Lemma groups_by_key_spec (zones : list (nat * @result G)) :
  Forall (λ zone, res_fields zone.2 !! "ID реста" ≠ Some VNaN) zones →
  groups_by_key zones = groupByRestaurant_spec zones.*2.
Proof.
  intros Hvalues. unfold groups_by_key, groupByRestaurant_spec, grouped.
  assert (Hkey : ∀ zone, zone ∈ zones →
            identifier_key zone = KeyValue (identifier_or_unknown zone.2)).
  { intros zone Hzone. rewrite Forall_forall in Hvalues.
    specialize (Hvalues zone Hzone). unfold identifier_key, identifier_or_unknown.
    by destruct (res_fields zone.2 !! "ID реста") as [[]|]. }
  assert (Hkeys : identifier_key <$> zones
                  = KeyValue <$> (identifier_or_unknown <$> zones.*2)).
  { rewrite <- !list_fmap_compose. by apply Forall_fmap_ext, Forall_forall. }
  rewrite Hkeys, distinct_fmap by (by intros ?? [=]).
  rewrite <- list_fmap_compose. apply Forall_fmap_ext, Forall_forall.
  intros v _. simpl. unfold group_of. simpl.
  assert (Hmembers : (filter (λ zone, identifier_key zone = KeyValue v) zones).*2
                     = filter (λ zone, identifier_or_unknown zone = v) zones.*2).
  { clear Hkeys Hvalues. induction zones as [|z zones IH]; [done|].
    rewrite fmap_cons, !filter_cons, (Hkey z) by left.
    rewrite <- IH by (intros zone Hzone; apply Hkey; by right).
    destruct (decide (identifier_or_unknown z.2 = v)) as [->|Hne].
    - by rewrite decide_True.
    - rewrite decide_False; [done|]. by intros [=]. }
  rewrite <- Hmembers.
  generalize (filter (λ zone, identifier_key zone = KeyValue v) zones).
  intros members. f_equal.
  - by destruct members.
  - by rewrite <- list_fmap_compose.
Qed.

(** C6 (as the code has it): the groups built by the loop of
    [get_restaurants_for_point].  The key of a zone is its ['ID реста'];
    the text ["unknown"] is the key only of a zone that has no such
    attribute at all.  A missing identifier (a NaN cell) is a key by
    itself: it is not replaced by ["unknown"], the group shows NaN as its
    [restaurant_id], and two such zones fall into one group only when they
    hold the very same NaN object.  There is one group for every key, in
    first-seen order; its partner is that of the first zone with the key;
    its zone list holds the entries of all zones with the key, in input
    order.  When every identifier has a value, these are the groups of the
    specification. *)
Theorem group_zones_spec (zs : list (nat * @result G)) :
  Forall (λ zone, is_Some (res_fields zone.2 !! "index")) zs →
  group_zones zs = Returns (groups_by_key zs)
  ∧ (Forall (λ zone, res_fields zone.2 !! "ID реста" ≠ Some VNaN) zs →
     group_zones zs = Returns (groupByRestaurant_spec zs.*2))
  ∧ (∀ zone, zone ∈ zs → res_fields zone.2 !! "ID реста" = Some VNaN →
       ∃ r, r ∈ groups_by_key zs
            ∧ restaurant_id r = VNaN
            ∧ zones r
              = (λ other, entry_spec other.2)
                  <$> filter (λ other, res_fields other.2 !! "ID реста" = Some VNaN
                                       ∧ other.1 = zone.1) zs).
Proof.
  intros Hindex. split; [by apply group_zones_groups|]. split.
  - intros Hvalues. by rewrite group_zones_groups, groups_by_key_spec.
  - intros zone Hzone Hmissing.
    exists (keyed zs (KeyNaN zone.1)). split; [|split; [done|]].
    + unfold groups_by_key, grouped. apply list_elem_of_fmap.
      exists (KeyNaN zone.1). split; [done|].
      apply distinct_elem, list_elem_of_fmap. exists zone. split; [|done].
      unfold identifier_key. by rewrite Hmissing.
    + unfold group_of. cbn [zones]. f_equal. apply list_filter_iff.
      intros other. unfold identifier_key.
      destruct (res_fields other.2 !! "ID реста") as [[]|]; split;
        first [by intros [= ->] | by intros [[=] _] | by intros [_ ->]].
Qed.

End GroupFacts.

(** ** City enrichment *)

Section EnrichFacts.
Context {G : Type}.
Variable centroid : G → option point.
Variable requests_get : nat → Q → Q → http_result.

#[local] Abbreviation loop := (add_city_loop centroid requests_get).
#[local] Abbreviation after := (enriched centroid requests_get).
#[local] Abbreviation asked := (lookups centroid requests_get).
#[local] Abbreviation answer := (get_city_from_geometry centroid requests_get).

Lemma lookups_attempted n (rows : list (@zone G)) :
  Forall (λ e, attempted e = true) (asked n rows).
Proof.
  revert n. induction rows as [|row rest IH]; intros n; simpl; [constructor|].
  destruct (pending row); [constructor; [done|]|]; apply IH.
Qed.

Lemma enriched_filled n (rows : list (@zone G)) :
  Forall (λ row, pending row = false) rows →
  after n rows = rows ∧ asked n rows = [].
Proof.
  induction 1 as [|row rest Hrow _ IH]; simpl; [done|].
  rewrite Hrow. destruct IH as [-> ->]. done.
Qed.

(** A city column that is not one of numbers takes every city. *)
Lemma accepted (self : @RTEZoneChecker G) city :
  numeric_city self = false → refused self city = false.
Proof. intros Hnum. by destruct city. Qed.

Lemma same_but_city_refl (row : @zone G) : same_but_city row row.
Proof. by repeat split. Qed.

Lemma same_but_city_set (row : @zone G) city : same_but_city row (set_city row city).
Proof.
  repeat split. intros key Hkey. simpl. by rewrite lookup_insert_ne.
Qed.

(** The rows after a pass without exception, one by one: a pending row has
    the answer of its lookup, which is the call numbered by the pending rows
    before it. *)
Lemma enriched_lookup (rows : list (@zone G)) :
  ∀ n i row,
    rows !! i = Some row →
    after n rows !! i
    = Some (if pending row
            then set_city row
                   (answer (n + length (filter (λ r, pending r = true) (take i rows)))
                           (z_geometry row))
            else row).
Proof.
  induction rows as [|r rows IH]; intros n i row Hi; [done|].
  destruct i as [|i]; cbn [lookup list_lookup] in Hi.
  - injection Hi as ->. cbn [enriched take]. rewrite filter_nil.
    destruct (pending row); [|done]. simpl. by rewrite Nat.add_0_r.
  - cbn [enriched take]. rewrite filter_cons. destruct (pending r) eqn:Hr.
    + rewrite decide_True by done. cbn [lookup list_lookup length].
      rewrite Nat.add_succ_r. apply (IH (S n) i row Hi).
    + rewrite decide_False by done. cbn [lookup list_lookup].
      apply (IH n i row Hi).
Qed.

Lemma enriched_length n (rows : list (@zone G)) :
  length (after n rows) = length rows.
Proof.
  revert n. induction rows as [|row rows IH]; intros n; [done|].
  cbn [enriched]. destruct (pending row); simpl; by rewrite IH.
Qed.

(** Without an output path the loop never saves. *)
Lemma add_city_loop_no_save self columns save_file batch_size :
  truthy save_file = false → batch_size ≠ 0%Z → numeric_city self = false →
  ∀ todo done processed,
    loop self columns save_file batch_size done todo processed
    = (done ++ after processed todo, asked processed todo, None).
Proof.
  intros Hfile HN Hnum. apply Z.eqb_neq in HN.
  induction todo as [|row rest IH]; intros done processed;
    cbn [add_city_loop enriched lookups].
  - by rewrite app_nil_r.
  - destruct (pending row).
    + rewrite (accepted _ _ Hnum), HN, Hfile, andb_false_r, IH, <- app_assoc. done.
    + rewrite IH, <- app_assoc. done.
Qed.

(** Rows that have their city are passed over, whatever the arguments. *)
Lemma add_city_loop_filled self columns save_file batch_size :
  ∀ todo done processed,
    Forall (λ row : @zone G, pending row = false) todo →
    loop self columns save_file batch_size done todo processed
    = (done ++ todo, [], None).
Proof.
  induction todo as [|row rest IH]; intros done processed Hall; cbn [add_city_loop].
  - by rewrite app_nil_r.
  - apply Forall_cons in Hall as [-> Hrest].
    rewrite IH, <- app_assoc; done.
Qed.

Lemma save_data_returns (self : @RTEZoneChecker G) table columns rows filename :
  df self = Some table →
  endswith filename ".xlsx" || endswith filename ".csv" = true →
  ∃ out, save_data (with_rows self columns rows) filename = Returns out.
Proof.
  intros Hdf Hext. unfold save_data, with_rows; simpl.
  rewrite Hdf, Hext. by eexists.
Qed.

(** With an output path the loop saves after every [batch_size]-th lookup. *)
Lemma add_city_loop_checkpoints self table columns filename batch_size :
  df self = Some table →
  endswith filename ".xlsx" || endswith filename ".csv" = true →
  truthy (Some filename) = true →
  batch_size ≠ 0%Z →
  numeric_city self = false →
  ∀ todo done processed, ∃ events,
    loop self columns (Some filename) batch_size done todo processed
    = (done ++ after processed todo, events, None)
    ∧ checkpoints_after attempted batch_size processed events = true
    ∧ Forall (saved_to filename) events.
Proof.
  intros Hdf Hext Hfile HN Hnum. apply Z.eqb_neq in HN.
  destruct filename as [|c name]; [discriminate Hfile|].
  induction todo as [|row rest IH]; intros done processed;
    cbn [add_city_loop enriched].
  - exists []. by rewrite app_nil_r.
  - destruct (pending row); [|destruct (IH (done ++ [row]) processed)
      as (events & -> & ? & ?); exists events; by rewrite <- app_assoc].
    rewrite (accepted _ _ Hnum), HN. cbn [truthy]. rewrite andb_true_r.
    set (row' := set_city row _).
    destruct (IH (done ++ [row']) (S processed)) as (events & -> & Hck & Hto).
    rewrite <- app_assoc. cbn [app default from_option id].
    destruct (Z.of_nat (S processed) mod batch_size =? 0)%Z eqn:Hdue.
    + destruct (save_data_returns self table columns (done ++ row' :: rest)
                  (String c name) Hdf Hext) as [out ->].
      eexists. split; [reflexivity|]. split.
      * simpl. by rewrite Hdue, Hck.
      * constructor; [done|]. constructor; [done|]. done.
    + eexists. split; [reflexivity|]. split.
      * simpl. rewrite Hdue. simpl.
        destruct events as [|[|] ?]; simpl in *; done.
      * by constructor.
Qed.

(** C3 (as the code has it): with an output path, a checkpoint is written
    exactly after every N-th lookup attempt of the pass: the counter
    [processed] is incremented for every pending record whose lookup was
    made, whether or not it returned a city.  On a store whose city column
    was made by a pass or read with text in it, and with a service that
    answers with a text or not at all, the pass returns normally, its last
    event is the final save, and before it a save to the output path follows
    a lookup if and only if the number of lookups made so far is a multiple
    of N. *)
Theorem add_city_column_checkpoints
    (self : @RTEZoneChecker G) g table filename batch_size :
  gdf self = Some g →
  df self = Some table →
  endswith filename ".xlsx" || endswith filename ".csv" = true →
  batch_size ≠ 0%Z →
  numeric_city self = false →
  answers_text requests_get →
  ∃ self' events out,
    add_city_column centroid requests_get self (Some filename) batch_size
    = (self', events ++ [EvSave filename out], None)
    ∧ checkpoints_after attempted batch_size 0 events = true
    ∧ Forall (saved_to filename) events.
Proof.
  intros Hg Hdf Hext HN Hnum _.
  assert (Hfile : truthy (Some filename) = true).
  { destruct filename; [discriminate Hext | done]. }
  unfold add_city_column. rewrite Hg.
  destruct (add_city_loop_checkpoints self table (gdf_columns (ensure_city g))
              filename batch_size Hdf Hext Hfile HN Hnum
              (gdf_rows (ensure_city g)) [] 0%nat) as (events & -> & Hck & Hto).
  rewrite Hfile. simpl.
  destruct (save_data_returns self table (gdf_columns (ensure_city g))
              (after 0 (gdf_rows (ensure_city g))) filename Hdf Hext)
    as [out Hout].
  simpl in Hout. rewrite Hout. by eexists _, _, _.
Qed.

(** C4: on a store in which every record has a non-empty city, a pass makes
    no lookup and leaves the records as they are, whatever the output path
    and the batch size; with the city column in place the whole checker is
    unchanged. *)
Theorem add_city_column_idempotent
    (self : @RTEZoneChecker G) g save_file batch_size :
  gdf self = Some g →
  Forall (has_city g) (gdf_rows g) →
  ∃ g' events exn,
    add_city_column centroid requests_get self save_file batch_size
    = ({| polygons_file := polygons_file self; df := df self; gdf := Some g' |},
       events, exn)
    ∧ Forall (λ e, attempted e = false) events
    ∧ gdf_rows g' = gdf_rows g
    ∧ ("city" ∈ gdf_columns g → g' = g).
Proof.
  intros Hg Hall. unfold add_city_column. rewrite Hg.
  assert (Hrows : gdf_rows (ensure_city g) = gdf_rows g).
  { unfold ensure_city. destruct (decide _) as [|Hno]; [done|]. simpl.
    destruct (gdf_rows g) as [|row rows]; [done|].
    apply Forall_cons in Hall as [[Hc _] _]. contradiction. }
  assert (Hcols : "city" ∈ gdf_columns g → ensure_city g = g).
  { intros Hc. unfold ensure_city. by rewrite decide_True. }
  rewrite add_city_loop_filled.
  2: { rewrite Hrows. eapply Forall_impl; [exact Hall|]. by intros row [_ ?]. }
  simpl. unfold with_rows. rewrite Hrows.
  set (self' := {| polygons_file := polygons_file self; df := df self;
                   gdf := Some {| gdf_columns := gdf_columns (ensure_city g);
                                  gdf_rows := gdf_rows g |} |}).
  assert (Hsame : "city" ∈ gdf_columns g →
            {| gdf_columns := gdf_columns (ensure_city g);
               gdf_rows := gdf_rows g |} = g).
  { intros Hc. rewrite (Hcols Hc). by destruct g. }
  destruct (truthy save_file); [destruct (save_data self' _)|];
    eexists _, _, _; (split; [reflexivity|]);
    (split; [repeat constructor | split; [done | exact Hsame]]).
Qed.

Lemma add_city_loop_never_saves self columns save_file batch_size :
  truthy save_file = false →
  ∀ todo done processed,
    Forall (λ e, attempted e = true)
           (loop self columns save_file batch_size done todo processed).1.2.
Proof.
  intros Hfile. induction todo as [|row rest IH]; intros done processed;
    cbn [add_city_loop].
  - constructor.
  - destruct (pending row); [|apply IH].
    destruct (refused _ _); [by repeat constructor|].
    destruct (batch_size =? 0)%Z; [by repeat constructor|].
    rewrite Hfile, andb_false_r.
    specialize (IH (done ++ [set_city row (answer processed (z_geometry row))])
      (S processed)).
    destruct (loop _ _ _ _ _ rest _) as [[rows events] exn]. simpl in *.
    by constructor.
Qed.

(** C9 (as the code has it): without an output path a pass saves nothing,
    neither during the loop nor at its end: its events are lookups only,
    whatever the batch size and however the call ends.  With a batch size
    other than zero, a city column made by a pass or read with text in it,
    and a service that answers with a text or not at all, the call returns
    normally, its events are the lookups of the pending records, one each,
    in row order, and in memory every record is what it was up to its city:
    the city cell of a pending record holds the answer of its lookup (the
    text, or a missing value when there was none), and a record that had
    its city is untouched. *)
Theorem add_city_column_no_output
    (self : @RTEZoneChecker G) g save_file batch_size :
  gdf self = Some g →
  truthy save_file = false →
  Forall (λ e, attempted e = true)
         (add_city_column centroid requests_get self save_file batch_size).1.2
  ∧ (batch_size ≠ 0%Z →
     numeric_city self = false →
     answers_text requests_get →
     ∃ rows',
       add_city_column centroid requests_get self save_file batch_size
       = (with_rows self (gdf_columns (ensure_city g)) rows',
          lookups centroid requests_get 0 (gdf_rows (ensure_city g)), None)
       ∧ length rows' = length (gdf_rows (ensure_city g))
       ∧ ∀ i row row',
           gdf_rows (ensure_city g) !! i = Some row →
           rows' !! i = Some row' →
           same_but_city row row'
           ∧ if pending row
             then z_attrs row' !! "city"
                  = Some (from_option VStr VNaN
                            (get_city_from_geometry centroid requests_get
                               (length (filter (λ r, pending r = true)
                                               (take i (gdf_rows (ensure_city g)))))
                               (z_geometry row)))
             else row' = row).
Proof.
  intros Hg Hfile. unfold add_city_column. rewrite Hg. split.
  - pose proof (add_city_loop_never_saves self (gdf_columns (ensure_city g))
                  save_file batch_size Hfile (gdf_rows (ensure_city g)) [] 0%nat)
      as Hloop.
    destruct (loop _ _ _ _ _ _ _) as [[rows events] exn]. simpl in Hloop.
    destruct exn; [done|]. by rewrite Hfile.
  - intros HN Hnum _.
    rewrite (add_city_loop_no_save _ _ _ _ Hfile HN Hnum). simpl. rewrite Hfile.
    eexists. split; [reflexivity|]. split; [apply enriched_length|].
    intros i row row' Hrow Hrow'.
    rewrite (enriched_lookup _ 0 i row Hrow) in Hrow'. injection Hrow' as <-.
    destruct (pending row); [|split; [apply same_but_city_refl | done]].
    split; [apply same_but_city_set|]. simpl. by rewrite lookup_insert_eq.
Qed.

End EnrichFacts.

(** ** Reverse geocoding *)

(** C8 (as the code has it): [get_city_from_coordinates] never raises; a
    transport failure and a status other than 200 give [None]; from a 200
    response with an address object the city is the first of city, town,
    village, municipality whose value is non-empty (true in Python's sense),
    and the value under county, if any, when there is none. *)
Theorem get_city_from_coordinates_resolution
    (requests_get : Q → Q → http_result) (lat lon : Q) :
  ∃ city,
    get_city_from_coordinates requests_get lat lon = Returns city
    ∧ (requests_get lat lon = TransportFailure → city = JNull)
    ∧ (∀ status_code body,
         requests_get lat lon = Response status_code body →
         status_code ≠ 200%Z → city = JNull)
    ∧ (∀ data members,
         requests_get lat lon = Response 200 (Some (JObj data)) →
         members_get "address" data = Some (JObj members) →
         city = first_nonempty members).
Proof.
  unfold get_city_from_coordinates.
  destruct (requests_get lat lon) as [|status_code body] eqn:Hresp.
  - exists JNull. repeat split; [done ..|]. intros ?? [=].
  - destruct (request_city (Response status_code body)) as [city|e] eqn:Hcity.
    + exists city. split; [done|]. split; [done|]. split.
      * intros ?? [= <- <-] Hne%Z.eqb_neq. simpl in Hcity.
        rewrite Hne in Hcity. by injection Hcity.
      * intros data members [= -> ->] Haddr. simpl in Hcity.
        rewrite Haddr in Hcity. simpl in Hcity. injection Hcity as <-.
        unfold first_nonempty, py_or. simpl.
        repeat (destruct (json_truthy (address_get members _));
                [by rewrite decide_True by done | rewrite decide_False by done];
                simpl).
        done.
    + exists JNull. split; [done|]. split; [done|]. split.
      * done.
      * intros data members [= -> ->] Haddr. simpl in Hcity.
        rewrite Haddr in Hcity. done.
Qed.

Lemma get_city_from_coordinates_resolution_witness :
  (λ _ _ : Q, springfield) 0%Q 0%Q
    = Response 200 (Some (JObj [("address", JObj [("city", JStr "");
                                                  ("town", JStr "Springfield")])]))
  ∧ ∃ city,
      get_city_from_coordinates (λ _ _, springfield) 0 0 = Returns city
      ∧ ((λ _ _ : Q, springfield) 0%Q 0%Q = TransportFailure → city = JNull)
      ∧ (∀ status_code body,
           (λ _ _ : Q, springfield) 0%Q 0%Q = Response status_code body →
           status_code ≠ 200%Z → city = JNull)
      ∧ (∀ data members,
           (λ _ _ : Q, springfield) 0%Q 0%Q = Response 200 (Some (JObj data)) →
           members_get "address" data = Some (JObj members) →
           city = first_nonempty members).
Proof.
  split; [reflexivity|].
  exact (get_city_from_coordinates_resolution (λ _ _, springfield) 0 0).
Defined.

(** An address with an empty city and a town: the call answers with the
    town, the first present field is the city. *)
Lemma empty_city_is_skipped :
  get_city_from_coordinates (λ _ _, springfield) 0 0 = Returns (JStr "Springfield")
  ∧ first_present [("city", JStr ""); ("town", JStr "Springfield")] = JStr ""
  ∧ get_city_from_coordinates (λ _ _, springfield) 0 0
    ≠ Returns (first_present [("city", JStr ""); ("town", JStr "Springfield")]).
Proof. split; [|split]; [vm_compute; reflexivity ..|]. vm_compute. discriminate. Qed.

(** ** Statistics *)

#[local] Instance more_frequent_trans : Transitive more_frequent.
Proof. intros a b c. unfold more_frequent. lia. Qed.

#[local] Instance more_frequent_total : Total more_frequent.
Proof. intros a b. unfold more_frequent. lia. Qed.

Lemma occurrences_present (l : list value) c :
  c ≠ VNaN →
  occurrences c (filter (λ v, notna v = true) l) = occurrences c l.
Proof.
  intros Hc. unfold occurrences. f_equal.
  induction l as [|x l IH]; [done|].
  rewrite (filter_cons _ x). destruct (decide (notna x = true)) as [|Hx].
  - rewrite !filter_cons. destruct (decide (x = c)); by rewrite IH.
  - rewrite (filter_cons _ x). destruct (decide (x = c)) as [->|]; [|done].
    by destruct c.
Qed.

Lemma occurrences_pos (l : list value) c : c ∈ l → (0 < occurrences c l)%nat.
Proof.
  intros Hc. unfold occurrences.
  assert (Hin : c ∈ filter (λ y, y = c) l) by (by apply list_elem_of_filter).
  destruct (filter _ l); [by apply elem_of_nil in Hin | simpl; lia].
Qed.

Lemma value_counts_elem (l : list value) c n :
  (c, n) ∈ value_counts l ↔ c ∈ l ∧ c ≠ VNaN ∧ n = occurrences c l.
Proof.
  unfold value_counts. rewrite merge_sort_Permutation, list_elem_of_fmap.
  split.
  - intros (v & [= -> ->] & Hv). apply distinct_elem, list_elem_of_filter in Hv
      as [Hna Hv].
    assert (v ≠ VNaN) by (by intros ->).
    by rewrite occurrences_present.
  - intros (Hc & Hna & ->). exists c. rewrite occurrences_present by done.
    split; [done|]. apply distinct_elem, list_elem_of_filter.
    split; [by destruct c | done].
Qed.

Lemma value_counts_NoDup (l : list value) : NoDup (value_counts l).*1.
Proof.
  unfold value_counts. rewrite merge_sort_Permutation, fmap_fst_pair.
  apply distinct_NoDup.
Qed.

(** C10: with a city column, the [city_distribution] of [get_stats] has at
    most 10 entries, for 10 different cities; each is a city of the column
    with the number of its zones; a city of the column that is not among
    them is left out only when 10 are there, and has no more zones than any
    of the 10. *)
Theorem city_distribution_top10 {G : Type} (self : @RTEZoneChecker G) g :
  gdf self = Some g →
  "city" ∈ gdf_columns g →
  ∃ st dist,
    get_stats self = Some st
    ∧ city_distribution st = Some dist
    ∧ (length dist ≤ 10)%nat
    ∧ NoDup dist.*1
    ∧ (∀ c n, (c, n) ∈ dist →
              c ≠ VNaN ∧ n = occurrences c (column g "city") ∧ (0 < n)%nat)
    ∧ (∀ c, c ∈ column g "city" → c ≠ VNaN → c ∉ dist.*1 →
            length dist = 10%nat
            ∧ ∀ c' n', (c', n') ∈ dist →
                       (occurrences c (column g "city") ≤ n')%nat).
Proof.
  intros Hg Hcity. unfold get_stats. rewrite Hg.
  rewrite (bool_decide_eq_true_2 _ Hcity).
  eexists _, _. split; [reflexivity|]. split; [reflexivity|].
  set (col := column g "city"). set (L := value_counts col).
  assert (HL : L = take 10 L ++ drop 10 L) by (by rewrite take_drop).
  split; [|split; [|split]].
  - rewrite length_take. lia.
  - pose proof (value_counts_NoDup col) as Hnd. fold L in Hnd.
    rewrite HL, fmap_app in Hnd. by apply NoDup_app in Hnd as [? _].
  - intros c n Hin.
    assert (Hin' : (c, n) ∈ L) by (rewrite HL; apply elem_of_app; by left).
    apply value_counts_elem in Hin' as (Hc & Hna & ->).
    split; [done|]. split; [done|]. by apply occurrences_pos.
  - intros c Hc Hna Hout.
    assert (Hin : (c, occurrences c col) ∈ L) by (by apply value_counts_elem).
    rewrite HL in Hin. apply elem_of_app in Hin as [Hin|Hin].
    { destruct Hout. apply list_elem_of_fmap. by exists (c, occurrences c col). }
    split.
    + rewrite length_take. apply Nat.min_l.
      destruct (decide (10 ≤ length L)%nat) as [|Hshort]; [done|].
      rewrite drop_ge in Hin by lia. by apply elem_of_nil in Hin.
    + intros c' n' Hin'.
      pose proof (StronglySorted_merge_sort more_frequent
        ((λ v, (v, occurrences v (filter (λ v, notna v = true) col)))
           <$> distinct (filter (λ v, notna v = true) col))) as Hsorted.
      change (StronglySorted more_frequent L) in Hsorted. rewrite HL in Hsorted.
      apply (StronglySorted_app_1_elem_of _ _ _ _ _ Hsorted Hin' Hin).
Qed.

(** ** The theorems at work on the sample data *)

Lemma group_zones_spec_witness :
  Forall (λ zone, is_Some (res_fields zone.2 !! "index")) sample_zones
  ∧ Forall (λ zone, res_fields zone.2 !! "ID реста" ≠ Some VNaN) sample_zones
  ∧ group_zones sample_zones = Returns (groups_by_key sample_zones)
  ∧ group_zones sample_zones = Returns (groupByRestaurant_spec sample_zones.*2)
  ∧ (∀ zone, zone ∈ sample_zones → res_fields zone.2 !! "ID реста" = Some VNaN →
       ∃ r, r ∈ groups_by_key sample_zones
            ∧ restaurant_id r = VNaN
            ∧ zones r
              = (λ other, entry_spec other.2)
                  <$> filter (λ other, res_fields other.2 !! "ID реста" = Some VNaN
                                       ∧ other.1 = zone.1) sample_zones).
Proof.
  assert (Hindex : Forall (λ zone : nat * @result Polygon,
                             is_Some (res_fields zone.2 !! "index")) sample_zones).
  { repeat constructor; by eexists. }
  assert (Hvalues : Forall (λ zone : nat * @result Polygon,
                              res_fields zone.2 !! "ID реста" ≠ Some VNaN)
                           sample_zones).
  { repeat constructor; intros Hk; vm_compute in Hk; discriminate Hk. }
  split; [exact Hindex|]. split; [exact Hvalues|].
  destruct (group_zones_spec sample_zones Hindex) as (Hkeys & Hspec & Hmissing).
  split; [exact Hkeys|]. split; [exact (Hspec Hvalues) | exact Hmissing].
Defined.

(** Two zones of one restaurant make one group with two entries. *)
Example group_zones_sample :
  group_zones sample_zones
  = Returns
      [ {| restaurant_id := VNum 7; partner := VStr "A";
           zones := [ {| ze_name := VStr "north"; ze_internal_id := VStr "";
                         ze_index := VNum 0 |};
                      {| ze_name := VStr "south"; ze_internal_id := VStr "";
                         ze_index := VNum 2 |} ] |};
        {| restaurant_id := VNum 8; partner := VStr "A";
           zones := [ {| ze_name := VStr "east"; ze_internal_id := VStr "";
                         ze_index := VNum 1 |} ] |} ].
Proof. vm_compute. reflexivity. Qed.

(** Two zones whose restaurant identifier is missing.  The specification
    puts them into one group under "unknown".  The loop keeps the NaN as
    the identifier of the group, and makes two groups of them when each row
    holds a NaN object of its own, one group when they share the object:
    in neither case is it the group of the specification. *)
Lemma missing_identifier_not_unknown :
  groupByRestaurant_spec orphan_zones.*2
  = [ {| restaurant_id := VStr "unknown"; partner := VStr "A";
         zones := [ {| ze_name := VStr "north"; ze_internal_id := VStr "";
                       ze_index := VNum 0 |};
                    {| ze_name := VStr "south"; ze_internal_id := VStr "";
                       ze_index := VNum 1 |} ] |} ]
  ∧ group_zones orphan_zones
    = Returns
        [ {| restaurant_id := VNaN; partner := VStr "A";
             zones := [ {| ze_name := VStr "north"; ze_internal_id := VStr "";
                           ze_index := VNum 0 |} ] |};
          {| restaurant_id := VNaN; partner := VStr "A";
             zones := [ {| ze_name := VStr "south"; ze_internal_id := VStr "";
                           ze_index := VNum 1 |} ] |} ]
  ∧ group_zones orphan_zones_shared
    = Returns
        [ {| restaurant_id := VNaN; partner := VStr "A";
             zones := [ {| ze_name := VStr "north"; ze_internal_id := VStr "";
                           ze_index := VNum 0 |};
                        {| ze_name := VStr "south"; ze_internal_id := VStr "";
                           ze_index := VNum 1 |} ] |} ]
  ∧ group_zones orphan_zones ≠ Returns (groupByRestaurant_spec orphan_zones.*2)
  ∧ group_zones orphan_zones_shared
    ≠ Returns (groupByRestaurant_spec orphan_zones_shared.*2).
Proof.
  split; [vm_compute; reflexivity|]. split; [vm_compute; reflexivity|].
  split; [vm_compute; reflexivity|]. split; vm_compute; discriminate.
Qed.

(** Batch size 2, three pending zones, the second lookup fails: the
    checkpoint comes after the second attempt, when one record has a city,
    and none comes after the second success.  The events follow the count
    of attempts, not that of successes. *)
Lemma checkpoint_counts_attempts :
  let events :=
    (add_city_column sample_centroid sample_service waiting_checker
                     (Some "out.csv") 2).1.2 in
  step_of <$> events
    = [Looked (Some "Moscow"); Looked None; Saved; Looked (Some "Tver"); Saved]
  ∧ checkpoints_after succeeded 2 0 (removelast events) = false
  ∧ checkpoints_after attempted 2 0 (removelast events) = true.
Proof. split; [|split]; vm_compute; reflexivity. Qed.

Lemma add_city_column_checkpoints_witness :
  gdf waiting_checker = Some waiting_gdf
  ∧ endswith "out.csv" ".xlsx" || endswith "out.csv" ".csv" = true
  ∧ 2%Z ≠ 0%Z
  ∧ numeric_city waiting_checker = false
  ∧ answers_text sample_service
  ∧ ∃ self' events out,
      add_city_column sample_centroid sample_service waiting_checker (Some "out.csv") 2
      = (self', events ++ [EvSave "out.csv" out], None)
      ∧ checkpoints_after attempted 2 0 events = true
      ∧ Forall (saved_to "out.csv") events.
Proof.
  assert (Hext : endswith "out.csv" ".xlsx" || endswith "out.csv" ".csv" = true)
    by reflexivity.
  assert (HN : 2%Z ≠ 0%Z) by lia.
  assert (Hnum : numeric_city waiting_checker = false) by reflexivity.
  assert (Htext : answers_text sample_service).
  { intros [|[|n]] lat lon; [right; by eexists | by left | right; by eexists]. }
  split; [reflexivity|]. split; [exact Hext|]. split; [exact HN|].
  split; [exact Hnum|]. split; [exact Htext|].
  exact (add_city_column_checkpoints sample_centroid sample_service
           waiting_checker waiting_gdf _ "out.csv" 2 eq_refl eq_refl Hext HN
           Hnum Htext).
Defined.

Lemma add_city_column_idempotent_witness :
  gdf filled_checker = Some filled_gdf
  ∧ Forall (has_city filled_gdf) (gdf_rows filled_gdf)
  ∧ ∃ g' events exn,
      add_city_column sample_centroid sample_service filled_checker (Some "out.csv") 2
      = ({| polygons_file := polygons_file filled_checker;
            df := df filled_checker; gdf := Some g' |}, events, exn)
      ∧ Forall (λ e, attempted e = false) events
      ∧ gdf_rows g' = gdf_rows filled_gdf
      ∧ ("city" ∈ gdf_columns filled_gdf → g' = filled_gdf).
Proof.
  assert (Hall : Forall (has_city filled_gdf) (gdf_rows filled_gdf)).
  { repeat constructor; vm_compute; reflexivity. }
  split; [reflexivity|]. split; [exact Hall|].
  exact (add_city_column_idempotent sample_centroid sample_service filled_checker filled_gdf
           (Some "out.csv") 2 eq_refl Hall).
Defined.

Lemma add_city_column_no_output_witness :
  gdf waiting_checker = Some waiting_gdf
  ∧ truthy None = false
  ∧ 10%Z ≠ 0%Z
  ∧ numeric_city waiting_checker = false
  ∧ answers_text sample_service
  ∧ Forall (λ e, attempted e = true)
           (add_city_column sample_centroid sample_service waiting_checker None 10).1.2
  ∧ ∃ rows',
      add_city_column sample_centroid sample_service waiting_checker None 10
      = (with_rows waiting_checker (gdf_columns (ensure_city waiting_gdf)) rows',
         lookups sample_centroid sample_service 0
                 (gdf_rows (ensure_city waiting_gdf)), None)
      ∧ length rows' = length (gdf_rows (ensure_city waiting_gdf))
      ∧ ∀ i row row',
          gdf_rows (ensure_city waiting_gdf) !! i = Some row →
          rows' !! i = Some row' →
          same_but_city row row'
          ∧ if pending row
            then z_attrs row' !! "city"
                 = Some (from_option VStr VNaN
                           (get_city_from_geometry sample_centroid sample_service
                              (length (filter (λ r, pending r = true)
                                         (take i (gdf_rows (ensure_city waiting_gdf)))))
                              (z_geometry row)))
            else row' = row.
Proof.
  assert (HN : 10%Z ≠ 0%Z) by lia.
  assert (Hnum : numeric_city waiting_checker = false) by reflexivity.
  assert (Htext : answers_text sample_service).
  { intros [|[|n]] lat lon; [right; by eexists | by left | right; by eexists]. }
  split; [reflexivity|]. split; [reflexivity|]. split; [exact HN|].
  split; [exact Hnum|]. split; [exact Htext|].
  destruct (add_city_column_no_output sample_centroid sample_service
              waiting_checker waiting_gdf None 10 eq_refl eq_refl)
    as [Hsaves Hrows].
  split; [exact Hsaves | exact (Hrows HN Hnum Htext)].
Defined.

(** Without an output path: three lookups, no save, and the cities of the
    first and third zone in memory. *)
Example add_city_column_no_output_sample :
  let '(self', events, exn) :=
    add_city_column sample_centroid sample_service waiting_checker None 10 in
  step_of <$> events = [Looked (Some "Moscow"); Looked None; Looked (Some "Tver")]
  ∧ exn = None
  ∧ (λ row, cell (z_attrs row) "city") <$> from_option gdf_rows [] (gdf self')
    = [VStr "Moscow"; VNaN; VStr "Tver"].
Proof. vm_compute. done. Qed.

(** Without an output path and with batch size 0: the call is ended by
    [ZeroDivisionError] after the first lookup, and the second and the
    third zone, which are pending, are not given a city. *)
Lemma zero_batch_leaves_pending :
  let '(self', events, exn) :=
    add_city_column sample_centroid sample_service waiting_checker None 0 in
  step_of <$> events = [Looked (Some "Moscow")]
  ∧ exn = Some ZeroDivisionError
  ∧ (λ row, cell (z_attrs row) "city") <$> from_option gdf_rows [] (gdf self')
    = [VStr "Moscow"; VNaN; VNaN]
  ∧ pending <$> from_option gdf_rows [] (gdf self') = [false; true; true].
Proof. vm_compute. done. Qed.

Lemma city_distribution_top10_witness :
  gdf twelve_cities = Some twelve_gdf
  ∧ "city" ∈ gdf_columns twelve_gdf
  ∧ ∃ st dist,
      get_stats twelve_cities = Some st
      ∧ city_distribution st = Some dist
      ∧ (length dist ≤ 10)%nat
      ∧ NoDup dist.*1
      ∧ (∀ c n, (c, n) ∈ dist →
                c ≠ VNaN ∧ n = occurrences c (column twelve_gdf "city")
                ∧ (0 < n)%nat)
      ∧ (∀ c, c ∈ column twelve_gdf "city" → c ≠ VNaN → c ∉ dist.*1 →
              length dist = 10%nat
              ∧ ∀ c' n', (c', n') ∈ dist →
                         (occurrences c (column twelve_gdf "city") ≤ n')%nat).
Proof.
  assert (Hcity : "city" ∈ gdf_columns twelve_gdf) by (simpl; do 2 right; left).
  split; [reflexivity|]. split; [exact Hcity|].
  exact (city_distribution_top10 twelve_cities twelve_gdf eq_refl Hcity).
Defined.

(** Twelve cities of one zone each: ten make the distribution. *)
Example city_distribution_sample :
  (λ st, (cities st, length <$> city_distribution st)) <$> get_stats twelve_cities
  = Some (Some 12%nat, Some 10%nat).
Proof. vm_compute. reflexivity. Qed.

(** * Further properties *)

(** ** Entries of an answer *)

Section EntryFacts.
Context {G : Type} `{Geometry G}.
Variable loads : string → option G.

Lemma foldl_entry_fields (row : @zone G) (columns : list string) key :
  ∀ fields : gmap string value,
    foldl (λ fields col,
             if decide (col = "geometry") then fields
             else <[col := cell (z_attrs row) col]> fields)
          fields columns !! key
    = if decide (key ∈ columns ∧ key ≠ "geometry")
      then Some (cell (z_attrs row) key)
      else fields !! key.
Proof.
  induction columns as [|col columns IH]; intros fields; cbn [foldl].
  - case_decide as Hc; [|done]. destruct Hc as [Hin _]. by apply elem_of_nil in Hin.
  - rewrite IH.
    destruct (decide (key ∈ columns ∧ key ≠ "geometry")) as [[Hin Hne]|Hno].
    { case_decide as Hc; [done|]. destruct Hc. split; [by right | done]. }
    destruct (decide (col = "geometry")) as [->|Hcol].
    { case_decide as Hc; [|done].
      destruct Hc as [[->|Hin]%elem_of_cons Hne]; [done|]. by destruct Hno. }
    destruct (decide (key = col)) as [->|Hkey].
    + rewrite lookup_insert_eq. case_decide as Hc; [done|].
      destruct Hc. split; [by left | done].
    + rewrite lookup_insert_ne by done. case_decide as Hc; [|done].
      destruct Hc as [[->|Hin]%elem_of_cons Hne]; [done|]. by destruct Hno.
Qed.

(** X1: the fields of an entry of [point_in_zones].  Under the name of every
    column other than ['geometry'] stands the row's cell; ['index'] is the
    row's index unless the file has a column of that name, whose cell then
    takes its place; there is no other key. *)
Theorem make_result_fields (columns : list string) (row : @zone G) (key : string) :
  res_fields (make_result columns row) !! key
  = if decide (key ∈ columns ∧ key ≠ "geometry")
    then Some (cell (z_attrs row) key)
    else if decide (key = "index")
         then Some (VNum (Z.of_nat (z_index row)))
         else None.
Proof.
  unfold make_result; simpl. rewrite foldl_entry_fields.
  destruct (decide (key ∈ columns ∧ key ≠ "geometry")); [done|].
  destruct (decide (key = "index")) as [->|Hne].
  - by rewrite lookup_singleton_eq.
  - by rewrite lookup_singleton_ne.
Qed.

End EntryFacts.

(** ** Asking whether a point is covered *)

Section CoverFacts.
Context {G : Type} `{Geometry G}.
Variable loads : string → option G.

Lemma filter_nonempty_iff {A} (P : A → Prop) `{∀ x, Decision (P x)} (l : list A) :
  (0 <? length (filter P l))%nat = true ↔ ∃ x, x ∈ l ∧ P x.
Proof.
  rewrite Nat.ltb_lt. split.
  - destruct (filter P l) as [|x rest] eqn:Hf; simpl; [lia|]. intros _.
    assert (Hx : x ∈ filter P l) by (rewrite Hf; left).
    apply list_elem_of_filter in Hx as [? ?]. by exists x.
  - intros (x & Hx & HP).
    assert (Hin : x ∈ filter P l) by (by apply list_elem_of_filter).
    destruct (filter P l); [by apply elem_of_nil in Hin | simpl; lia].
Qed.

(** X2: on a loaded store [is_point_in_any_zone] returns, and returns [True]
    exactly when the geometry of some zone of the store contains the point
    (longitude first). *)
Theorem is_point_in_any_zone_iff (self : @RTEZoneChecker G) g (lat lon : Q) :
  gdf self = Some g →
  ∃ b, is_point_in_any_zone self lat lon = Returns b
       ∧ (b = true ↔
          ∃ z, z ∈ gdf_rows g ∧ contains (z_geometry z) (lon, lat) = true).
Proof.
  intros Hg. unfold is_point_in_any_zone, point_in_zones. rewrite Hg.
  eexists. split; [reflexivity|].
  rewrite length_fmap. apply filter_nonempty_iff.
Qed.

(** X3: [check_point_simple] on a file.  A name that ends neither in .xlsx
    nor in .csv and a table without WKT column raise the errors of
    [load_data]; otherwise the call returns, whatever the rows hold, and
    returns [True] exactly when some row has a WKT text that parses to a
    geometry containing the point. *)
Theorem check_point_simple_spec (lat lon : Q) polygons_file table :
  if endswith polygons_file ".xlsx" || endswith polygons_file ".csv" then
    if decide ("WKT" ∈ df_columns table) then
      ∃ b, check_point_simple loads lat lon polygons_file table = Returns b
           ∧ (b = true ↔
              ∃ i row geom,
                df_rows table !! i = Some row
                ∧ parses loads (cell row "WKT") geom
                ∧ contains geom (lon, lat) = true)
    else check_point_simple loads lat lon polygons_file table
         = Raises (ValueError "В файле не найдена колонка 'WKT'")
  else check_point_simple loads lat lon polygons_file table
       = Raises (ValueError "Поддерживаются только файлы .xlsx и .csv").
Proof.
  destruct (endswith polygons_file ".xlsx" || endswith polygons_file ".csv")
    eqn:Hext.
  2: { unfold check_point_simple, load_data. by rewrite Hext. }
  destruct (decide ("WKT" ∈ df_columns table)) as [Hcol|Hcol].
  2: { unfold check_point_simple, load_data. rewrite Hext.
       by rewrite decide_False. }
  pose proof (load_data_returns loads _ _ Hext Hcol) as Hload.
  unfold check_point_simple. rewrite Hload.
  unfold is_point_in_any_zone, point_in_zones. cbn [gdf].
  eexists. split; [reflexivity|].
  rewrite length_fmap, filter_nonempty_iff. split.
  - intros (z & Hz & Hc).
    apply (loaded_rows_elem loads _ _ _ _ z Hload eq_refl) in Hz as [Hrow Hp].
    by exists (z_index z), (z_attrs z), (z_geometry z).
  - intros (i & row & geom & Hrow & Hp & Hc).
    exists {| z_index := i; z_geometry := geom; z_attrs := row |}.
    split; [|done].
    by apply (loaded_rows_elem loads _ _ _ _ _ Hload eq_refl).
Qed.

End CoverFacts.

(** ** Restaurants for a point *)

Lemma sum_list_with_agree {A} (f g : A → nat) (l : list A) :
  (∀ x, x ∈ l → f x = g x) → sum_list_with f l = sum_list_with g l.
Proof.
  induction l as [|x l IH]; intros Hfg; simpl; [done|].
  rewrite Hfg by left. rewrite IH; [done|]. intros y Hy. apply Hfg. by right.
Qed.

Lemma filter_keeps_all {A} (P : A → Prop) `{∀ x, Decision (P x)} (l : list A) :
  (∀ x, x ∈ l → P x) → filter P l = l.
Proof.
  induction l as [|x l IH]; intros HP; [done|].
  rewrite filter_cons, decide_True by (apply HP; left).
  rewrite IH; [done|]. intros y Hy. apply HP. by right.
Qed.

Lemma sum_list_with_split {A} `{EqDecision A} (g : A → nat) (x : A) (D : list A) :
  NoDup D →
  sum_list_with g D
  = ((if decide (x ∈ D) then g x else 0) + sum_list_with g (filter (λ y, y ≠ x) D))%nat.
Proof.
  induction 1 as [|y D Hy Hnd IH]; [done|].
  rewrite filter_cons. simpl. destruct (decide (y ≠ x)) as [Hne|Heq].
  - simpl. rewrite IH.
    destruct (decide (x ∈ D)) as [Hin|Hnin].
    + rewrite decide_True by (by right). lia.
    + rewrite decide_False; [lia|].
      intros [->|?]%elem_of_cons; [done | done].
  - apply dec_stable in Heq as ->.
    rewrite decide_True by left.
    rewrite filter_keeps_all; [done|]. by intros z Hz ->.
Qed.

Lemma occurrences_cons {A} `{EqDecision A} (x k : A) (l : list A) :
  occurrences k (x :: l)
  = ((if decide (x = k) then 1 else 0) + occurrences k l)%nat.
Proof. unfold occurrences. rewrite filter_cons. by destruct (decide (x = k)). Qed.

Lemma occurrences_absent {A} `{EqDecision A} (k : A) (l : list A) :
  k ∉ l → occurrences k l = 0%nat.
Proof.
  intros Hk. unfold occurrences.
  destruct (filter (λ y, y = k) l) as [|y rest] eqn:Hf; [done|].
  assert (Hy : y ∈ filter (λ y, y = k) l) by (rewrite Hf; left).
  apply list_elem_of_filter in Hy as [-> Hy]. done.
Qed.

(** Every element is counted under exactly one distinct value. *)
Lemma sum_occurrences {A} `{EqDecision A} (l : list A) :
  sum_list_with (λ k, occurrences k l) (distinct l) = length l.
Proof.
  induction l as [|x l IH]; [done|]. simpl.
  rewrite occurrences_cons, decide_True by done.
  rewrite (sum_list_with_agree _ (λ k, occurrences k l)).
  2: { intros k [Hne _]%list_elem_of_filter.
       rewrite occurrences_cons, decide_False by done. done. }
  pose proof (sum_list_with_split (λ k, occurrences k l) x (distinct l)
                (distinct_NoDup l)) as Hsplit.
  rewrite IH in Hsplit.
  destruct (decide (x ∈ distinct l)) as [Hin|Hnin]; [lia|].
  rewrite occurrences_absent by (by rewrite <- distinct_elem). lia.
Qed.

Lemma distinct_constant {A} `{EqDecision A} (k : A) (l : list A) :
  (∀ x, x ∈ l → x = k) →
  distinct l = match l with [] => [] | _ :: _ => [k] end.
Proof.
  induction l as [|x l IH]; intros Hk; [done|]. simpl.
  rewrite (Hk x) by left. f_equal.
  rewrite IH by (intros y Hy; apply Hk; by right).
  destruct l; [done|]. rewrite filter_cons, decide_False; [done|].
  by intros Hne.
Qed.

Lemma members_occurrences {A K} `{EqDecision K} (key : A → K) (zs : list A) k :
  length (filter (λ zone, key zone = k) zs) = occurrences k (key <$> zs).
Proof.
  unfold occurrences. induction zs as [|z zs IH]; [done|].
  rewrite fmap_cons, !filter_cons.
  destruct (decide (key z = k)); simpl; by rewrite IH.
Qed.

Section RestaurantFacts.
Context {G : Type} `{Geometry G}.
Variable nan_object : nat → nat.

(** Every group has a zone, and every zone is in one group. *)
Lemma grouped_nonempty {A K} `{EqDecision K} (key : A → K) (shown : K → value)
    (dict : A → @result G) (zs : list A) :
  Forall (λ r, zones r ≠ []) (grouped key shown dict zs).
Proof.
  unfold grouped. rewrite Forall_fmap, Forall_forall. intros k Hk. simpl.
  apply distinct_elem, list_elem_of_fmap in Hk as (z & -> & Hz).
  assert (Hin : z ∈ filter (λ zone, key zone = key z) zs)
    by (by apply list_elem_of_filter).
  destruct (filter _ zs); [by apply elem_of_nil in Hin | done].
Qed.

Lemma grouped_total {A K} `{EqDecision K} (key : A → K) (shown : K → value)
    (dict : A → @result G) (zs : list A) :
  sum_list_with (λ r, length (zones r)) (grouped key shown dict zs) = length zs.
Proof.
  unfold grouped. rewrite <- (length_fmap key zs), <- sum_occurrences.
  generalize (distinct (key <$> zs)). intros D.
  induction D as [|k D IH]; [done|]. rewrite fmap_cons. simpl.
  rewrite IH, length_fmap. f_equal. apply members_occurrences.
Qed.

Lemma make_result_index (columns : list string) (row : @zone G) :
  is_Some (res_fields (make_result columns row) !! "index").
Proof.
  unfold make_result; simpl. rewrite foldl_entry_fields.
  case_decide; [by eexists|]. rewrite lookup_singleton_eq. by eexists.
Qed.

Lemma tagged_entries (object : nat → nat) (zs : list (@result G)) :
  (imap (λ i zone, (object i, zone)) zs).*2 = zs.
Proof.
  rewrite fmap_imap. rewrite <- (list_fmap_id zs) at 2.
  rewrite <- imap_const. by apply imap_ext.
Qed.

(** The answer of [get_restaurants_for_point]: the groups of the entries of
    [point_in_zones], each of which has its index. *)
Lemma get_restaurants_for_point_groups (self : @RTEZoneChecker G) g (lat lon : Q) :
  gdf self = Some g →
  get_restaurants_for_point nan_object self lat lon
  = Returns
      (groups_by_key
         (imap (λ i zone, (identifier_object nan_object self i, zone))
               (make_result (gdf_columns g)
                  <$> filter (λ z, contains (z_geometry z) (lon, lat) = true)
                             (gdf_rows g)))).
Proof.
  intros Hg. unfold get_restaurants_for_point, point_in_zones. rewrite Hg.
  apply group_zones_groups, Forall_forall.
  intros zone (i & entry & -> & Hentry)%elem_of_lookup_imap_1.
  apply list_elem_of_lookup_2, list_elem_of_fmap in Hentry as (row & -> & _).
  apply make_result_index.
Qed.

(** X4: the groups of [get_restaurants_for_point] share out the zones that
    contain the point: no group is without a zone, and the lengths of the
    zone lists add up to the number of zones of the store containing the
    point (so there are at most that many groups). *)
Theorem get_restaurants_for_point_partition
    (self : @RTEZoneChecker G) g (lat lon : Q) :
  gdf self = Some g →
  ∃ groups,
    get_restaurants_for_point nan_object self lat lon = Returns groups
    ∧ Forall (λ r, zones r ≠ []) groups
    ∧ sum_list_with (λ r, length (zones r)) groups
      = length (filter (λ z, contains (z_geometry z) (lon, lat) = true)
                       (gdf_rows g))
    ∧ (length groups
       ≤ length (filter (λ z, contains (z_geometry z) (lon, lat) = true)
                        (gdf_rows g)))%nat.
Proof.
  intros Hg. rewrite (get_restaurants_for_point_groups self g lat lon Hg).
  eexists. split; [reflexivity|].
  set (zs := imap _ _).
  assert (Hlen : length zs = length (filter
            (λ z, contains (z_geometry z) (lon, lat) = true) (gdf_rows g)))
    by (unfold zs; by rewrite length_imap, length_fmap).
  rewrite <- Hlen. clearbody zs. clear Hlen. unfold groups_by_key.
  pose proof (grouped_nonempty identifier_key key_value snd zs) as Hnonempty.
  pose proof (grouped_total identifier_key key_value snd zs) as Hsum.
  split; [done|]. split; [done|].
  rewrite <- Hsum. clear Hsum.
  induction Hnonempty as [|r rs Hr _ IH]; simpl; [lia|].
  destruct (zones r); [done | simpl; lia].
Qed.

(** X5: when the file has no column ['ID реста'], every zone falls under
    the identifier ['unknown']: the answer is empty if no zone contains the
    point, and otherwise one group, with the partner of the first such zone
    and the entries of all of them in row order. *)
Theorem get_restaurants_for_point_unknown
    (self : @RTEZoneChecker G) g (lat lon : Q) :
  gdf self = Some g →
  "ID реста" ∉ gdf_columns g →
  get_restaurants_for_point nan_object self lat lon
  = Returns
      match make_result (gdf_columns g)
              <$> filter (λ z, contains (z_geometry z) (lon, lat) = true)
                         (gdf_rows g) with
      | [] => []
      | first :: rest =>
          [ {| restaurant_id := VStr "unknown";
               partner := zone_get first "Партнер" (VStr "Неизвестно");
               zones := entry_of <$> first :: rest |} ]
      end.
Proof.
  intros Hg Hcol. rewrite (get_restaurants_for_point_groups self g lat lon Hg).
  f_equal. set (zs := make_result (gdf_columns g) <$> _).
  assert (Hnone : ∀ zone, zone ∈ zs → res_fields zone !! "ID реста" = None).
  { intros zone (row & -> & _)%list_elem_of_fmap.
    unfold make_result; simpl. rewrite foldl_entry_fields.
    rewrite decide_False by (by intros [? _]).
    by rewrite lookup_singleton_ne. }
  assert (Hkeys : ∀ k, k ∈ identifier_key
                             <$> imap (λ i zone, (identifier_object nan_object self i,
                                                  zone)) zs →
                       k = KeyValue (VStr "unknown")).
  { intros k (zone & -> & Hzone)%list_elem_of_fmap.
    apply elem_of_lookup_imap_1 in Hzone as (i & entry & -> & Hentry).
    unfold identifier_key. simpl.
    by rewrite (Hnone entry) by (by eapply list_elem_of_lookup_2). }
  pose proof (tagged_entries (identifier_object nan_object self) zs) as Hentries.
  clearbody zs.
  remember (imap (λ i zone, (identifier_object nan_object self i, zone)) zs)
    as tagged eqn:Htagged.
  clear Htagged Hnone.
  unfold groups_by_key, grouped. rewrite (distinct_constant _ _ Hkeys).
  destruct tagged as [|[obj entry] more]; [by rewrite <- Hentries|].
  rewrite <- Hentries, !fmap_cons. cbn [fmap list_fmap]. unfold group_of.
  rewrite filter_keeps_all.
  2: { intros zone Hzone. apply Hkeys, list_elem_of_fmap. by exists zone. }
  cbn [head from_option]. f_equal. f_equal.
  rewrite fmap_cons, <- list_fmap_compose. done.
Qed.

(** Entries that hold NaN objects of their own: at most one has a given
    object as its key. *)
Lemma own_object_members (zs : list (nat * @result G)) (i : nat) :
  NoDup zs.*1 →
  (length (filter (λ zone, identifier_key zone = KeyNaN i) zs) ≤ 1)%nat.
Proof.
  assert (Hobject : ∀ zone : nat * @result G,
            identifier_key zone = KeyNaN i → zone.1 = i).
  { intros zone. unfold identifier_key.
    destruct (res_fields zone.2 !! "ID реста") as [[]|]; by intros [=]. }
  induction zs as [|z zs IH]; intros Hnd; [simpl; lia|].
  rewrite fmap_cons in Hnd. apply NoDup_cons in Hnd as [Hz Hnd].
  rewrite filter_cons. destruct (decide (identifier_key z = KeyNaN i)) as [Hk|Hk];
    [|by apply IH].
  assert (Hnone : filter (λ zone, identifier_key zone = KeyNaN i) zs = []).
  { destruct (filter _ zs) as [|z' rest] eqn:Hf; [done|].
    assert (Hz' : z' ∈ filter (λ zone, identifier_key zone = KeyNaN i) zs)
      by (rewrite Hf; left).
    apply list_elem_of_filter in Hz' as [Hk' Hz']. destruct Hz.
    rewrite (Hobject z Hk), <- (Hobject z' Hk').
    apply list_elem_of_fmap. by exists z'. }
  by rewrite Hnone.
Qed.

Lemma positions_distinct (zs : list (@result G)) :
  NoDup (imap (λ i zone, (i, zone)) zs).*1.
Proof.
  rewrite fmap_imap.
  rewrite (imap_ext _ (λ i _, i)) by done.
  rewrite (imap_seq_0 zs (λ i, i)), list_fmap_id. apply NoDup_seq.
Qed.

(** X22: missing identifiers in a column of numbers.  When the restaurant
    identifiers were read as numbers, a zone whose identifier is missing is
    never grouped with another: every group that shows a missing
    identifier has exactly one zone, and every zone with a missing
    identifier that contains the point has such a group to itself, with its
    own partner and entry. *)
Theorem get_restaurants_for_point_missing_ids
    (self : @RTEZoneChecker G) g table (lat lon : Q) :
  gdf self = Some g →
  df self = Some table →
  numeric_column table "ID реста" = true →
  "ID реста" ∈ gdf_columns g →
  ∃ groups,
    get_restaurants_for_point nan_object self lat lon = Returns groups
    ∧ Forall (λ r, restaurant_id r = VNaN → length (zones r) = 1%nat) groups
    ∧ ∀ z, z ∈ gdf_rows g →
           contains (z_geometry z) (lon, lat) = true →
           cell (z_attrs z) "ID реста" = VNaN →
           {| restaurant_id := VNaN;
              partner := zone_get (make_result (gdf_columns g) z) "Партнер"
                                  (VStr "Неизвестно");
              zones := [entry_of (make_result (gdf_columns g) z)] |} ∈ groups.
Proof.
  intros Hg Hdf Hnum Hcol.
  rewrite (get_restaurants_for_point_groups self g lat lon Hg).
  eexists. split; [reflexivity|].
  set (zs := make_result (gdf_columns g) <$> _).
  rewrite (imap_ext _ (λ i zone, (i, zone)))
    by (intros i zone _; unfold identifier_object; by rewrite Hdf, Hnum).
  pose proof (positions_distinct zs) as Hnd.
  assert (Hzs : ∀ entry, entry ∈ zs ↔
            ∃ z, entry = make_result (gdf_columns g) z ∧ z ∈ gdf_rows g
                 ∧ contains (z_geometry z) (lon, lat) = true).
  { intros entry. unfold zs. rewrite list_elem_of_fmap. split.
    - intros (z & -> & [Hc Hz]%list_elem_of_filter). by exists z.
    - intros (z & -> & Hz & Hc). exists z. split; [done|].
      by apply list_elem_of_filter. }
  clearbody zs. set (tagged := imap (λ i zone, (i, zone)) zs) in *.
  assert (Hone : ∀ i zone, (i, zone) ∈ tagged →
            identifier_key (i, zone) = KeyNaN i →
            filter (λ other, identifier_key other = KeyNaN i) tagged = [(i, zone)]).
  { intros i zone Hin Hk.
    pose proof (own_object_members tagged i Hnd) as Hle.
    assert (Hmem : (i, zone) ∈ filter (λ other, identifier_key other = KeyNaN i) tagged)
      by (by apply list_elem_of_filter).
    destruct (filter _ tagged) as [|first [|second rest]];
      [by apply elem_of_nil in Hmem | | simpl in Hle; lia].
    by apply list_elem_of_singleton in Hmem as ->. }
  split.
  - unfold groups_by_key, grouped. rewrite Forall_fmap, Forall_forall.
    intros k Hk Hnan. simpl in Hnan.
    apply distinct_elem, list_elem_of_fmap in Hk as ([i zone] & -> & Hin).
    assert (Hkey : identifier_key (i, zone) = KeyNaN i).
    { revert Hnan. unfold identifier_key. simpl.
      by destruct (res_fields zone !! "ID реста") as [[]|]. }
    unfold group_of. cbn [zones]. by rewrite Hkey, (Hone i zone Hin Hkey).
  - intros z Hz Hc Hmissing.
    set (entry := make_result (gdf_columns g) z).
    assert (Hentry : entry ∈ zs) by (apply Hzs; by exists z).
    apply list_elem_of_lookup in Hentry as [i Hi].
    assert (Hin : (i, entry) ∈ tagged).
    { unfold tagged. apply (elem_of_lookup_imap_2 (λ i zone, (i, zone)) zs entry i Hi). }
    assert (Hkey : identifier_key (i, entry) = KeyNaN i).
    { unfold identifier_key, entry, make_result. simpl. rewrite foldl_entry_fields.
      rewrite decide_True by done. by rewrite Hmissing. }
    unfold groups_by_key, grouped. apply list_elem_of_fmap.
    exists (KeyNaN i). split.
    + unfold group_of. by rewrite (Hone i entry Hin Hkey).
    + apply distinct_elem, list_elem_of_fmap. by exists (i, entry).
Qed.

End RestaurantFacts.

(** ** Saving *)

Section SaveFacts.
Context {G : Type}.

#[local] Abbreviation bring g col :=
  (λ (sdf : DataFrame) idx,
     match list_find (λ row, z_index row = idx) (gdf_rows g) with
     | Some (_, row) => set_cell sdf idx col (cell (z_attrs row) col)
     | None => sdf
     end).

Lemma overlay_row_lookup (g : @GeoDataFrame G) col i row key :
  overlay_row g col i row !! key
  = if decide (key = col) then overlaid g col i row else row !! key.
Proof.
  unfold overlay_row, overlaid.
  destruct (list_find _ (gdf_rows g)) as [[? record]|]; destruct (decide (key = col)) as [->|];
    rewrite ?lookup_insert_eq, ?lookup_insert_ne by done; done.
Qed.

(** The loop [for idx in save_df.index] of [save_data], up to row [n]. *)
Lemma bring_rows (g : @GeoDataFrame G) col (sdf : DataFrame) (n : nat) :
  let out := foldl (bring g col) sdf (seq 0 n) in
  length (df_rows out) = length (df_rows sdf)
  ∧ (df_columns out = df_columns sdf ∨ df_columns out = df_columns sdf ++ [col])
  ∧ ∀ j, df_rows out !! j
         = (if decide (j < n)%nat then overlay_row g col j else id)
             <$> df_rows sdf !! j.
Proof.
  cbv zeta. induction n as [|n (Hlen & Hcols & Hrows)].
  - cbn [seq foldl]. split; [done|]. split; [by left|]. intros j.
    rewrite decide_False by lia. by destruct (df_rows sdf !! j).
  - rewrite seq_S, foldl_app. cbn [foldl Nat.add].
    set (out := foldl (bring g col) sdf (seq 0 n)) in *.
    destruct (list_find (λ row, z_index row = n) (gdf_rows g))
      as [[k record]|] eqn:Hfind.
    + unfold set_cell; simpl. split; [by rewrite length_alter|]. split.
      * destruct (decide (col ∈ df_columns out)) as [Hin|Hnin]; [done|].
        destruct Hcols as [Hc|Hc]; [right; by rewrite Hc|].
        destruct Hnin. rewrite Hc. apply elem_of_app. right. by left.
      * intros j. destruct (decide (n = j)) as [<-|Hne].
        -- rewrite list_lookup_alter_eq, Hrows.
           rewrite decide_False by lia. rewrite decide_True by lia.
           unfold overlay_row. rewrite Hfind.
           by destruct (df_rows sdf !! n).
        -- rewrite list_lookup_alter_ne by done. rewrite Hrows.
           destruct (decide (j < n)%nat); [by rewrite decide_True by lia|].
           by rewrite decide_False by lia.
    + split; [done|]. split; [done|]. intros j. rewrite Hrows.
      destruct (decide (n = j)) as [<-|Hne].
      * rewrite decide_False by lia. rewrite decide_True by lia.
        unfold overlay_row. rewrite Hfind. done.
      * destruct (decide (j < n)%nat); [by rewrite decide_True by lia|].
        by rewrite decide_False by lia.
Qed.

(** One turn of the loop [for col in self.gdf.columns]. *)
Lemma overlay_column_spec (g : @GeoDataFrame G) (sdf : DataFrame) col :
  let out := overlay_column g sdf col in
  length (df_rows out) = length (df_rows sdf)
  ∧ (df_columns out = df_columns sdf
     ∨ (df_columns out = df_columns sdf ++ [col]
        ∧ (col ∉ df_columns sdf) ∧ col ≠ "geometry"))
  ∧ ((col ∈ df_columns sdf ∨ col = "geometry") → out = sdf)
  ∧ (col ∉ df_columns sdf → col ≠ "geometry" →
     ∀ j, df_rows out !! j = overlay_row g col j <$> df_rows sdf !! j).
Proof.
  unfold overlay_column.
  destruct (decide (col ∈ df_columns sdf)) as [Hin|Hnin].
  { split; [done|]. split; [by left|]. split; [done|]. by intros []. }
  destruct (decide (col = "geometry")) as [Hgeo|Hgeo].
  { split; [done|]. split; [by left|]. split; [done|]. by intros _ []. }
  destruct (bring_rows g col sdf (length (df_rows sdf)))
    as (Hlen & Hcols & Hrows).
  split; [done|]. split; [destruct Hcols; [by left | by right]|].
  split; [by intros [|]|].
  intros _ _ j. rewrite Hrows.
  destruct (decide (j < length (df_rows sdf))%nat) as [|Hge]; [done|].
  rewrite (lookup_ge_None_2 (df_rows sdf) j) by lia. done.
Qed.

(** What the loop over the columns keeps of the table it starts from. *)
Lemma overlay_columns_keep (g : @GeoDataFrame G) (table : DataFrame) :
  ∀ (columns : list string) (sdf : DataFrame),
    columns ⊆ gdf_columns g →
    length (df_rows sdf) = length (df_rows table) →
    df_columns table `prefix_of` df_columns sdf →
    (∀ c, c ∈ df_columns sdf →
          c ∈ df_columns table ∨ (c ∈ gdf_columns g ∧ c ≠ "geometry")) →
    (∀ j row, df_rows table !! j = Some row →
              ∃ row', df_rows sdf !! j = Some row'
                      ∧ ∀ c, c ∈ df_columns table → row' !! c = row !! c) →
    let out := foldl (overlay_column g) sdf columns in
    length (df_rows out) = length (df_rows table)
    ∧ df_columns table `prefix_of` df_columns out
    ∧ (∀ c, c ∈ df_columns out →
            c ∈ df_columns table ∨ (c ∈ gdf_columns g ∧ c ≠ "geometry"))
    ∧ (∀ j row, df_rows table !! j = Some row →
                ∃ row', df_rows out !! j = Some row'
                        ∧ ∀ c, c ∈ df_columns table → row' !! c = row !! c).
Proof.
  induction columns as [|col columns IH]; intros sdf Hsub Hlen Hpre Hcols Hrows;
    simpl; [done|].
  destruct (overlay_column_spec g sdf col) as (Hlen' & Hcols' & Hsame & Hover).
  apply IH.
  - intros c Hc. apply Hsub. by right.
  - by rewrite Hlen'.
  - destruct Hcols' as [->|[-> _]]; [done | by apply prefix_app_r].
  - intros c Hc. destruct Hcols' as [Heq|[Heq [_ Hgeo]]]; rewrite Heq in Hc.
    + by apply Hcols.
    + apply elem_of_app in Hc as [Hc|Hc]; [by apply Hcols|].
      apply list_elem_of_singleton in Hc as ->. right. split; [|done].
      apply Hsub. by left.
  - intros j row Hj. destruct (Hrows j row Hj) as (row' & Hj' & Hsame').
    destruct (decide (col ∈ df_columns sdf ∨ col = "geometry")) as [Hskip|Hrun].
    + rewrite (Hsame Hskip). by exists row'.
    + assert (Hnin : col ∉ df_columns sdf) by tauto.
      assert (Hgeo : col ≠ "geometry") by tauto.
      rewrite (Hover Hnin Hgeo j), Hj'. simpl. eexists. split; [done|].
      intros c Hc. rewrite overlay_row_lookup.
      destruct (decide (c = col)) as [->|]; [|by apply Hsame'].
      destruct Hnin. destruct Hpre as [k ->]. apply elem_of_app. by left.
Qed.

(** X6: [save_data] to a supported name returns, and the table it writes
    keeps the table read from the file: it has as many rows, its columns
    begin with the columns read, every column it adds is a column of the
    store other than ['geometry'] (so the geometry is never written), and
    under the columns read every row has the cells read. *)
Theorem save_data_keeps_table (self : @RTEZoneChecker G) g table filename :
  gdf self = Some g →
  df self = Some table →
  endswith filename ".xlsx" || endswith filename ".csv" = true →
  ∃ out,
    save_data self filename = Returns out
    ∧ length (df_rows out) = length (df_rows table)
    ∧ df_columns table `prefix_of` df_columns out
    ∧ (∀ c, c ∈ df_columns out →
            c ∈ df_columns table ∨ (c ∈ gdf_columns g ∧ c ≠ "geometry"))
    ∧ (∀ j row, df_rows table !! j = Some row →
                ∃ row', df_rows out !! j = Some row'
                        ∧ ∀ c, c ∈ df_columns table → row' !! c = row !! c).
Proof.
  intros Hg Hdf Hext. unfold save_data. rewrite Hg, Hdf, Hext.
  eexists. split; [reflexivity|].
  apply (overlay_columns_keep g table (gdf_columns g) table); try done.
  - by left.
  - intros j row Hj. by exists row.
Qed.

Lemma overlaid_agree (g : @GeoDataFrame G) col j (row row' : gmap string value) :
  row' !! col = row !! col → overlaid g col j row' = overlaid g col j row.
Proof. unfold overlaid. by destruct (list_find _ _) as [[? ?]|]. Qed.

Lemma overlaid_again (g : @GeoDataFrame G) col j (row row' : gmap string value) :
  row' !! col = overlaid g col j row → overlaid g col j row' = overlaid g col j row.
Proof. unfold overlaid. by destruct (list_find _ _) as [[? ?]|]. Qed.

(** The loop over the columns, seen from a column [col] that the table
    read does not have. *)
Lemma overlay_columns_cell (g : @GeoDataFrame G) (table : DataFrame) col :
  col ≠ "geometry" →
  ∀ (columns : list string) (sdf : DataFrame),
    ((col ∉ df_columns sdf) ∧ col ∈ columns
     ∧ (∀ j row, df_rows table !! j = Some row →
                 ∃ row', df_rows sdf !! j = Some row' ∧ row' !! col = row !! col))
    ∨ (∀ j row, df_rows table !! j = Some row →
                ∃ row', df_rows sdf !! j = Some row'
                        ∧ row' !! col = overlaid g col j row) →
    ∀ j row, df_rows table !! j = Some row →
             ∃ row', df_rows (foldl (overlay_column g) sdf columns) !! j = Some row'
                     ∧ row' !! col = overlaid g col j row.
Proof.
  intros Hgeo. induction columns as [|c columns IH]; intros sdf Hstate.
  { destruct Hstate as [(_ & Hin & _)|Hdone]; [by apply elem_of_nil in Hin | done]. }
  cbn [foldl]. apply IH.
  destruct (overlay_column_spec g sdf c) as (_ & Hcols & Hsame & Hover).
  destruct (decide (c ∈ df_columns sdf ∨ c = "geometry")) as [Hskip|Hrun].
  { rewrite (Hsame Hskip). destruct Hstate as [(Hnin & Hin & Hrows)|Hdone];
      [left | by right].
    split; [done|]. split; [|done].
    apply elem_of_cons in Hin as [->|Hin]; [|done].
    destruct Hskip as [Hc|Hc]; [by destruct Hnin | by destruct Hgeo]. }
  assert (Hc : c ∉ df_columns sdf) by tauto.
  assert (Hcgeo : c ≠ "geometry") by tauto.
  specialize (Hover Hc Hcgeo).
  destruct Hstate as [(Hnin & Hin & Hrows)|Hdone].
  - destruct (decide (c = col)) as [->|Hne].
    + right. intros j row Hj. destruct (Hrows j row Hj) as (row' & Hj' & Hcell).
      rewrite Hover, Hj'. simpl. eexists. split; [done|].
      rewrite overlay_row_lookup, decide_True by done.
      by apply overlaid_agree.
    + left. split; [|split].
      * destruct Hcols as [->|[-> _]]; [done|].
        rewrite elem_of_app, list_elem_of_singleton. intros [?|?]; [done|].
        by destruct Hne.
      * apply elem_of_cons in Hin as [->|Hin]; [by destruct Hne | done].
      * intros j row Hj. destruct (Hrows j row Hj) as (row' & Hj' & Hcell).
        rewrite Hover, Hj'. simpl. eexists. split; [done|].
        rewrite overlay_row_lookup, decide_False by done. done.
  - right. intros j row Hj. destruct (Hdone j row Hj) as (row' & Hj' & Hcell).
    rewrite Hover, Hj'. simpl. eexists. split; [done|].
    rewrite overlay_row_lookup. destruct (decide (col = c)) as [->|]; [|done].
    by apply overlaid_again.
Qed.

Lemma find_record (g : @GeoDataFrame G) z :
  NoDup (z_index <$> gdf_rows g) →
  z ∈ gdf_rows g →
  ∃ k, list_find (λ record, z_index record = z_index z) (gdf_rows g) = Some (k, z).
Proof.
  intros Hnd Hz.
  destruct (list_find_elem_of (λ record, z_index record = z_index z)
              (gdf_rows g) z Hz eq_refl) as [[k z'] Hfind].
  exists k. rewrite Hfind. do 2 f_equal.
  apply list_find_Some in Hfind as (Hk & Hidx & _).
  apply list_elem_of_lookup in Hz as [k' Hk'].
  assert (k = k'); [|congruence].
  apply (NoDup_lookup (z_index <$> gdf_rows g) k k' (z_index z)); [done|..].
  - by rewrite list_lookup_fmap, Hk, <- Hidx.
  - by rewrite list_lookup_fmap, Hk'.
Qed.

(** X7: a column of the store that the table read does not have (the
    city) goes to the table written by index: the row at position [j]
    gets the cell of the store's record of index [j], and a row without a
    record in the store keeps what it had under that name (for a table as
    read: nothing, a missing value). *)
Theorem save_data_overlay (self : @RTEZoneChecker G) g table filename col :
  gdf self = Some g →
  df self = Some table →
  endswith filename ".xlsx" || endswith filename ".csv" = true →
  NoDup (z_index <$> gdf_rows g) →
  col ∈ gdf_columns g →
  col ∉ df_columns table →
  col ≠ "geometry" →
  ∃ out,
    save_data self filename = Returns out
    ∧ ∀ j row, df_rows table !! j = Some row →
        ∃ row', df_rows out !! j = Some row'
          ∧ (∀ z, z ∈ gdf_rows g → z_index z = j →
                  row' !! col = Some (cell (z_attrs z) col))
          ∧ ((∀ z, z ∈ gdf_rows g → z_index z ≠ j) → row' !! col = row !! col).
Proof.
  intros Hg Hdf Hext Hnd Hcol Hnew Hgeo. unfold save_data. rewrite Hg, Hdf, Hext.
  eexists. split; [reflexivity|]. intros j row Hj.
  destruct (overlay_columns_cell g table col Hgeo (gdf_columns g) table) with j row
    as (row' & Hj' & Hcell); [|done|].
  { left. split; [done|]. split; [done|]. intros j' r Hr. by exists r. }
  exists row'. split; [done|]. rewrite Hcell. unfold overlaid. split.
  - intros z Hz <-. destruct (find_record g z Hnd Hz) as [k ->]. done.
  - intros Hnone. destruct (list_find _ (gdf_rows g)) as [[k z]|] eqn:Hfind; [|done].
    apply list_find_Some in Hfind as (Hk & Hidx & _).
    destruct (Hnone z); [|done]. apply list_elem_of_lookup. by exists k.
Qed.

Lemma overlay_columns_skip (g : @GeoDataFrame G) :
  ∀ (columns : list string) (sdf : DataFrame),
    (∀ c, c ∈ columns → c ∈ df_columns sdf ∨ c = "geometry") →
    foldl (overlay_column g) sdf columns = sdf.
Proof.
  induction columns as [|c columns IH]; intros sdf Hall; [done|]. cbn [foldl].
  destruct (overlay_column_spec g sdf c) as (_ & _ & Hsame & _).
  rewrite Hsame by (apply Hall; left).
  apply IH. intros c' Hc'. apply Hall. by right.
Qed.

(** X8: saving a store as [load_data] built it, to a supported name,
    writes the table that was read, unchanged. *)
Theorem save_data_after_load (loads : string → option G)
    polygons_file table self filename :
  load_data loads polygons_file table = Returns self →
  endswith filename ".xlsx" || endswith filename ".csv" = true →
  save_data self filename = Returns table.
Proof.
  intros Hload Hext.
  destruct (load_data_inv loads _ _ _ Hload) as [Hfile Hcol].
  rewrite (load_data_returns loads _ _ Hfile Hcol) in Hload.
  injection Hload as <-. unfold save_data; simpl. rewrite Hext.
  rewrite overlay_columns_skip; [done|].
  intros c Hc. destruct (decide ("geometry" ∈ df_columns table)); [by left|].
  apply elem_of_app in Hc as [Hc|Hc]; [by left|].
  right. by apply list_elem_of_singleton in Hc.
Qed.

Lemma bring_nothing (g : @GeoDataFrame G) col :
  ∀ (idxs : list nat) (sdf : DataFrame),
    (∀ idx, idx ∈ idxs → ∀ z, z ∈ gdf_rows g → z_index z ≠ idx) →
    foldl (bring g col) sdf idxs = sdf.
Proof.
  induction idxs as [|idx idxs IH]; intros sdf Hnone; [done|]. cbn [foldl].
  destruct (list_find _ (gdf_rows g)) as [[k z]|] eqn:Hfind.
  - apply list_find_Some in Hfind as (Hk & Hidx & _).
    assert (Hhere : idx ∈ idx :: idxs) by left.
    destruct (Hnone idx Hhere z); [|done].
    apply list_elem_of_lookup. by exists k.
  - apply IH. intros idx' Hidx'. apply Hnone. by right.
Qed.

(** X9: when no record of the store has the index of a row of the table
    read (an empty store, for one), [save_data] writes the table read as it
    is: a column is only added at the first cell written into it. *)
Theorem save_data_no_record (self : @RTEZoneChecker G) g table filename :
  gdf self = Some g →
  df self = Some table →
  endswith filename ".xlsx" || endswith filename ".csv" = true →
  (∀ z, z ∈ gdf_rows g → (length (df_rows table) ≤ z_index z)%nat) →
  save_data self filename = Returns table.
Proof.
  intros Hg Hdf Hext Hout. unfold save_data. rewrite Hg, Hdf, Hext. f_equal.
  generalize (gdf_columns g). intros columns.
  induction columns as [|c columns IH]; [done|]. cbn [foldl].
  replace (overlay_column g table c) with table; [done|].
  unfold overlay_column. destruct (decide _); [done|].
  destruct (decide _); [done|]. rewrite bring_nothing; [done|].
  intros idx Hidx%elem_of_seq z Hz Heq. specialize (Hout z Hz). lia.
Qed.

End SaveFacts.

(** ** More on city enrichment *)

Section PassFacts.
Context {G : Type}.
Variable centroid : G → option point.
Variable requests_get : nat → Q → Q → http_result.

#[local] Abbreviation loop := (add_city_loop centroid requests_get).
#[local] Abbreviation after := (enriched centroid requests_get).
#[local] Abbreviation asked := (lookups centroid requests_get).
#[local] Abbreviation answer := (get_city_from_geometry centroid requests_get).

Lemma same_but_city_trans (a b c : @zone G) :
  same_but_city a b → same_but_city b c → same_but_city a c.
Proof.
  intros (Hi & Hg & Ha) (Hi' & Hg' & Ha'). repeat split; [congruence..|].
  intros key Hkey. by rewrite Ha', Ha.
Qed.

Lemma same_but_city_all (rows : list (@zone G)) : Forall2 same_but_city rows rows.
Proof. induction rows; constructor; [apply same_but_city_refl | done]. Qed.

(** Whatever way the loop ends, the rows are those it started from, record
    by record, up to their city. *)
Lemma add_city_loop_rows self columns save_file batch_size :
  ∀ todo done processed,
    ∃ todo',
      (loop self columns save_file batch_size done todo processed).1.1
      = done ++ todo'
      ∧ Forall2 same_but_city todo todo'.
Proof.
  induction todo as [|row rest IH]; intros done processed; cbn [add_city_loop].
  { exists []. split; [by rewrite app_nil_r | constructor]. }
  assert (Hstop : ∀ city,
    ∃ todo', done ++ set_city row city :: rest = done ++ todo'
             ∧ Forall2 same_but_city (row :: rest) todo').
  { intros city. eexists. split; [reflexivity|].
    constructor; [apply same_but_city_set | apply same_but_city_all]. }
  assert (Hgo : ∀ row' processed',
    same_but_city row row' →
    ∃ todo',
      (loop self columns save_file batch_size (done ++ [row']) rest processed').1.1
      = done ++ todo'
      ∧ Forall2 same_but_city (row :: rest) todo').
  { intros row' processed' Hrow.
    destruct (IH (done ++ [row']) processed') as (rest' & -> & Hrest).
    exists (row' :: rest'). split; [by rewrite <- app_assoc|]. by constructor. }
  destruct (pending row); [|apply Hgo, same_but_city_refl].
  destruct (refused _ _).
  { exists (row :: rest). split; [done | apply same_but_city_all]. }
  destruct (batch_size =? 0)%Z; [apply Hstop|].
  destruct (_ && _).
  - destruct (save_data _ _); [|apply Hstop].
    specialize (Hgo (set_city row (answer processed (z_geometry row)))
                    (S processed) (same_but_city_set _ _)).
    destruct (loop _ _ _ _ _ rest _) as [[rows events] exn]. exact Hgo.
  - specialize (Hgo (set_city row (answer processed (z_geometry row)))
                    (S processed) (same_but_city_set _ _)).
    destruct (loop _ _ _ _ _ rest _) as [[rows events] exn]. exact Hgo.
Qed.

(** X10: whatever its arguments and however it ends, [add_city_column]
    leaves in the store the records it found, in their order, each with its
    index, its geometry and all its attributes other than the city; the
    columns gain at most ['city']; the table read and the file name are not
    touched. *)
Theorem add_city_column_keeps_records
    (self : @RTEZoneChecker G) g save_file batch_size :
  gdf self = Some g →
  ∃ g',
    gdf (add_city_column centroid requests_get self save_file batch_size).1.1
    = Some g'
    ∧ Forall2 same_but_city (gdf_rows g) (gdf_rows g')
    ∧ (gdf_columns g' = gdf_columns g ∨ gdf_columns g' = gdf_columns g ++ ["city"])
    ∧ df (add_city_column centroid requests_get self save_file batch_size).1.1
      = df self
    ∧ polygons_file
        (add_city_column centroid requests_get self save_file batch_size).1.1
      = polygons_file self.
Proof.
  intros Hg. unfold add_city_column. rewrite Hg.
  destruct (add_city_loop_rows self (gdf_columns (ensure_city g)) save_file
              batch_size (gdf_rows (ensure_city g)) [] 0%nat)
    as (rows' & Hrows & Hsame).
  destruct (loop _ _ _ _ _ _ _) as [[rows events] exn]. simpl in Hrows. subst rows.
  assert (Hensure : Forall2 same_but_city (gdf_rows g) (gdf_rows (ensure_city g))
                    ∧ (gdf_columns (ensure_city g) = gdf_columns g
                       ∨ gdf_columns (ensure_city g) = gdf_columns g ++ ["city"])).
  { unfold ensure_city. destruct (decide _); simpl.
    - split; [apply same_but_city_all | by left].
    - split; [|by right]. apply Forall2_fmap_r, Forall_Forall2_diag, Forall_forall.
      intros row _. apply same_but_city_set. }
  destruct Hensure as [Hfirst Hcols].
  assert (Hall : Forall2 same_but_city (gdf_rows g) rows').
  { eapply Forall2_trans; [apply same_but_city_trans|exact Hfirst|exact Hsame]. }
  exists {| gdf_columns := gdf_columns (ensure_city g); gdf_rows := rows' |}.
  destruct exn; [done|]. destruct (truthy save_file); [|done].
  by destruct (save_data _ _).
Qed.

Lemma looked_up_app (a b : list event) :
  looked_up (a ++ b) = looked_up a ++ looked_up b.
Proof. unfold looked_up. apply omap_app. Qed.

(** The lookups of the loop: those of some first pending rows, and of all
    of them when the loop ends without exception, in which case the rows
    are the [enriched] ones. *)
Lemma add_city_loop_lookups self columns save_file batch_size :
  ∀ todo done processed,
    filter (λ e, attempted e = true)
           (loop self columns save_file batch_size done todo processed).1.2
      `prefix_of` asked processed todo
    ∧ ((loop self columns save_file batch_size done todo processed).2 = None →
       filter (λ e, attempted e = true)
              (loop self columns save_file batch_size done todo processed).1.2
       = asked processed todo
       ∧ (loop self columns save_file batch_size done todo processed).1.1
         = done ++ after processed todo).
Proof.
  induction todo as [|row rest IH]; intros done processed;
    cbn [add_city_loop enriched lookups].
  { split; [done|]. intros _. by rewrite app_nil_r. }
  destruct (pending row).
  2: { destruct (IH (done ++ [row]) processed) as [Hpre Hok].
       split; [done|]. intros Hnone. destruct (Hok Hnone) as [-> ->].
       by rewrite <- app_assoc. }
  set (city := answer processed (z_geometry row)).
  assert (Hone : filter (λ e, attempted e = true) [EvLookup (z_index row) city]
                 `prefix_of` EvLookup (z_index row) city :: asked (S processed) rest).
  { rewrite filter_cons, filter_nil. simpl. apply prefix_cons, prefix_nil. }
  destruct (refused self city); [by split|].
  destruct (batch_size =? 0)%Z; [by split|].
  destruct (IH (done ++ [set_city row city]) (S processed)) as [Hpre Hok].
  destruct (_ && _).
  - destruct (save_data _ _) as [table|e]; [|by split].
    destruct (loop _ _ _ _ _ rest _) as [[rows events] exn]. simpl in *.
    rewrite !filter_cons. simpl. split; [by apply prefix_cons|].
    intros Hnone. destruct (Hok Hnone) as [-> ->]. by rewrite <- app_assoc.
  - destruct (loop _ _ _ _ _ rest _) as [[rows events] exn]. simpl in *.
    rewrite !filter_cons. simpl. split; [by apply prefix_cons|].
    intros Hnone. destruct (Hok Hnone) as [-> ->]. by rewrite <- app_assoc.
Qed.

Lemma looked_up_attempted (events : list event) :
  looked_up (filter (λ e, attempted e = true) events) = looked_up events.
Proof.
  unfold looked_up. induction events as [|[idx city|f table] events IH]; [done|..].
  - rewrite filter_cons, decide_True by done. csimpl. by rewrite IH.
  - rewrite filter_cons, decide_False by done. csimpl. done.
Qed.

Lemma looked_up_asked n (rows : list (@zone G)) :
  looked_up (asked n rows) = z_index <$> filter (λ row, pending row = true) rows.
Proof.
  revert n. induction rows as [|row rows IH]; intros n; [done|].
  cbn [lookups]. rewrite filter_cons. destruct (pending row) eqn:Hp.
  - rewrite decide_True by done. unfold looked_up in *. csimpl. by rewrite IH.
  - rewrite decide_False by done. apply IH.
Qed.

(** The whole call: its lookups, and the store it leaves when it ends
    without exception. *)
Lemma add_city_column_lookups (self : @RTEZoneChecker G) g save_file batch_size :
  gdf self = Some g →
  filter (λ e, attempted e = true)
         (add_city_column centroid requests_get self save_file batch_size).1.2
    `prefix_of` asked 0 (gdf_rows (ensure_city g))
  ∧ ((add_city_column centroid requests_get self save_file batch_size).2 = None →
     filter (λ e, attempted e = true)
            (add_city_column centroid requests_get self save_file batch_size).1.2
     = asked 0 (gdf_rows (ensure_city g))
     ∧ (add_city_column centroid requests_get self save_file batch_size).1.1
       = with_rows self (gdf_columns (ensure_city g))
                   (after 0 (gdf_rows (ensure_city g)))).
Proof.
  intros Hg. unfold add_city_column. rewrite Hg.
  destruct (add_city_loop_lookups self (gdf_columns (ensure_city g)) save_file
              batch_size (gdf_rows (ensure_city g)) [] 0%nat) as [Hpre Hok].
  destruct (loop _ _ _ _ _ _ _) as [[rows events] exn]. simpl in Hpre, Hok.
  destruct exn as [e|]; [by split|].
  destruct (Hok eq_refl) as [Hev ->].
  destruct (truthy save_file); [|by split].
  destruct (save_data _ _) as [table|e]; simpl; [|by split].
  rewrite filter_app, filter_cons, filter_nil. simpl. rewrite app_nil_r.
  by split.
Qed.

(** X11: [add_city_column] looks up pending records only, in row order and
    each at most once: the indices looked up are those of the first so many
    pending rows of the store (of all rows, when the city column is new),
    and of all pending rows when the call ends without exception. *)
Theorem add_city_column_looks_up_pending
    (self : @RTEZoneChecker G) g save_file batch_size :
  gdf self = Some g →
  looked_up (add_city_column centroid requests_get self save_file batch_size).1.2
    `prefix_of` (z_index <$> filter (λ row, pending row = true)
                                    (gdf_rows (ensure_city g)))
  ∧ ((add_city_column centroid requests_get self save_file batch_size).2 = None →
     looked_up (add_city_column centroid requests_get self save_file batch_size).1.2
     = z_index <$> filter (λ row, pending row = true)
                          (gdf_rows (ensure_city g))).
Proof.
  intros Hg.
  destruct (add_city_column_lookups self g save_file batch_size Hg) as [Hpre Hok].
  rewrite <- looked_up_attempted, <- (looked_up_asked 0). split.
  - destruct Hpre as [k ->]. rewrite looked_up_app. by apply prefix_app_r.
  - intros Hnone. by destruct (Hok Hnone) as [-> _].
Qed.

Lemma add_city_loop_skip self columns save_file batch_size (pre : list (@zone G)) :
  Forall (λ row, pending row = false) pre →
  ∀ todo done processed,
    loop self columns save_file batch_size done (pre ++ todo) processed
    = loop self columns save_file batch_size (done ++ pre) todo processed.
Proof.
  induction 1 as [|row pre Hrow _ IH]; intros todo done processed.
  - by rewrite app_nil_r.
  - cbn [app add_city_loop]. rewrite Hrow, IH, <- app_assoc. done.
Qed.

(** X12: a batch size of zero.  On a store whose city column was made by a
    pass or read with text in it, with a service that answers with a text
    or not at all:
    when some record is pending, the call is ended by [ZeroDivisionError]
    right after the first lookup, with or without an output path.  The
    first pending record has the answer of that lookup in its city cell and
    is otherwise what it was, no other record is looked up or touched, and
    nothing is saved. *)
Theorem add_city_column_zero_batch
    (self : @RTEZoneChecker G) g save_file pre row post :
  gdf self = Some g →
  gdf_rows (ensure_city g) = pre ++ row :: post →
  Forall (λ row, pending row = false) pre →
  pending row = true →
  numeric_city self = false →
  answers_text requests_get →
  ∃ row',
    add_city_column centroid requests_get self save_file 0
    = (with_rows self (gdf_columns (ensure_city g)) (pre ++ row' :: post),
       [EvLookup (z_index row) (answer 0 (z_geometry row))],
       Some ZeroDivisionError)
    ∧ same_but_city row row'
    ∧ z_attrs row' !! "city"
      = Some (from_option VStr VNaN (answer 0 (z_geometry row))).
Proof.
  intros Hg Hrows Hpre Hrow Hnum _. unfold add_city_column. rewrite Hg, Hrows.
  rewrite add_city_loop_skip by done. cbn [add_city_loop].
  rewrite Hrow, (accepted _ _ Hnum). cbn [Z.eqb].
  eexists. split; [reflexivity|]. split; [apply same_but_city_set|].
  simpl. by rewrite lookup_insert_eq.
Qed.

Lemma add_city_loop_unsupported self table columns filename batch_size :
  df self = Some table →
  endswith filename ".xlsx" || endswith filename ".csv" = false →
  batch_size ≠ 0%Z →
  numeric_city self = false →
  ∀ todo done processed,
    Forall (λ e, attempted e = true)
           (loop self columns (Some filename) batch_size done todo processed).1.2
    ∧ ((loop self columns (Some filename) batch_size done todo processed).2 = None
       ∨ (loop self columns (Some filename) batch_size done todo processed).2
         = Some (ValueError "Поддерживаются только форматы .xlsx и .csv")).
Proof.
  intros Hdf Hext HN Hnum. apply Z.eqb_neq in HN.
  induction todo as [|row rest IH]; intros done processed; cbn [add_city_loop].
  { split; [constructor | by left]. }
  destruct (pending row); [|apply IH]. rewrite (accepted _ _ Hnum), HN.
  destruct (IH (done ++ [set_city row (answer processed (z_geometry row))])
               (S processed)) as [Hev Hexn].
  destruct (_ && _).
  - unfold save_data, with_rows. simpl. rewrite Hdf, Hext.
    split; [by repeat constructor | by right].
  - destruct (loop _ _ _ _ _ rest _) as [[rows events] exn]. simpl in *.
    split; [by constructor | done].
Qed.

(** X13: an output path that is given but ends neither in .xlsx nor in
    .csv.  With a batch size other than zero, on a store whose city column
    was made by a pass or read with text in it, with a service that answers
    with a text or not at all, the call always ends with the [ValueError] of [save_data], at the
    first checkpoint or at the final save, and no file is ever written: the
    lookups made are lost. *)
Theorem add_city_column_unsupported_path
    (self : @RTEZoneChecker G) g table filename batch_size :
  gdf self = Some g →
  df self = Some table →
  truthy (Some filename) = true →
  endswith filename ".xlsx" || endswith filename ".csv" = false →
  batch_size ≠ 0%Z →
  numeric_city self = false →
  answers_text requests_get →
  (add_city_column centroid requests_get self (Some filename) batch_size).2
  = Some (ValueError "Поддерживаются только форматы .xlsx и .csv")
  ∧ Forall (λ e, attempted e = true)
           (add_city_column centroid requests_get self (Some filename) batch_size).1.2.
Proof.
  intros Hg Hdf Hfile Hext HN Hnum _. unfold add_city_column. rewrite Hg.
  pose proof (add_city_loop_unsupported self table (gdf_columns (ensure_city g))
                filename batch_size Hdf Hext HN Hnum (gdf_rows (ensure_city g)) []
                0%nat) as [Hev Hexn].
  destruct (loop _ _ _ _ _ _ _) as [[rows events] exn]. simpl in *.
  destruct Hexn as [->| ->]; [|done].
  rewrite Hfile. unfold save_data, with_rows. simpl. rewrite Hdf, Hext. done.
Qed.

#[local] Abbreviation cities rows := ((λ row : @zone G, cell (z_attrs row) "city") <$> rows).

(** In a column of numbers the loop stores no city: it writes missing
    values only, and stops at the first city found. *)
Lemma add_city_loop_refuses self columns save_file batch_size :
  numeric_city self = true →
  ∀ todo done processed,
    Forall (λ row, ∀ s, cell (z_attrs row) "city" ≠ VStr s) todo →
    cities (loop self columns save_file batch_size done todo processed).1.1
    = cities (done ++ todo)
    ∧ ∀ idx city,
        EvLookup idx (Some city)
          ∈ (loop self columns save_file batch_size done todo processed).1.2 →
        (loop self columns save_file batch_size done todo processed).2
        = Some TypeError
        ∧ last (loop self columns save_file batch_size done todo processed).1.2
          = Some (EvLookup idx (Some city)).
Proof.
  intros Hnum.
  induction todo as [|row rest IH]; intros done processed Htext; cbn [add_city_loop].
  { split; [by rewrite app_nil_r|]. by intros idx city ?%elem_of_nil. }
  apply Forall_cons in Htext as [Hrow Htext].
  destruct (pending row) eqn:Hpending.
  2: { replace (done ++ row :: rest) with ((done ++ [row]) ++ rest)
         by (by rewrite <- app_assoc).
       by apply IH. }
  destruct (answer processed (z_geometry row)) as [found|] eqn:Hanswer.
  { cbn [refused]. rewrite Hnum. cbn [fst snd]. split; [done|].
    by intros idx city [[= -> ->]|?%elem_of_nil]%elem_of_cons. }
  cbn [refused].
  assert (Hcell : cities (done ++ set_city row None :: rest)
                  = cities (done ++ row :: rest)).
  { rewrite !fmap_app, !fmap_cons. do 2 f_equal.
    unfold cell at 1. simpl. rewrite lookup_insert_eq. simpl.
    revert Hpending Hrow. unfold pending.
    destruct (cell (z_attrs row) "city") as [|s|]; [done| |done].
    intros _ Hs. by destruct (Hs s). }
  assert (Hnone : ∀ idx city, EvLookup idx (Some city) ∈ [EvLookup (z_index row) None] →
            Some ZeroDivisionError = Some TypeError
            ∧ last [EvLookup (z_index row) None] = Some (EvLookup idx (Some city))).
  { by intros idx city [[=]|?%elem_of_nil]%elem_of_cons. }
  destruct (batch_size =? 0)%Z; [by split|].
  destruct (IH (done ++ [set_city row None]) (S processed) Htext) as [Hcells Hfound].
  replace ((done ++ [set_city row None]) ++ rest)
    with (done ++ set_city row None :: rest) in Hcells by (by rewrite <- app_assoc).
  rewrite Hcell in Hcells.
  destruct (_ && _).
  - destruct (save_data _ _) as [table|e].
    2: { cbn [fst snd]. split; [done|].
         by intros idx city [[=]|?%elem_of_nil]%elem_of_cons. }
    destruct (loop _ _ _ _ _ rest _) as [[rows events] exn]. cbn [fst snd] in *.
    split; [done|].
    intros idx city [[=]|[[=]|Hin]%elem_of_cons]%elem_of_cons.
    destruct (Hfound idx city Hin) as [-> Hlast]. split; [done|].
    by rewrite !last_cons, Hlast.
  - destruct (loop _ _ _ _ _ rest _) as [[rows events] exn]. cbn [fst snd] in *.
    split; [done|].
    intros idx city [[=]|Hin]%elem_of_cons.
    destruct (Hfound idx city Hin) as [-> Hlast]. split; [done|].
    by rewrite last_cons, Hlast.
Qed.

(** X23: a city column read as numbers.  When the file has a city column
    with no text in it (an empty column, say), pandas has made it a column
    of floats, and the pass cannot store a city: with a service that
    answers with a text or not at all, the first lookup that finds a city
    ends the call with [TypeError], that lookup being its last event, and
    the city cells of the store stay as they were. *)
Theorem add_city_column_refuses_text
    (self : @RTEZoneChecker G) g save_file batch_size :
  gdf self = Some g →
  numeric_city self = true →
  Forall (λ row, ∀ s, cell (z_attrs row) "city" ≠ VStr s) (gdf_rows g) →
  answers_text requests_get →
  ∃ g',
    gdf (add_city_column centroid requests_get self save_file batch_size).1.1
    = Some g'
    ∧ cities (gdf_rows g') = cities (gdf_rows g)
    ∧ ∀ idx city,
        EvLookup idx (Some city)
          ∈ (add_city_column centroid requests_get self save_file batch_size).1.2 →
        (add_city_column centroid requests_get self save_file batch_size).2
        = Some TypeError
        ∧ last (add_city_column centroid requests_get self save_file batch_size).1.2
          = Some (EvLookup idx (Some city)).
Proof.
  intros Hg Hnum Htext _. unfold add_city_column. rewrite Hg.
  assert (Hsame : ensure_city g = g).
  { unfold ensure_city. rewrite decide_True; [done|].
    revert Hnum. unfold numeric_city. rewrite Hg. destruct (df self); [|done].
    by intros [Hcol%bool_decide_eq_true _]%andb_true_iff. }
  rewrite Hsame.
  destruct (add_city_loop_refuses self (gdf_columns g) save_file batch_size Hnum
              (gdf_rows g) [] 0%nat Htext) as [Hcells Hfound].
  destruct (loop _ _ _ _ _ _ _) as [[rows events] exn]. cbn [fst snd] in *.
  exists {| gdf_columns := gdf_columns g; gdf_rows := rows |}.
  destruct exn as [e|]; [by split|].
  assert (Hnone : ∀ idx city, EvLookup idx (Some city) ∉ events).
  { intros idx city Hin. by destruct (Hfound idx city Hin). }
  destruct (truthy save_file); [|split; [done|]; split; [done|];
    intros idx city Hin; by destruct (Hnone idx city)].
  destruct (save_data _ _) as [table|e]; cbn [fst snd];
    (split; [done|]; split; [done|]); intros idx city Hin.
  - apply elem_of_app in Hin as [Hin|[[=]|Hin%elem_of_nil]%elem_of_cons];
      [by destruct (Hnone idx city) | done].
  - by destruct (Hnone idx city).
Qed.

Lemma after_indices n (rows : list (@zone G)) :
  z_index <$> after n rows = z_index <$> rows.
Proof.
  revert n. induction rows as [|row rows IH]; intros n; [done|].
  cbn [enriched]. destruct (pending row); rewrite !fmap_cons, IH; done.
Qed.

Lemma ensure_city_indices (g : @GeoDataFrame G) :
  z_index <$> gdf_rows (ensure_city g) = z_index <$> gdf_rows g.
Proof.
  unfold ensure_city. destruct (decide _); [done|]. simpl.
  by rewrite <- list_fmap_compose.
Qed.

Lemma ensure_city_column (g : @GeoDataFrame G) : "city" ∈ gdf_columns (ensure_city g).
Proof.
  unfold ensure_city. destruct (decide _); [done|]. simpl.
  apply elem_of_app. right. by left.
Qed.

Lemma filled_not_pending (row : @zone G) city :
  city ≠ "" → pending (set_city row (Some city)) = false.
Proof.
  intros Hcity. unfold pending, cell, set_city. simpl.
  rewrite lookup_insert_eq. simpl. by destruct city.
Qed.

(** After a pass, the pending rows are among those that were pending. *)
Lemma pending_after n (rows : list (@zone G)) :
  (z_index <$> filter (λ row, pending row = true) (after n rows))
    `sublist_of` (z_index <$> filter (λ row, pending row = true) rows).
Proof.
  revert n. induction rows as [|row rows IH]; intros n; [done|].
  cbn [enriched]. destruct (pending row) eqn:Hrow.
  - rewrite (filter_cons _ row), decide_True by done. rewrite filter_cons.
    destruct (decide _); rewrite !fmap_cons;
      [by apply sublist_skip | by apply sublist_cons].
  - rewrite !filter_cons, !decide_False by (by rewrite Hrow). apply IH.
Qed.

Lemma asked_indices n (rows : list (@zone G)) idx city :
  EvLookup idx city ∈ asked n rows → idx ∈ z_index <$> rows.
Proof.
  revert n. induction rows as [|row rows IH]; intros n; cbn [lookups].
  - by intros ?%elem_of_nil.
  - rewrite fmap_cons. destruct (pending row).
    + intros [[= -> _]|Hin]%elem_of_cons; [by left|]. right. by eapply IH.
    + intros Hin. right. by eapply IH.
Qed.

Lemma filled_not_asked_again n (rows : list (@zone G)) idx city :
  NoDup (z_index <$> rows) →
  EvLookup idx (Some city) ∈ asked n rows →
  city ≠ "" →
  idx ∉ z_index <$> filter (λ row, pending row = true) (after n rows).
Proof.
  revert n. induction rows as [|row rows IH]; intros n Hnd; cbn [lookups enriched].
  { by intros ?%elem_of_nil. }
  rewrite fmap_cons in Hnd. apply NoDup_cons in Hnd as [Hrow Hnd].
  assert (Hrest : ∀ m, z_index row
                       ∉ z_index <$> filter (λ r, pending r = true) (after m rows)).
  { intros m (r & Hidx & [_ Hr]%list_elem_of_filter)%list_elem_of_fmap.
    apply Hrow. rewrite <- (after_indices m). apply list_elem_of_fmap. by exists r. }
  destruct (pending row) eqn:Hpending.
  - intros [[= -> Hans]|Hin]%elem_of_cons Hcity.
    + rewrite <- Hans, filter_cons, (filled_not_pending row city Hcity).
      rewrite decide_False by done. apply Hrest.
    + rewrite filter_cons. destruct (decide _); [|by apply IH].
      rewrite fmap_cons. simpl. intros [->|Hidx]%elem_of_cons.
      * apply Hrow. by eapply asked_indices.
      * by apply (IH (S n) Hnd Hin Hcity).
  - intros Hin Hcity. rewrite filter_cons, decide_False by (by rewrite Hpending).
    by apply IH.
Qed.

End PassFacts.

Section SecondPass.
Context {G : Type}.
Variable centroid : G → option point.
Variable requests_get : nat → Q → Q → http_result.

#[local] Abbreviation after := (enriched centroid requests_get).
#[local] Abbreviation asked := (lookups centroid requests_get).

(** X14: running the pass again.  After a pass that ended without exception,
    a second pass (whatever its arguments and the answers it gets) looks up
    only records that the first looked up, in the same order, and none of
    those for which the first got a non-empty city. *)
Theorem add_city_column_second_pass (self : @RTEZoneChecker G) g
    save_file batch_size save_file' batch_size'
    (requests_again : nat → Q → Q → http_result) :
  gdf self = Some g →
  NoDup (z_index <$> gdf_rows g) →
  (add_city_column centroid requests_get self save_file batch_size).2 = None →
  looked_up
    (add_city_column centroid requests_again
       (add_city_column centroid requests_get self save_file batch_size).1.1
       save_file' batch_size').1.2
    `sublist_of`
    looked_up (add_city_column centroid requests_get self save_file batch_size).1.2
  ∧ ∀ idx city,
      EvLookup idx (Some city)
        ∈ (add_city_column centroid requests_get self save_file batch_size).1.2 →
      city ≠ "" →
      idx ∉ looked_up
              (add_city_column centroid requests_again
                 (add_city_column centroid requests_get self save_file
                                  batch_size).1.1
                 save_file' batch_size').1.2.
Proof.
  intros Hg Hnd Hnone.
  destruct (add_city_column_lookups centroid requests_get self g save_file
              batch_size Hg) as [_ Hok].
  destruct (Hok Hnone) as [Hasked Hself]. clear Hok.
  set (rows := gdf_rows (ensure_city g)) in *.
  set (g1 := {| gdf_columns := gdf_columns (ensure_city g);
                gdf_rows := after 0 rows |}).
  assert (Hg1 : gdf (add_city_column centroid requests_get self save_file
                       batch_size).1.1 = Some g1) by (by rewrite Hself).
  assert (Hsame : ensure_city g1 = g1).
  { unfold ensure_city. rewrite decide_True; [done|]. apply ensure_city_column. }
  assert (Hagain : looked_up
            (add_city_column centroid requests_again
               (add_city_column centroid requests_get self save_file batch_size).1.1
               save_file' batch_size').1.2
            `prefix_of` (z_index <$> filter (λ row, pending row = true)
                                            (after 0 rows))).
  { destruct (add_city_column_lookups centroid requests_again _ g1 save_file'
                batch_size' Hg1) as [[k Hk] _].
    rewrite Hsame in Hk. simpl in Hk.
    rewrite <- looked_up_attempted.
    rewrite <- (looked_up_asked centroid requests_again 0), Hk, looked_up_app.
    by apply prefix_app_r. }
  assert (Hfirst : looked_up (add_city_column centroid requests_get self
                                save_file batch_size).1.2
                   = z_index <$> filter (λ row, pending row = true) rows).
  { by rewrite <- looked_up_attempted, Hasked, looked_up_asked. }
  split.
  - rewrite Hfirst. etrans; [|apply (pending_after centroid requests_get 0)].
    destruct Hagain as [k ->]. by apply sublist_inserts_r.
  - intros idx city Hin Hcity Hidx.
    assert (Hin' : EvLookup idx (Some city) ∈ asked 0 rows).
    { rewrite <- Hasked. by apply list_elem_of_filter. }
    apply (filled_not_asked_again centroid requests_get 0 rows idx city);
      [|done|done|].
    + unfold rows. by rewrite ensure_city_indices.
    + destruct Hagain as [k Hk]. rewrite Hk. apply elem_of_app. by left.
Qed.

End SecondPass.

Section FinalSave.
Context {G : Type}.
Variable centroid : G → option point.
Variable requests_get : nat → Q → Q → http_result.

(** A city column that the file does not have is made by a pass. *)
Lemma new_city_column (self : @RTEZoneChecker G) table :
  df self = Some table → "city" ∉ df_columns table → numeric_city self = false.
Proof.
  intros Hdf Hnew. unfold numeric_city, numeric_column. destruct (gdf self); [|done].
  rewrite Hdf, (bool_decide_eq_false_2 _ Hnew). by rewrite andb_false_r.
Qed.

(** X15: what a pass saves at its end is what it leaves in memory.  With a
    supported output path, a batch size other than zero, distinct indices
    in the store and no city column in the table read, the call ends with
    the final save, and in the table written the row of every record of the
    store carries that record's city, as it now stands in the store. *)
Theorem add_city_column_saves_cities
    (self : @RTEZoneChecker G) g table filename batch_size :
  gdf self = Some g →
  df self = Some table →
  endswith filename ".xlsx" || endswith filename ".csv" = true →
  batch_size ≠ 0%Z →
  NoDup (z_index <$> gdf_rows g) →
  "city" ∉ df_columns table →
  ∃ self' g' events out,
    add_city_column centroid requests_get self (Some filename) batch_size
    = (self', events ++ [EvSave filename out], None)
    ∧ gdf self' = Some g'
    ∧ ∀ z row, z ∈ gdf_rows g' →
               df_rows table !! z_index z = Some row →
               ∃ row', df_rows out !! z_index z = Some row'
                       ∧ row' !! "city" = Some (cell (z_attrs z) "city").
Proof.
  intros Hg Hdf Hext HN Hnd Hnew.
  assert (Hfile : truthy (Some filename) = true).
  { destruct filename; [discriminate Hext | done]. }
  unfold add_city_column. rewrite Hg.
  destruct (add_city_loop_checkpoints centroid requests_get self table
              (gdf_columns (ensure_city g)) filename batch_size Hdf Hext Hfile HN
              (new_city_column self table Hdf Hnew)
              (gdf_rows (ensure_city g)) [] 0%nat) as (events & -> & _ & _).
  rewrite Hfile. change (default "" (Some filename)) with filename.
  rewrite app_nil_l.
  set (g' := {| gdf_columns := gdf_columns (ensure_city g);
                gdf_rows := enriched centroid requests_get 0
                              (gdf_rows (ensure_city g)) |}).
  unfold save_data, with_rows. cbn [gdf df]. rewrite Hdf, Hext.
  eexists _, g', events, _. split; [reflexivity|]. split; [reflexivity|].
  intros z row Hz Hrow.
  destruct (overlay_columns_cell g' table "city" ltac:(done)
              (gdf_columns g') table) with (z_index z) row
    as (row' & Hrow' & Hcell); [|done|].
  { left. split; [done|]. split; [apply ensure_city_column|].
    intros j r Hr. by exists r. }
  exists row'. split; [done|]. rewrite Hcell. unfold overlaid.
  destruct (find_record g' z) as [k ->]; [|done|done].
  unfold g'. cbn [gdf_rows]. by rewrite after_indices, ensure_city_indices.
Qed.

End FinalSave.

(** ** More on the statistics *)

Lemma distinct_length (l : list value) : (length (distinct l) ≤ length l)%nat.
Proof.
  induction l as [|x l IH]; simpl; [done|].
  pose proof (length_filter (λ y, y ≠ x) (distinct l)). lia.
Qed.

Lemma nunique_le (l : list value) : (nunique l ≤ length l)%nat.
Proof.
  unfold nunique.
  pose proof (distinct_length (filter (λ v, notna v = true) l)).
  pose proof (length_filter (λ v, notna v = true) l). lia.
Qed.

Lemma value_counts_length (l : list value) : length (value_counts l) = nunique l.
Proof.
  unfold value_counts, nunique. by rewrite merge_sort_Permutation, length_fmap.
Qed.

Lemma sum_list_with_snd_pair (g : value → nat) (D : list value) :
  sum_list_with snd ((λ v, (v, g v)) <$> D) = sum_list_with g D.
Proof. induction D as [|x D IH]; [done|]. rewrite fmap_cons. simpl. by rewrite IH. Qed.

Lemma value_counts_total (l : list value) :
  sum_list_with snd (value_counts l) = length (filter (λ v, notna v = true) l).
Proof.
  unfold value_counts.
  rewrite merge_sort_Permutation, sum_list_with_snd_pair. apply sum_occurrences.
Qed.

Section StatsFacts.
Context {G : Type}.

(** X16: the counts of [get_stats] on a loaded store.  The numbers of
    partners and of restaurants are at most the number of zones.  With a
    city column, so is the number of cities, and the city distribution has
    that many entries, or 10 if there are more cities; without one, the
    statistics have neither of the two keys. *)
Theorem get_stats_counts (self : @RTEZoneChecker G) g :
  gdf self = Some g →
  ∃ st,
    get_stats self = Some st
    ∧ total_zones st = length (gdf_rows g)
    ∧ (partners st ≤ total_zones st)%nat
    ∧ (restaurants st ≤ total_zones st)%nat
    ∧ if decide ("city" ∈ gdf_columns g) then
        ∃ n dist,
          cities st = Some n
          ∧ city_distribution st = Some dist
          ∧ (n ≤ total_zones st)%nat
          ∧ length dist = Nat.min 10 n
      else cities st = None ∧ city_distribution st = None.
Proof.
  intros Hg. unfold get_stats. rewrite Hg. eexists. split; [reflexivity|].
  cbn [total_zones partners restaurants cities city_distribution].
  assert (Hcol : ∀ col, (nunique (column g col) ≤ length (gdf_rows g))%nat).
  { intros col. pose proof (nunique_le (column g col)) as Hle.
    unfold column in Hle at 2. by rewrite length_fmap in Hle. }
  split; [done|]. split; [|split].
  - destruct (bool_decide _); [apply Hcol | lia].
  - destruct (bool_decide _); [apply Hcol | lia].
  - destruct (decide ("city" ∈ gdf_columns g)) as [Hcity|Hcity].
    + rewrite (bool_decide_eq_true_2 _ Hcity). eexists _, _.
      split; [reflexivity|]. split; [reflexivity|]. split; [apply Hcol|].
      by rewrite length_take, value_counts_length.
    + by rewrite (bool_decide_eq_false_2 _ Hcity).
Qed.

(** X17: the partner distribution of [get_stats].  With a column
    ['Партнер'] it has one entry for every partner of the column, with the
    number of its zones, the most frequent first; it has as many entries as
    [partners] says, and its numbers add up to the number of zones that have
    a partner.  Without the column the key is absent and [partners] is 0. *)
Theorem get_stats_partner_distribution (self : @RTEZoneChecker G) g :
  gdf self = Some g →
  ∃ st,
    get_stats self = Some st
    ∧ if decide ("Партнер" ∈ gdf_columns g) then
        ∃ dist,
          partner_distribution st = Some dist
          ∧ (∀ c n, (c, n) ∈ dist ↔
                    c ∈ column g "Партнер" ∧ c ≠ VNaN
                    ∧ n = occurrences c (column g "Партнер"))
          ∧ NoDup dist.*1
          ∧ StronglySorted more_frequent dist
          ∧ length dist = partners st
          ∧ sum_list_with snd dist
            = length (filter (λ v, notna v = true) (column g "Партнер"))
      else partner_distribution st = None ∧ partners st = 0%nat.
Proof.
  intros Hg. unfold get_stats. rewrite Hg. eexists. split; [reflexivity|].
  cbn [partners partner_distribution].
  destruct (decide ("Партнер" ∈ gdf_columns g)) as [Hcol|Hcol].
  - rewrite (bool_decide_eq_true_2 _ Hcol). eexists. split; [reflexivity|].
    split; [apply value_counts_elem|]. split; [apply value_counts_NoDup|].
    split; [apply StronglySorted_merge_sort; apply _|].
    split; [apply value_counts_length | apply value_counts_total].
  - by rewrite (bool_decide_eq_false_2 _ Hcol).
Qed.

End StatsFacts.

(** ** More on reverse geocoding *)

Lemma resolution_first_nonempty (members : list (string * json)) :
  py_or (address_get members "city")
    (py_or (address_get members "town")
       (py_or (address_get members "village")
          (py_or (address_get members "municipality")
                 (address_get members "county"))))
  = first_nonempty members.
Proof.
  unfold first_nonempty, py_or. simpl.
  repeat (destruct (json_truthy (address_get members _));
          [by rewrite decide_True by done | rewrite decide_False by done];
          simpl).
  done.
Qed.

Lemma request_city_found (response : http_result) (city : json) :
  city ≠ JNull →
  request_city response = Returns city ↔
  ∃ data members,
    response = Response 200 (Some (JObj data))
    ∧ members_get "address" data = Some (JObj members)
    ∧ city = first_nonempty members.
Proof.
  intros Hcity. split.
  - destruct response as [|status_code body]; [done|]. cbn -[py_or].
    destruct (status_code =? 200)%Z eqn:Hstatus; [|by intros [= <-]].
    apply Z.eqb_eq in Hstatus as ->.
    destruct body as [[| | | | |data]|]; try done. cbn -[py_or].
    destruct (members_get "address" data) as [[| | | | |members]|] eqn:Haddr;
      try done; cbn -[py_or].
    + rewrite resolution_first_nonempty. intros [= <-]. by exists data, members.
    + change (λ key, default JNull (members_get key [])) with (address_get []).
      intros [= <-]. done.
  - intros (data & members & -> & Haddr & ->). cbn -[py_or]. rewrite Haddr.
    cbn -[py_or]. by rewrite resolution_first_nonempty.
Qed.

(** X18: a city from [get_city_from_coordinates].  The call returns a value
    other than [None] in one case only: the response has status 200, its
    body is a JSON object, the ['address'] of that object is an object, and
    the value is the resolution of its fields.  A body that is not an
    object, a missing or null address, a body that is no JSON all give
    [None]. *)
Theorem get_city_from_coordinates_found
    (requests_get : Q → Q → http_result) (lat lon : Q) (city : json) :
  city ≠ JNull →
  get_city_from_coordinates requests_get lat lon = Returns city ↔
  ∃ data members,
    requests_get lat lon = Response 200 (Some (JObj data))
    ∧ members_get "address" data = Some (JObj members)
    ∧ city = first_nonempty members.
Proof.
  intros Hcity. rewrite <- (request_city_found _ _ Hcity).
  unfold get_city_from_coordinates.
  destruct (request_city (requests_get lat lon)); [done|].
  split; [by intros [= <-] | done].
Qed.

(** X19: a city from [get_city_from_geometry].  The call gives a city
    exactly when the centroid of the geometry can be taken and the exchange
    made for its latitude (the centroid's y) and longitude (its x) has
    status 200 and an object body whose address object resolves to that
    text. *)
Theorem get_city_from_geometry_found {G : Type}
    (centroid : G → option point) (requests_get : nat → Q → Q → http_result)
    (n : nat) (geometry : G) (city : string) :
  get_city_from_geometry centroid requests_get n geometry = Some city ↔
  ∃ c data members,
    centroid geometry = Some c
    ∧ requests_get n c.2 c.1 = Response 200 (Some (JObj data))
    ∧ members_get "address" data = Some (JObj members)
    ∧ first_nonempty members = JStr city.
Proof.
  unfold get_city_from_geometry, get_city_from_coordinates. split.
  - destruct (centroid geometry) as [c|]; [|done].
    destruct (request_city (requests_get n c.2 c.1)) as [[| | |s| |]|] eqn:Hreq;
      try done.
    intros [= ->]. apply request_city_found in Hreq as (data & members & ? & ? & ?);
      [|done].
    by exists c, data, members.
  - intros (c & data & members & -> & Hresp & Haddr & Hcity).
    assert (Hreq : request_city (requests_get n c.2 c.1) = Returns (JStr city)).
    { apply request_city_found; [done|]. by exists data, members. }
    by rewrite Hreq.
Qed.

(** ** The two module-level functions together *)

Lemma distinct_nil_iff {A} `{EqDecision A} (l : list A) : distinct l = [] ↔ l = [].
Proof. by destruct l. Qed.

Section DeliveryFacts.
Context {G : Type} `{Geometry G}.
Variable loads : string → option G.
Variable nan_object : nat → nat.

(** X20: [check_point_simple] and [get_delivery_restaurants] agree on a
    file and a point: both raise the same error of [load_data], or both
    return and the first says [True] exactly when the second lists at least
    one restaurant. *)
Theorem check_point_simple_agrees (lat lon : Q) polygons_file table :
  match check_point_simple loads lat lon polygons_file table,
        get_delivery_restaurants loads nan_object lat lon polygons_file table with
  | Returns covered, Returns groups => covered = true ↔ groups ≠ []
  | Raises e, Raises e' => e = e'
  | _, _ => False
  end.
Proof.
  unfold check_point_simple, get_delivery_restaurants.
  destruct (load_data loads polygons_file table) as [self|e] eqn:Hload; [|done].
  destruct (load_data_inv loads _ _ _ Hload) as [Hext Hcol].
  rewrite (load_data_returns loads _ _ Hext Hcol) in Hload. injection Hload as <-.
  match goal with
  | |- context [get_restaurants_for_point _ ?checker _ _] =>
      rewrite (get_restaurants_for_point_groups nan_object checker _ lat lon eq_refl)
  end.
  unfold is_point_in_any_zone, point_in_zones.
  cbn [gdf gdf_rows gdf_columns]. set (zs := make_result _ <$> _).
  unfold groups_by_key, grouped. rewrite Nat.ltb_lt. split.
  - intros Hlen Hnil. apply fmap_nil_inv, distinct_nil_iff, fmap_nil_inv in Hnil.
    match type of Hnil with
    | imap ?f _ = _ =>
        assert (Hzs : length zs = 0%nat) by (by rewrite <- (length_imap f), Hnil)
    end.
    lia.
  - intros Hne. destruct zs; [done | simpl; lia].
Qed.

End DeliveryFacts.

(** ** What the checkpoints hold *)

Section CheckpointFacts.
Context {G : Type}.
Variable centroid : G → option point.
Variable requests_get : nat → Q → Q → http_result.

#[local] Abbreviation loop := (add_city_loop centroid requests_get).
#[local] Abbreviation after := (enriched centroid requests_get).
#[local] Abbreviation asked := (lookups centroid requests_get).
#[local] Abbreviation answer := (get_city_from_geometry centroid requests_get).

(** A table just saved has, for every record of the store, its city. *)
Lemma save_data_city (self : @RTEZoneChecker G) table columns rows filename out :
  df self = Some table →
  "city" ∈ columns →
  "city" ∉ df_columns table →
  NoDup (z_index <$> rows) →
  save_data (with_rows self columns rows) filename = Returns out →
  ∀ z row, z ∈ rows → df_rows table !! z_index z = Some row →
    ∃ row', df_rows out !! z_index z = Some row'
            ∧ row' !! "city" = Some (cell (z_attrs z) "city").
Proof.
  intros Hdf Hcol Hnew Hnd Hsave z row Hz Hrow.
  unfold save_data, with_rows in Hsave. cbn [gdf df] in Hsave.
  rewrite Hdf in Hsave. destruct (_ || _); [|done]. injection Hsave as <-.
  set (g' := {| gdf_columns := columns; gdf_rows := rows |}).
  destruct (overlay_columns_cell g' table "city" ltac:(done) columns table)
    with (z_index z) row as (row' & Hrow' & Hcell); [|done|].
  { left. split; [done|]. split; [done|]. intros j r Hr. by exists r. }
  exists row'. split; [done|]. rewrite Hcell. unfold overlaid.
  by destruct (find_record g' z) as [k ->].
Qed.

Lemma set_city_cell (row : @zone G) city :
  cell (z_attrs (set_city row city)) "city" = from_option VStr VNaN city.
Proof. unfold cell, set_city. simpl. by rewrite lookup_insert_eq. Qed.

Lemma asked_after n (rows : list (@zone G)) idx city :
  EvLookup idx city ∈ asked n rows →
  ∃ z, z ∈ after n rows ∧ z_index z = idx
       ∧ cell (z_attrs z) "city" = from_option VStr VNaN city.
Proof.
  revert n. induction rows as [|row rows IH]; intros n; cbn [lookups enriched].
  { by intros ?%elem_of_nil. }
  destruct (pending row).
  - intros [[= -> ->]|Hin]%elem_of_cons.
    + eexists. split; [left|]. split; [done | apply set_city_cell].
    + destruct (IH _ Hin) as (z & Hz & Hidx & Hcell).
      exists z. split; [by right | done].
  - intros Hin. destruct (IH _ Hin) as (z & Hz & Hidx & Hcell).
    exists z. split; [by right | done].
Qed.

(** The saves of the loop: each holds the city of every record visited
    and of every record looked up before it. *)
Lemma add_city_loop_saves self table columns save_file batch_size :
  df self = Some table →
  "city" ∈ columns →
  "city" ∉ df_columns table →
  ∀ todo done processed,
    NoDup (z_index <$> done ++ todo) →
    (∀ z, z ∈ done ++ todo → is_Some (df_rows table !! z_index z)) →
    ∀ pre f out post,
      (loop self columns save_file batch_size done todo processed).1.2
      = pre ++ EvSave f out :: post →
      (∀ z, z ∈ done →
            ∃ row', df_rows out !! z_index z = Some row'
                    ∧ row' !! "city" = Some (cell (z_attrs z) "city"))
      ∧ (∀ idx city, EvLookup idx city ∈ pre →
            ∃ row', df_rows out !! idx = Some row'
                    ∧ row' !! "city" = Some (from_option VStr VNaN city)).
Proof.
  intros Hdf Hcol Hnew.
  induction todo as [|row rest IH]; intros done processed Hnd Hrows pre f out post;
    cbn [add_city_loop].
  { simpl. intros Heq. by destruct pre. }
  destruct (pending row).
  2: { intros Heq. rewrite cons_middle, (assoc_L (++)) in Hnd, Hrows.
       destruct (IH _ _ Hnd Hrows _ _ _ _ Heq) as [Hdone Hpre].
       split; [|done]. intros z Hz. apply Hdone, elem_of_app. by left. }
  set (city := answer processed (z_geometry row)).
  set (row' := set_city row city).
  assert (Hidx : z_index <$> done ++ row' :: rest = z_index <$> done ++ row :: rest).
  { by rewrite !fmap_app, !fmap_cons. }
  assert (Hnd' : NoDup (z_index <$> (done ++ [row']) ++ rest)).
  { by rewrite <- (assoc_L (++)), <- cons_middle, Hidx. }
  assert (Hrows' : ∀ z, z ∈ (done ++ [row']) ++ rest →
                        is_Some (df_rows table !! z_index z)).
  { intros z Hz. rewrite <- (assoc_L (++)), <- cons_middle in Hz.
    apply elem_of_app in Hz as [Hz|[->|Hz]%elem_of_cons].
    - apply Hrows, elem_of_app. by left.
    - apply (Hrows row), elem_of_app. right. by left.
    - apply Hrows, elem_of_app. right. by right. }
  assert (Hlater : ∀ events pre' ,
    (loop self columns save_file batch_size (done ++ [row']) rest (S processed)).1.2
    = events →
    events = pre' ++ EvSave f out :: post →
    (∀ z, z ∈ done →
          ∃ r, df_rows out !! z_index z = Some r
               ∧ r !! "city" = Some (cell (z_attrs z) "city"))
    ∧ (∀ idx c, EvLookup idx c = EvLookup (z_index row) city
                ∨ EvLookup idx c ∈ pre' →
          ∃ r, df_rows out !! idx = Some r
               ∧ r !! "city" = Some (from_option VStr VNaN c))).
  { intros events pre' Hev Heq. rewrite <- Hev in Heq.
    destruct (IH _ _ Hnd' Hrows' _ _ _ _ Heq) as [Hdone Hpre].
    split.
    - intros z Hz. apply Hdone, elem_of_app. by left.
    - intros idx c [[= -> ->]|Hin]; [|by apply Hpre].
      destruct (Hdone row') as (r & Hr & Hcell).
      { apply elem_of_app. right. by left. }
      exists r. split; [done|]. rewrite Hcell. unfold row'.
        by rewrite set_city_cell. }
  destruct (refused _ _).
  { simpl. intros Heq. destruct pre as [|? [|? ?]]; discriminate Heq. }
  destruct (batch_size =? 0)%Z.
  { simpl. intros Heq. destruct pre as [|? [|? ?]]; discriminate Heq. }
  destruct (_ && _).
  - destruct (save_data _ _) as [saved|e] eqn:Hsave.
    2: { simpl. intros Heq. destruct pre as [|? [|? ?]]; discriminate Heq. }
    destruct (loop _ _ _ _ _ rest _) as [[rows events] exn] eqn:Hloop.
    cbn [fst snd]. intros Heq.
    destruct pre as [|e0 pre]; [discriminate Heq|].
    injection Heq as <- Heq.
    destruct pre as [|e1 pre].
    + injection Heq as <- <- <-.
      assert (Hnow : ∀ z, z ∈ done ++ row' :: rest →
                ∃ r, df_rows saved !! z_index z = Some r
                     ∧ r !! "city" = Some (cell (z_attrs z) "city")).
      { intros z Hz.
        destruct (Hrows' z) as [r0 Hr0];
          [by rewrite <- (assoc_L (++)), <- cons_middle|].
        apply (save_data_city self table columns _ _ _ Hdf Hcol Hnew
                 ltac:(by rewrite Hidx) Hsave z r0 Hz Hr0). }
      split.
      * intros z Hz. apply Hnow, elem_of_app. by left.
      * intros idx c [[= -> ->]|Hin%elem_of_nil]%elem_of_cons; [|done].
        destruct (Hnow row') as (r & Hr & Hcell).
        { apply elem_of_app. right. by left. }
        exists r. split; [done|]. rewrite Hcell. unfold row'.
        by rewrite set_city_cell.
    + injection Heq as <- Heq.
      destruct (Hlater events pre eq_refl Heq) as [Hdone Hpre].
      split; [done|].
      intros idx c [Hin|[Hin|Hin]%elem_of_cons]%elem_of_cons.
      * apply Hpre. by left.
      * discriminate Hin.
      * apply Hpre. by right.
  - destruct (loop _ _ _ _ _ rest _) as [[rows events] exn] eqn:Hloop.
    cbn [fst snd]. intros Heq.
    destruct pre as [|e0 pre]; [discriminate Heq|].
    injection Heq as <- Heq.
    destruct (Hlater events pre eq_refl Heq) as [Hdone Hpre].
    split; [done|].
    intros idx c [Hin|Hin]%elem_of_cons; apply Hpre; [by left | by right].
Qed.

(** X21: the files written hold the progress made.  Whatever the output
    path and the batch size, and however the call ends, every table that
    [add_city_column] saves, at a checkpoint or at the end, has in the row
    of every record looked up before that save the answer of the lookup
    (the city found, or a missing value when none was found). *)
Theorem add_city_column_checkpoint_content
    (self : @RTEZoneChecker G) g table save_file batch_size pre f out post :
  gdf self = Some g →
  df self = Some table →
  NoDup (z_index <$> gdf_rows g) →
  "city" ∉ df_columns table →
  (∀ z, z ∈ gdf_rows g → is_Some (df_rows table !! z_index z)) →
  (add_city_column centroid requests_get self save_file batch_size).1.2
  = pre ++ EvSave f out :: post →
  ∀ idx city, EvLookup idx city ∈ pre →
    ∃ row', df_rows out !! idx = Some row'
            ∧ row' !! "city" = Some (from_option VStr VNaN city).
Proof.
  intros Hg Hdf Hnd Hnew Hrows. unfold add_city_column. rewrite Hg.
  assert (Hnd0 : NoDup (z_index <$> [] ++ gdf_rows (ensure_city g)))
    by (by rewrite app_nil_l, ensure_city_indices).
  assert (Hrows0 : ∀ z, z ∈ [] ++ gdf_rows (ensure_city g) →
                        is_Some (df_rows table !! z_index z)).
  { intros z Hz. rewrite app_nil_l in Hz.
    assert (Hin : z_index z ∈ z_index <$> gdf_rows g).
    { rewrite <- ensure_city_indices. apply list_elem_of_fmap. by exists z. }
    apply list_elem_of_fmap in Hin as (z' & -> & Hz'). by apply Hrows. }
  pose proof (add_city_loop_saves self table (gdf_columns (ensure_city g))
                save_file batch_size Hdf (ensure_city_column g) Hnew
                (gdf_rows (ensure_city g)) [] 0%nat Hnd0 Hrows0) as Hloop.
  destruct (add_city_loop_lookups centroid requests_get self
              (gdf_columns (ensure_city g)) save_file batch_size
              (gdf_rows (ensure_city g)) [] 0%nat) as [_ Hok].
  destruct (add_city_loop _ _ _ _ _ _ _ _ _) as [[rows events] exn].
  cbn [fst snd] in *.
  assert (Hin_loop : ∀ post0, events = pre ++ EvSave f out :: post0 →
            ∀ idx city, EvLookup idx city ∈ pre →
              ∃ row', df_rows out !! idx = Some row'
                      ∧ row' !! "city" = Some (from_option VStr VNaN city)).
  { intros post0 Heq. by destruct (Hloop pre f out post0 Heq) as [_ Hpre]. }
  destruct exn as [e|]; [intros Heq; by apply (Hin_loop post)|].
  destruct (Hok eq_refl) as [Hasked Hafter]. rewrite app_nil_l in Hafter.
  destruct (truthy save_file); [|intros Heq; by apply (Hin_loop post)].
  destruct (save_data _ _) as [saved|e] eqn:Hsave;
    [|intros Heq; by apply (Hin_loop post)].
  cbn [fst snd]. intros Heq.
  destruct (decide (post = [])) as [->|Hpost].
  - apply app_inj_tail in Heq as [<- [= <- <-]].
    intros idx city Hin.
    assert (Hin' : EvLookup idx city ∈ asked 0 (gdf_rows (ensure_city g))).
    { rewrite <- Hasked. by apply list_elem_of_filter. }
    destruct (asked_after _ _ _ _ Hin') as (z & Hz & <- & Hcell).
    rewrite <- Hafter in Hz.
    assert (Hsome : is_Some (df_rows table !! z_index z)).
    { assert (Hidx : z_index z ∈ z_index <$> rows)
        by (apply list_elem_of_fmap; by exists z).
      rewrite Hafter, after_indices in Hidx.
      apply list_elem_of_fmap in Hidx as (z' & Heq & Hz').
      rewrite Heq. apply Hrows0. by rewrite app_nil_l. }
    destruct Hsome as [r0 Hr0].
    assert (Hndr : NoDup (z_index <$> rows))
      by (by rewrite Hafter, after_indices, ensure_city_indices).
    destruct (save_data_city self table (gdf_columns (ensure_city g)) rows _
                saved Hdf (ensure_city_column g) Hnew Hndr Hsave z r0 Hz Hr0)
      as (r & Hr & Hc).
    exists r. split; [done|]. by rewrite Hc, Hcell.
  - destruct (exists_last Hpost) as (post' & last & ->).
    assert (Heq' : events ++ [EvSave (default "" save_file) saved]
                   = (pre ++ EvSave f out :: post') ++ [last])
      by (by rewrite Heq, <- (assoc_L (++))).
    apply app_inj_tail in Heq' as [Hev _]. by apply (Hin_loop post').
Qed.

End CheckpointFacts.

(** ** The further properties on the sample data *)

Ltac in_columns := simpl; repeat (first [by left | right]).

Ltac not_in_columns :=
  let Hin := fresh "Hin" in
  simpl; intros Hin;
  repeat (apply elem_of_cons in Hin as [Hin|Hin]; [discriminate Hin|]);
  by apply elem_of_nil in Hin.

Ltac distinct_indices :=
  simpl; repeat (apply NoDup_cons_2; [not_in_columns|]); apply NoDup_nil_2.

Lemma is_point_in_any_zone_iff_witness :
  gdf sample_checker = Some sample_gdf
  ∧ ∃ b, is_point_in_any_zone sample_checker 1 1 = Returns b
         ∧ (b = true ↔
            ∃ z, z ∈ gdf_rows sample_gdf
                 ∧ contains (z_geometry z) (1, 1)%Q = true).
Proof.
  split; [reflexivity|].
  exact (is_point_in_any_zone_iff sample_checker sample_gdf 1 1 eq_refl).
Defined.

Lemma get_restaurants_for_point_partition_witness :
  gdf sample_checker = Some sample_gdf
  ∧ ∃ groups,
      get_restaurants_for_point id sample_checker 1 1 = Returns groups
      ∧ Forall (λ r, zones r ≠ []) groups
      ∧ sum_list_with (λ r, length (zones r)) groups
        = length (filter (λ z, contains (z_geometry z) (1, 1)%Q = true)
                         (gdf_rows sample_gdf))
      ∧ (length groups
         ≤ length (filter (λ z, contains (z_geometry z) (1, 1)%Q = true)
                          (gdf_rows sample_gdf)))%nat.
Proof.
  split; [reflexivity|].
  exact (get_restaurants_for_point_partition id sample_checker sample_gdf 1 1 eq_refl).
Defined.

Lemma get_restaurants_for_point_unknown_witness :
  gdf sample_checker = Some sample_gdf
  ∧ ("ID реста" ∉ gdf_columns sample_gdf)
  ∧ get_restaurants_for_point id sample_checker 1 1
    = Returns
        match make_result (gdf_columns sample_gdf)
                <$> filter (λ z, contains (z_geometry z) (1, 1)%Q = true)
                           (gdf_rows sample_gdf) with
        | [] => []
        | first :: rest =>
            [ {| restaurant_id := VStr "unknown";
                 partner := zone_get first "Партнер" (VStr "Неизвестно");
                 zones := entry_of <$> first :: rest |} ]
        end.
Proof.
  assert (Hcol : "ID реста" ∉ gdf_columns sample_gdf) by not_in_columns.
  split; [reflexivity|]. split; [exact Hcol|].
  exact (get_restaurants_for_point_unknown id sample_checker sample_gdf 1 1
           eq_refl Hcol).
Defined.

Lemma get_restaurants_for_point_missing_ids_witness :
  gdf numbered_checker = Some numbered_gdf
  ∧ df numbered_checker = Some numbered_table
  ∧ numeric_column numbered_table "ID реста" = true
  ∧ "ID реста" ∈ gdf_columns numbered_gdf
  ∧ ∃ groups,
      get_restaurants_for_point (λ _, 0%nat) numbered_checker 1 1 = Returns groups
      ∧ Forall (λ r, restaurant_id r = VNaN → length (zones r) = 1%nat) groups
      ∧ ∀ z, z ∈ gdf_rows numbered_gdf →
             contains (z_geometry z) (1, 1)%Q = true →
             cell (z_attrs z) "ID реста" = VNaN →
             {| restaurant_id := VNaN;
                partner := zone_get (make_result (gdf_columns numbered_gdf) z)
                                    "Партнер" (VStr "Неизвестно");
                zones := [entry_of (make_result (gdf_columns numbered_gdf) z)] |}
             ∈ groups.
Proof.
  assert (Hcol : "ID реста" ∈ gdf_columns numbered_gdf) by in_columns.
  split; [reflexivity|]. split; [reflexivity|]. split; [reflexivity|].
  split; [exact Hcol|].
  exact (get_restaurants_for_point_missing_ids (λ _, 0%nat) numbered_checker
           numbered_gdf numbered_table 1 1 eq_refl eq_refl eq_refl Hcol).
Defined.

(** Three zones around the point (1, 1), the first and the third without
    restaurant number: three groups, whatever object pandas might share. *)
Example get_restaurants_for_point_numbered :
  load_data sample_loads "polygons.csv" numbered_table = Returns numbered_checker
  ∧ (λ r, (restaurant_id r, ze_index <$> zones r))
      <$> match get_restaurants_for_point (λ _, 0%nat) numbered_checker 1 1 with
          | Returns groups => groups
          | Raises _ => []
          end
    = [(VNaN, [VNum 0]); (VNum 7, [VNum 1]); (VNaN, [VNum 2])].
Proof. split; vm_compute; reflexivity. Qed.

(** The square's zone, for the point (1, 1): one restaurant ['unknown'],
    partner unknown too, with the zone's entry. *)
Example get_restaurants_for_point_sample :
  get_restaurants_for_point id sample_checker 1 1
  = Returns [ {| restaurant_id := VStr "unknown";
                 partner := VStr "Неизвестно";
                 zones := [ {| ze_name := VStr "Неизвестная зона";
                               ze_internal_id := VStr "";
                               ze_index := VNum 0 |} ] |} ].
Proof. vm_compute. reflexivity. Qed.

Lemma save_data_keeps_table_witness :
  gdf filled_checker = Some filled_gdf
  ∧ df filled_checker = Some waiting_table
  ∧ endswith "out.csv" ".xlsx" || endswith "out.csv" ".csv" = true
  ∧ ∃ out,
      save_data filled_checker "out.csv" = Returns out
      ∧ length (df_rows out) = length (df_rows waiting_table)
      ∧ df_columns waiting_table `prefix_of` df_columns out
      ∧ (∀ c, c ∈ df_columns out →
              c ∈ df_columns waiting_table
              ∨ (c ∈ gdf_columns filled_gdf ∧ c ≠ "geometry"))
      ∧ (∀ j row, df_rows waiting_table !! j = Some row →
                  ∃ row', df_rows out !! j = Some row'
                          ∧ ∀ c, c ∈ df_columns waiting_table →
                                 row' !! c = row !! c).
Proof.
  split; [reflexivity|]. split; [reflexivity|]. split; [reflexivity|].
  exact (save_data_keeps_table filled_checker filled_gdf waiting_table "out.csv"
           eq_refl eq_refl eq_refl).
Defined.

Lemma save_data_overlay_witness :
  gdf filled_checker = Some filled_gdf
  ∧ df filled_checker = Some waiting_table
  ∧ endswith "out.csv" ".xlsx" || endswith "out.csv" ".csv" = true
  ∧ NoDup (z_index <$> gdf_rows filled_gdf)
  ∧ "city" ∈ gdf_columns filled_gdf
  ∧ ("city" ∉ df_columns waiting_table)
  ∧ "city" ≠ "geometry"
  ∧ ∃ out,
      save_data filled_checker "out.csv" = Returns out
      ∧ ∀ j row, df_rows waiting_table !! j = Some row →
          ∃ row', df_rows out !! j = Some row'
            ∧ (∀ z, z ∈ gdf_rows filled_gdf → z_index z = j →
                    row' !! "city" = Some (cell (z_attrs z) "city"))
            ∧ ((∀ z, z ∈ gdf_rows filled_gdf → z_index z ≠ j) →
               row' !! "city" = row !! "city").
Proof.
  assert (Hnd : NoDup (z_index <$> gdf_rows filled_gdf)) by distinct_indices.
  assert (Hcol : "city" ∈ gdf_columns filled_gdf) by in_columns.
  assert (Hnew : "city" ∉ df_columns waiting_table) by not_in_columns.
  assert (Hgeo : "city" ≠ "geometry") by discriminate.
  repeat (split; [first [reflexivity | assumption]|]).
  exact (save_data_overlay filled_checker filled_gdf waiting_table "out.csv"
           "city" eq_refl eq_refl eq_refl Hnd Hcol Hnew Hgeo).
Defined.

(** The three filled zones, saved: the city column comes last and holds the
    three cities. *)
Example save_data_sample :
  (λ out, (df_columns out, (λ row, cell row "city") <$> df_rows out))
    <$> match save_data filled_checker "out.csv" with
        | Returns out => Some out
        | Raises _ => None
        end
  = Some (["WKT"; "partner"; "id"; "city"],
          [VStr "Moscow"; VStr "Moscow"; VStr "Moscow"]).
Proof. vm_compute. reflexivity. Qed.

Lemma save_data_after_load_witness :
  load_data sample_loads "polygons.csv" sample_table = Returns sample_checker
  ∧ endswith "copy.xlsx" ".xlsx" || endswith "copy.xlsx" ".csv" = true
  ∧ save_data sample_checker "copy.xlsx" = Returns sample_table.
Proof.
  assert (Hload : load_data sample_loads "polygons.csv" sample_table
                  = Returns sample_checker) by (vm_compute; reflexivity).
  split; [exact Hload|]. split; [reflexivity|].
  exact (save_data_after_load sample_loads "polygons.csv" sample_table
           sample_checker "copy.xlsx" Hload eq_refl).
Defined.

Lemma save_data_no_record_witness :
  gdf blank_checker = Some {| gdf_columns := ["WKT"; "partner"; "id"; "geometry"];
                              gdf_rows := [] |}
  ∧ df blank_checker = Some blank_table
  ∧ endswith "out.csv" ".xlsx" || endswith "out.csv" ".csv" = true
  ∧ (∀ z : @zone Polygon, z ∈ [] → (length (df_rows blank_table) ≤ z_index z)%nat)
  ∧ save_data blank_checker "out.csv" = Returns blank_table.
Proof.
  assert (Hnone : ∀ z : @zone Polygon,
            z ∈ [] → (length (df_rows blank_table) ≤ z_index z)%nat).
  { intros z Hz. by apply elem_of_nil in Hz. }
  split; [reflexivity|]. split; [reflexivity|]. split; [reflexivity|].
  split; [exact Hnone|].
  exact (save_data_no_record blank_checker _ blank_table "out.csv"
           eq_refl eq_refl eq_refl Hnone).
Defined.

Lemma add_city_column_keeps_records_witness :
  gdf waiting_checker = Some waiting_gdf
  ∧ ∃ g',
      gdf (add_city_column sample_centroid sample_service waiting_checker
                           (Some "out.csv") 2).1.1 = Some g'
      ∧ Forall2 same_but_city (gdf_rows waiting_gdf) (gdf_rows g')
      ∧ (gdf_columns g' = gdf_columns waiting_gdf
         ∨ gdf_columns g' = gdf_columns waiting_gdf ++ ["city"])
      ∧ df (add_city_column sample_centroid sample_service waiting_checker
                            (Some "out.csv") 2).1.1 = df waiting_checker
      ∧ polygons_file
          (add_city_column sample_centroid sample_service waiting_checker
                           (Some "out.csv") 2).1.1
        = polygons_file waiting_checker.
Proof.
  split; [reflexivity|].
  exact (add_city_column_keeps_records sample_centroid sample_service
           waiting_checker waiting_gdf (Some "out.csv") 2 eq_refl).
Defined.

Lemma add_city_column_looks_up_pending_witness :
  gdf waiting_checker = Some waiting_gdf
  ∧ looked_up (add_city_column sample_centroid sample_service waiting_checker
                               (Some "out.csv") 2).1.2
      `prefix_of` (z_index <$> filter (λ row, pending row = true)
                                      (gdf_rows (ensure_city waiting_gdf)))
  ∧ ((add_city_column sample_centroid sample_service waiting_checker
                      (Some "out.csv") 2).2 = None →
     looked_up (add_city_column sample_centroid sample_service waiting_checker
                                (Some "out.csv") 2).1.2
     = z_index <$> filter (λ row, pending row = true)
                          (gdf_rows (ensure_city waiting_gdf))).
Proof.
  split; [reflexivity|].
  exact (add_city_column_looks_up_pending sample_centroid sample_service
           waiting_checker waiting_gdf (Some "out.csv") 2 eq_refl).
Defined.

Lemma add_city_column_zero_batch_witness :
  gdf waiting_checker = Some waiting_gdf
  ∧ gdf_rows (ensure_city waiting_gdf)
    = [] ++ set_city (waiting_row 0) None
            :: [set_city (waiting_row 1) None; set_city (waiting_row 2) None]
  ∧ Forall (λ row : @zone Polygon, pending row = false) []
  ∧ pending (set_city (waiting_row 0) None) = true
  ∧ numeric_city waiting_checker = false
  ∧ answers_text sample_service
  ∧ ∃ row',
      add_city_column sample_centroid sample_service waiting_checker
                      (Some "out.csv") 0
      = (with_rows waiting_checker (gdf_columns (ensure_city waiting_gdf))
           ([] ++ row'
                 :: [set_city (waiting_row 1) None; set_city (waiting_row 2) None]),
         [EvLookup (z_index (set_city (waiting_row 0) None))
                   (get_city_from_geometry sample_centroid sample_service 0
                      (z_geometry (set_city (waiting_row 0) None)))],
         Some ZeroDivisionError)
      ∧ same_but_city (set_city (waiting_row 0) None) row'
      ∧ z_attrs row' !! "city"
        = Some (from_option VStr VNaN
                  (get_city_from_geometry sample_centroid sample_service 0
                     (z_geometry (set_city (waiting_row 0) None)))).
Proof.
  assert (Hrows : gdf_rows (ensure_city waiting_gdf)
            = [] ++ set_city (waiting_row 0) None
                :: [set_city (waiting_row 1) None; set_city (waiting_row 2) None])
    by (vm_compute; reflexivity).
  assert (Hpre : Forall (λ row : @zone Polygon, pending row = false) [])
    by constructor.
  assert (Hrow : pending (set_city (waiting_row 0) None) = true)
    by (vm_compute; reflexivity).
  assert (Hnum : numeric_city waiting_checker = false) by reflexivity.
  assert (Htext : answers_text sample_service).
  { intros [|[|n]] lat lon; [right; by eexists | by left | right; by eexists]. }
  split; [reflexivity|]. split; [exact Hrows|]. split; [exact Hpre|].
  split; [exact Hrow|]. split; [exact Hnum|]. split; [exact Htext|].
  exact (add_city_column_zero_batch sample_centroid sample_service
           waiting_checker waiting_gdf (Some "out.csv") [] _ _
           eq_refl Hrows Hpre Hrow Hnum Htext).
Defined.

Lemma add_city_column_unsupported_path_witness :
  gdf waiting_checker = Some waiting_gdf
  ∧ df waiting_checker = Some waiting_table
  ∧ truthy (Some "out.txt") = true
  ∧ endswith "out.txt" ".xlsx" || endswith "out.txt" ".csv" = false
  ∧ 2%Z ≠ 0%Z
  ∧ numeric_city waiting_checker = false
  ∧ answers_text sample_service
  ∧ (add_city_column sample_centroid sample_service waiting_checker
                     (Some "out.txt") 2).2
    = Some (ValueError "Поддерживаются только форматы .xlsx и .csv")
  ∧ Forall (λ e, attempted e = true)
           (add_city_column sample_centroid sample_service waiting_checker
                            (Some "out.txt") 2).1.2.
Proof.
  assert (HN : 2%Z ≠ 0%Z) by lia.
  assert (Hnum : numeric_city waiting_checker = false) by reflexivity.
  assert (Htext : answers_text sample_service).
  { intros [|[|n]] lat lon; [right; by eexists | by left | right; by eexists]. }
  do 7 (split; [first [reflexivity | assumption]|]).
  exact (add_city_column_unsupported_path sample_centroid sample_service
           waiting_checker waiting_gdf waiting_table "out.txt" 2
           eq_refl eq_refl eq_refl eq_refl HN Hnum Htext).
Defined.

Lemma add_city_column_refuses_text_witness :
  gdf empty_city_checker = Some empty_city_gdf
  ∧ numeric_city empty_city_checker = true
  ∧ Forall (λ row, ∀ s, cell (z_attrs row) "city" ≠ VStr s) (gdf_rows empty_city_gdf)
  ∧ answers_text sample_service
  ∧ ∃ g',
      gdf (add_city_column sample_centroid sample_service empty_city_checker
                           (Some "out.csv") 10).1.1 = Some g'
      ∧ (λ row : @zone Polygon, cell (z_attrs row) "city") <$> gdf_rows g'
        = (λ row : @zone Polygon, cell (z_attrs row) "city") <$> gdf_rows empty_city_gdf
      ∧ ∀ idx city,
          EvLookup idx (Some city)
            ∈ (add_city_column sample_centroid sample_service empty_city_checker
                               (Some "out.csv") 10).1.2 →
          (add_city_column sample_centroid sample_service empty_city_checker
                           (Some "out.csv") 10).2 = Some TypeError
          ∧ last (add_city_column sample_centroid sample_service empty_city_checker
                                  (Some "out.csv") 10).1.2
            = Some (EvLookup idx (Some city)).
Proof.
  assert (Htext : Forall (λ row : @zone Polygon, ∀ s, cell (z_attrs row) "city" ≠ VStr s)
                         (gdf_rows empty_city_gdf)).
  { repeat constructor; intros s Hs; vm_compute in Hs; discriminate Hs. }
  assert (Hanswers : answers_text sample_service).
  { intros [|[|n]] lat lon; [right; by eexists | by left | right; by eexists]. }
  split; [reflexivity|]. split; [reflexivity|]. split; [exact Htext|].
  split; [exact Hanswers|].
  exact (add_city_column_refuses_text sample_centroid sample_service
           empty_city_checker empty_city_gdf (Some "out.csv") 10
           eq_refl eq_refl Htext Hanswers).
Defined.

(** The file with the empty city column: the first lookup finds Moscow,
    the write is refused, and nothing is stored or saved. *)
Example add_city_column_refuses_text_sample :
  load_data sample_loads "polygons.csv" empty_city_table = Returns empty_city_checker
  ∧ let '(self', events, exn) :=
      add_city_column sample_centroid sample_service empty_city_checker
                      (Some "out.csv") 10 in
    step_of <$> events = [Looked (Some "Moscow")]
    ∧ exn = Some TypeError
    ∧ (λ row, cell (z_attrs row) "city") <$> from_option gdf_rows [] (gdf self')
      = [VNaN; VNaN].
Proof. split; vm_compute; [reflexivity | done]. Qed.

Lemma add_city_column_second_pass_witness :
  gdf waiting_checker = Some waiting_gdf
  ∧ NoDup (z_index <$> gdf_rows waiting_gdf)
  ∧ (add_city_column sample_centroid sample_service waiting_checker None 10).2
    = None
  ∧ looked_up
      (add_city_column sample_centroid sample_service_again
         (add_city_column sample_centroid sample_service waiting_checker
                          None 10).1.1
         (Some "out.csv") 5).1.2
      `sublist_of`
      looked_up (add_city_column sample_centroid sample_service waiting_checker
                                 None 10).1.2
  ∧ ∀ idx city,
      EvLookup idx (Some city)
        ∈ (add_city_column sample_centroid sample_service waiting_checker
                           None 10).1.2 →
      city ≠ "" →
      idx ∉ looked_up
              (add_city_column sample_centroid sample_service_again
                 (add_city_column sample_centroid sample_service waiting_checker
                                  None 10).1.1
                 (Some "out.csv") 5).1.2.
Proof.
  assert (Hnd : NoDup (z_index <$> gdf_rows waiting_gdf)) by distinct_indices.
  assert (Hnone : (add_city_column sample_centroid sample_service waiting_checker
                                   None 10).2 = None) by (vm_compute; reflexivity).
  split; [reflexivity|]. split; [exact Hnd|]. split; [exact Hnone|].
  exact (add_city_column_second_pass sample_centroid sample_service
           waiting_checker waiting_gdf None 10 (Some "out.csv") 5
           sample_service_again eq_refl Hnd Hnone).
Defined.

(** The second pass asks for the zone whose lookup had failed, and only for
    it. *)
Example add_city_column_second_pass_sample :
  looked_up (add_city_column sample_centroid sample_service waiting_checker
                             None 10).1.2 = [0; 1; 2]%nat
  ∧ step_of
      <$> (add_city_column sample_centroid sample_service_again
             (add_city_column sample_centroid sample_service waiting_checker
                              None 10).1.1
             (Some "out.csv") 5).1.2
    = [Looked (Some "Klin"); Saved].
Proof. split; vm_compute; reflexivity. Qed.

Lemma add_city_column_saves_cities_witness :
  gdf waiting_checker = Some waiting_gdf
  ∧ df waiting_checker = Some waiting_table
  ∧ endswith "out.csv" ".xlsx" || endswith "out.csv" ".csv" = true
  ∧ 2%Z ≠ 0%Z
  ∧ NoDup (z_index <$> gdf_rows waiting_gdf)
  ∧ ("city" ∉ df_columns waiting_table)
  ∧ ∃ self' g' events out,
      add_city_column sample_centroid sample_service waiting_checker
                      (Some "out.csv") 2
      = (self', events ++ [EvSave "out.csv" out], None)
      ∧ gdf self' = Some g'
      ∧ ∀ z row, z ∈ gdf_rows g' →
                 df_rows waiting_table !! z_index z = Some row →
                 ∃ row', df_rows out !! z_index z = Some row'
                         ∧ row' !! "city" = Some (cell (z_attrs z) "city").
Proof.
  assert (HN : 2%Z ≠ 0%Z) by lia.
  assert (Hnd : NoDup (z_index <$> gdf_rows waiting_gdf)) by distinct_indices.
  assert (Hnew : "city" ∉ df_columns waiting_table) by not_in_columns.
  repeat (split; [first [reflexivity | assumption]|]).
  exact (add_city_column_saves_cities sample_centroid sample_service
           waiting_checker waiting_gdf waiting_table "out.csv" 2
           eq_refl eq_refl eq_refl HN Hnd Hnew).
Defined.

Lemma get_stats_counts_witness :
  gdf twelve_cities = Some twelve_gdf
  ∧ ∃ st,
      get_stats twelve_cities = Some st
      ∧ total_zones st = length (gdf_rows twelve_gdf)
      ∧ (partners st ≤ total_zones st)%nat
      ∧ (restaurants st ≤ total_zones st)%nat
      ∧ if decide ("city" ∈ gdf_columns twelve_gdf) then
          ∃ n dist,
            cities st = Some n
            ∧ city_distribution st = Some dist
            ∧ (n ≤ total_zones st)%nat
            ∧ length dist = Nat.min 10 n
        else cities st = None ∧ city_distribution st = None.
Proof.
  split; [reflexivity|].
  exact (get_stats_counts twelve_cities twelve_gdf eq_refl).
Defined.

Lemma get_stats_partner_distribution_witness :
  gdf partners_checker = Some partners_gdf
  ∧ ∃ st,
      get_stats partners_checker = Some st
      ∧ if decide ("Партнер" ∈ gdf_columns partners_gdf) then
          ∃ dist,
            partner_distribution st = Some dist
            ∧ (∀ c n, (c, n) ∈ dist ↔
                      c ∈ column partners_gdf "Партнер" ∧ c ≠ VNaN
                      ∧ n = occurrences c (column partners_gdf "Партнер"))
            ∧ NoDup dist.*1
            ∧ StronglySorted more_frequent dist
            ∧ length dist = partners st
            ∧ sum_list_with snd dist
              = length (filter (λ v, notna v = true)
                               (column partners_gdf "Партнер"))
        else partner_distribution st = None ∧ partners st = 0%nat.
Proof.
  split; [reflexivity|].
  exact (get_stats_partner_distribution partners_checker partners_gdf eq_refl).
Defined.

(** Two partners over three zones, the more frequent first. *)
Example get_stats_partners_sample :
  (λ st, (total_zones st, partners st, partner_distribution st, cities st))
    <$> get_stats partners_checker
  = Some (3%nat, 2%nat, Some [(VStr "A", 2%nat); (VStr "B", 1%nat)], None).
Proof. vm_compute. reflexivity. Qed.

Lemma get_city_from_coordinates_found_witness :
  JStr "Springfield" ≠ JNull
  ∧ (get_city_from_coordinates (λ _ _, springfield) 0 0
       = Returns (JStr "Springfield") ↔
     ∃ data members,
       (λ _ _ : Q, springfield) 0%Q 0%Q = Response 200 (Some (JObj data))
       ∧ members_get "address" data = Some (JObj members)
       ∧ JStr "Springfield" = first_nonempty members).
Proof.
  assert (Hcity : JStr "Springfield" ≠ JNull) by discriminate.
  split; [exact Hcity|].
  exact (get_city_from_coordinates_found (λ _ _, springfield) 0 0
           (JStr "Springfield") Hcity).
Defined.

Lemma add_city_column_checkpoint_content_witness :
  gdf waiting_checker = Some waiting_gdf
  ∧ df waiting_checker = Some waiting_table
  ∧ NoDup (z_index <$> gdf_rows waiting_gdf)
  ∧ ("city" ∉ df_columns waiting_table)
  ∧ (∀ z, z ∈ gdf_rows waiting_gdf →
          is_Some (df_rows waiting_table !! z_index z))
  ∧ (add_city_column sample_centroid sample_service waiting_checker
                     (Some "out.csv") 2).1.2
    = take 2 waiting_events
      ++ EvSave "out.csv" first_checkpoint :: drop 3 waiting_events
  ∧ ∀ idx city, EvLookup idx city ∈ take 2 waiting_events →
      ∃ row', df_rows first_checkpoint !! idx = Some row'
              ∧ row' !! "city" = Some (from_option VStr VNaN city).
Proof.
  assert (Hnd : NoDup (z_index <$> gdf_rows waiting_gdf)) by distinct_indices.
  assert (Hnew : "city" ∉ df_columns waiting_table) by not_in_columns.
  assert (Hrows : ∀ z, z ∈ gdf_rows waiting_gdf →
                       is_Some (df_rows waiting_table !! z_index z)).
  { intros z Hz. simpl in Hz.
    repeat (apply elem_of_cons in Hz as [->|Hz]; [by eexists|]).
    by apply elem_of_nil in Hz. }
  assert (Hev : (add_city_column sample_centroid sample_service waiting_checker
                                 (Some "out.csv") 2).1.2
                = take 2 waiting_events
                  ++ EvSave "out.csv" first_checkpoint :: drop 3 waiting_events)
    by (vm_compute; reflexivity).
  split; [reflexivity|]. split; [reflexivity|]. split; [exact Hnd|].
  split; [exact Hnew|]. split; [exact Hrows|]. split; [exact Hev|].
  exact (add_city_column_checkpoint_content sample_centroid sample_service
           waiting_checker waiting_gdf waiting_table (Some "out.csv") 2
           _ _ _ _ eq_refl eq_refl Hnd Hnew Hrows Hev).
Defined.

(** The first checkpoint, after two lookups: the city of the first zone,
    nothing yet for the other two. *)
Example first_checkpoint_sample :
  (λ row, cell row "city") <$> df_rows first_checkpoint
  = [VStr "Moscow"; VNaN; VNaN].
Proof. vm_compute. reflexivity. Qed.

Lemma check_point_simple_spec_witness :
  if endswith "polygons.csv" ".xlsx" || endswith "polygons.csv" ".csv" then
    if decide ("WKT" ∈ df_columns sample_table) then
      ∃ b, check_point_simple sample_loads 1 1 "polygons.csv" sample_table
           = Returns b
           ∧ (b = true ↔
              ∃ i row geom,
                df_rows sample_table !! i = Some row
                ∧ parses sample_loads (cell row "WKT") geom
                ∧ contains geom (1, 1)%Q = true)
    else check_point_simple sample_loads 1 1 "polygons.csv" sample_table
         = Raises (ValueError "В файле не найдена колонка 'WKT'")
  else check_point_simple sample_loads 1 1 "polygons.csv" sample_table
       = Raises (ValueError "Поддерживаются только файлы .xlsx и .csv").
Proof.
  exact (check_point_simple_spec sample_loads 1 1 "polygons.csv" sample_table).
Defined.

(** The two module-level functions on the example, and on a text file. *)
Example check_point_simple_sample :
  check_point_simple sample_loads 1 1 "polygons.csv" sample_table = Returns true
  ∧ check_point_simple sample_loads 5 5 "polygons.csv" sample_table = Returns false
  ∧ check_point_simple sample_loads 1 1 "polygons.txt" sample_table
    = Raises (ValueError "Поддерживаются только файлы .xlsx и .csv")
  ∧ get_delivery_restaurants sample_loads id 5 5 "polygons.csv" sample_table
    = Returns [].
Proof. repeat split; vm_compute; reflexivity. Qed.

Lemma get_city_from_geometry_found_witness :
  get_city_from_geometry sample_centroid sample_service 0 square = Some "Moscow" ↔
  ∃ c data members,
    sample_centroid square = Some c
    ∧ sample_service 0 c.2 c.1 = Response 200 (Some (JObj data))
    ∧ members_get "address" data = Some (JObj members)
    ∧ first_nonempty members = JStr "Moscow".
Proof.
  exact (get_city_from_geometry_found sample_centroid sample_service 0 square
           "Moscow").
Defined.

Lemma check_point_simple_agrees_witness :
  match check_point_simple sample_loads 1 1 "polygons.csv" sample_table,
        get_delivery_restaurants sample_loads id 1 1 "polygons.csv" sample_table with
  | Returns covered, Returns groups => covered = true ↔ groups ≠ []
  | Raises e, Raises e' => e = e'
  | _, _ => False
  end.
Proof.
  exact (check_point_simple_agrees sample_loads id 1 1 "polygons.csv" sample_table).
Defined.
